(** * Idempotent operation lifecycle, token ledger, reconciler and session
      rotation of the FastAPI ML server: a shallow embedding.

    Conventions of the embedding.

    - A database table is the list of its rows, in storage order.  An
      [UPDATE ... WHERE c SET f] maps [f] over the rows that satisfy [c]; its
      [RETURNING] clause lists the projected new rows; [first()] is the head of
      the result and [scalar_one_or_none()] raises on two or more rows.
    - A repository or service function takes the database as the SQLAlchemy
      session it is handed sees it and returns its outcome together with the
      database afterwards.  A Python exception is the [Raise] outcome.
    - Request handlers run inside the transaction that [app.database.get_db]
      opens around them.  The statements about them speak of the database as
      the session of the handler sees it; what the caller then commits or
      rolls back is not part of them, except where a statement runs the
      handler under [Database.get_db].  The startup reconciler manages its
      transactions itself, and module [Session] follows them.
    - Logging and the read-side cache are left out.
    - Python [int] is [Z]; [str] is [string], read as a sequence of code
      points below 256; [bytes] is [list byte]; [datetime] is [Z] (a point on
      the UTC time line); JSON columns hold values of type [json].
    - The operating system is explicit: the files that exist, the outcome of
      the training worker, the values handed out by [secrets] and the clock
      are inputs of the functions that consult them. *)

From Stdlib Require Import String Ascii.
From Stdlib Require Import ZArith List Bool Lia.
From Stdlib Require Import Permutation.
From Stdlib Require Import Sorted.
From Stdlib Require OrderedTypeEx.
From Stdlib.Strings Require Byte.
Import ListNotations.
Open Scope string_scope.
Open Scope list_scope.
Open Scope Z_scope.

(** ** hashlib.sha256 (FIPS 180-4), as used by [hash_token], [file_sha256]
       and the fingerprint generators *)

Module Hashlib.

Definition w32 (x : Z) : Z := x mod 2 ^ 32.
Definition add32 (a b : Z) : Z := w32 (a + b).
Definition rotr (n x : Z) : Z :=
  w32 (Z.lor (Z.shiftr x n) (Z.shiftl x (32 - n))).
Definition shr (n x : Z) : Z := Z.shiftr x n.

Definition Ch (x y z : Z) : Z :=
  Z.lxor (Z.land x y) (Z.land (w32 (Z.lnot x)) z).
Definition Maj (x y z : Z) : Z :=
  Z.lxor (Z.lxor (Z.land x y) (Z.land x z)) (Z.land y z).
Definition Sigma0 (x : Z) : Z := Z.lxor (Z.lxor (rotr 2 x) (rotr 13 x)) (rotr 22 x).
Definition Sigma1 (x : Z) : Z := Z.lxor (Z.lxor (rotr 6 x) (rotr 11 x)) (rotr 25 x).
Definition sigma0 (x : Z) : Z := Z.lxor (Z.lxor (rotr 7 x) (rotr 18 x)) (shr 3 x).
Definition sigma1 (x : Z) : Z := Z.lxor (Z.lxor (rotr 17 x) (rotr 19 x)) (shr 10 x).

(** The round constants are the first 32 bits of the fractional parts of
    the cube roots of the first 64 primes, the initial hash value those of
    the square roots of the first 8 primes. *)
Definition primes : list Z :=
  [2; 3; 5; 7; 11; 13; 17; 19; 23; 29; 31; 37; 41; 43; 47; 53;
   59; 61; 67; 71; 73; 79; 83; 89; 97; 101; 103; 107; 109; 113; 127; 131;
   137; 139; 149; 151; 157; 163; 167; 173; 179; 181; 191; 193; 197; 199; 211; 223;
   227; 229; 233; 239; 241; 251; 257; 263; 269; 271; 277; 281; 283; 293; 307; 311].

Fixpoint icbrt_bits (bits : nat) (n r : Z) : Z :=
  match bits with
  | O => r
  | S b =>
      let c := r + 2 ^ Z.of_nat b in
      icbrt_bits b n (if c * c * c <=? n then c else r)
  end.
Definition icbrt (n : Z) : Z := icbrt_bits 40 n 0.

Definition K : list Z :=
  Eval vm_compute in map (fun p => w32 (icbrt (p * 2 ^ 96))) primes.
Definition H0 : list Z :=
  Eval vm_compute in map (fun p => w32 (Z.sqrt (p * 2 ^ 64))) (firstn 8 primes).

Definition byteZ (b : Byte.byte) : Z := Z.of_N (Byte.to_N b).

Definition be64 (n : Z) : list Z :=
  map (fun i => Z.shiftr n (8 * i) mod 256) [7; 6; 5; 4; 3; 2; 1; 0].

Definition pad (msg : list Z) : list Z :=
  let n := Z.of_nat (length msg) in
  msg ++ [128] ++ repeat 0 (Z.to_nat ((55 - n) mod 64)) ++ be64 (8 * n).

Fixpoint words (l : list Z) : list Z :=
  match l with
  | b0 :: b1 :: b2 :: b3 :: r =>
      (b0 * 2 ^ 24 + b1 * 2 ^ 16 + b2 * 2 ^ 8 + b3) :: words r
  | _ => []
  end.

Fixpoint blocks (fuel : nat) (ws : list Z) : list (list Z) :=
  match fuel, ws with
  | S f, _ :: _ => firstn 16 ws :: blocks f (skipn 16 ws)
  | _, _ => []
  end.

Definition extend1 (w : list Z) : list Z :=
  let t := length w in
  let at_ (k : nat) := nth (t - k) w 0 in
  w ++ [add32 (add32 (sigma1 (at_ 2%nat)) (at_ 7%nat))
              (add32 (sigma0 (at_ 15%nat)) (at_ 16%nat))].

Definition schedule (block : list Z) : list Z :=
  Nat.iter 48 extend1 block.

Record state := mkState { a_ : Z; b_ : Z; c_ : Z; d_ : Z; e_ : Z; f_ : Z; g_ : Z; h_ : Z }.

Definition round (s : state) (kw : Z * Z) : state :=
  let t1 := add32 (add32 (add32 (h_ s) (Sigma1 (e_ s)))
                         (add32 (Ch (e_ s) (f_ s) (g_ s)) (fst kw))) (snd kw) in
  let t2 := add32 (Sigma0 (a_ s)) (Maj (a_ s) (b_ s) (c_ s)) in
  mkState (add32 t1 t2) (a_ s) (b_ s) (c_ s) (add32 (d_ s) t1) (e_ s) (f_ s) (g_ s).

Definition compress (s : state) (block : list Z) : state :=
  let r := fold_left round (combine K (schedule block)) s in
  mkState (add32 (a_ s) (a_ r)) (add32 (b_ s) (b_ r)) (add32 (c_ s) (c_ r))
          (add32 (d_ s) (d_ r)) (add32 (e_ s) (e_ r)) (add32 (f_ s) (f_ r))
          (add32 (g_ s) (g_ r)) (add32 (h_ s) (h_ r)).

Definition init : state :=
  mkState (nth 0 H0 0) (nth 1 H0 0) (nth 2 H0 0) (nth 3 H0 0)
          (nth 4 H0 0) (nth 5 H0 0) (nth 6 H0 0) (nth 7 H0 0).

Definition digest_words (msg : list Byte.byte) : list Z :=
  let ws := words (pad (map byteZ msg)) in
  let s := fold_left compress (blocks (length ws) ws) init in
  [a_ s; b_ s; c_ s; d_ s; e_ s; f_ s; g_ s; h_ s].

Definition hex_digit (n : Z) : ascii :=
  nth (Z.to_nat (n mod 16))
      ["0"; "1"; "2"; "3"; "4"; "5"; "6"; "7"; "8"; "9"; "a"; "b"; "c"; "d"; "e"; "f"]%char
      "0"%char.

Definition hex8 (w : Z) (rest : string) : string :=
  fold_right (fun i acc => String (hex_digit (Z.shiftr w (4 * i))) acc)
             rest [7; 6; 5; 4; 3; 2; 1; 0].

(** [hashlib.sha256(msg).hexdigest()] *)
Definition sha256_hexdigest (msg : list Byte.byte) : string :=
  fold_right hex8 EmptyString (digest_words msg).

(** [s.encode("utf-8")] for code points below 256. *)
Definition utf8_char (c : ascii) : list Byte.byte :=
  let n := N_of_ascii c in
  if (n <? 128)%N then [byte_of_ascii c]
  else match Byte.of_N (192 + N.shiftr n 6), Byte.of_N (128 + N.land n 63) with
       | Some hi, Some lo => [hi; lo]
       | _, _ => []
       end.

Fixpoint encode_utf8 (s : string) : list Byte.byte :=
  match s with
  | EmptyString => []
  | String c r => utf8_char c ++ encode_utf8 r
  end.

End Hashlib.

(** ** app.utils.security_utils *)

Module SecurityUtils.

(** [hash_token(token) = sha256(token.encode("utf-8")).hexdigest()] *)
Definition hash_token (token : string) : string :=
  Hashlib.sha256_hexdigest (Hashlib.encode_utf8 token).

End SecurityUtils.

(** ** Exceptions and outcomes *)

Inductive Exn : Type :=
  (* app.exceptions.auth *)
  | TokenGenerationException
  | InvalidTokenException
  | ExpiredTokenException
  | ReusedTokenException
  (* app.exceptions.user *)
  | NotEnoughTokensException
  (* app.exceptions.token_credit *)
  | PurchaseInProgressException
  | BalanceMustBeZeroException
  (* app.exceptions.train_model *)
  | TrainModelInProgressException
  | TrainingFailedException
  | ArtifactWriteException
  (* app.exceptions.prediction *)
  | PredictionInProgressException
  | ModelNotFoundException
  | ArtifactMissingException
  | PredictionFailedException
  (* builtins *)
  | OSError
  | FileNotFoundError
  (* sqlalchemy.exc *)
  | IntegrityError
  | MultipleResultsFound
  | NoResultFound
  | InvalidRequestError
  (* asyncio *)
  | CancelledError.

Inductive result (A : Type) : Type :=
  | Ok (a : A)
  | Raise (e : Exn).
Arguments Ok {A} a.
Arguments Raise {A} e.

(** Code that threads a store [S] and may raise: the store at the point of
    the [raise] is kept, as the session keeps what was executed so far. *)
Definition M (S A : Type) : Type := S -> result A * S.

Definition ret {S A} (a : A) : M S A := fun s => (Ok a, s).
Definition raise {S A} (e : Exn) : M S A := fun s => (Raise e, s).
Definition bind {S A B} (m : M S A) (k : A -> M S B) : M S B :=
  fun s => match m s with
           | (Ok a, s') => k a s'
           | (Raise e, s') => (Raise e, s')
           end.
Definition get {S} : M S S := fun s => (Ok s, s).
Definition modify {S} (f : S -> S) : M S unit := fun s => (Ok tt, f s).
(** [try: m except e: h e] *)
Definition try_except {S A} (m : M S A) (h : Exn -> M S A) : M S A :=
  fun s => match m s with
           | (Ok a, s') => (Ok a, s')
           | (Raise e, s') => h e s'
           end.
(** a statement of a pure table function lifted to the store *)
Definition of_result {S A} (r : result A) : M S A := fun s => (r, s).

(** The outcome of a function whose exceptions are not among [Exn]: the
    validators, the request models, the account service. *)
Inductive answer (E A : Type) : Type :=
  | Returns (a : A)
  | Raises (e : E).
Arguments Returns {E A} a.
Arguments Raises {E A} e.

Declare Scope m_scope.
Delimit Scope m_scope with M.
Notation "x <- m ;; k" := (bind m (fun x => k))
  (at level 61, m at next level, right associativity) : m_scope.
Notation "m ;;; k" := (bind m (fun _ => k))
  (at level 61, right associativity) : m_scope.

(** ** app.models.enums *)

Inductive RowStatus : Type := pending | applied | failed.

Definition RowStatus_eqb (a b : RowStatus) : bool :=
  match a, b with
  | pending, pending | applied, applied | failed, failed => true
  | _, _ => false
  end.

Inductive ActionType : Type := TRAINING | METADATA | PREDICTION | ASSIST.

Definition cost (a : ActionType) : Z :=
  match a with
  | TRAINING => 10
  | METADATA => 1
  | PREDICTION => 5
  | ASSIST => 2
  end.

(** ** JSON values and [json.dumps] *)

(** A Python [dict] is the list of its items in insertion order, its keys
    pairwise distinct.  A [float] is carried as its [repr], which is what
    [json.dumps] emits for it. *)
Unset Elimination Schemes.
Inductive json : Type :=
  | JNull
  | JBool (b : bool)
  | JInt (n : Z)
  | JFloat (repr : string)
  | JStr (s : string)
  | JList (l : list json)
  | JDict (items : list (string * json)).
Set Elimination Schemes.

Module Json.

(** [sorted(items)] on pairs whose keys are pairwise distinct compares
    keys only; strings compare by code point.  Insertion sort is stable,
    as Python's sort is. *)
Fixpoint insert_item {A} (x : string * A) (l : list (string * A)) : list (string * A) :=
  match l with
  | [] => [x]
  | y :: r => if String.leb (fst x) (fst y) then x :: y :: r else y :: insert_item x r
  end.

Fixpoint sorted_items {A} (l : list (string * A)) : list (string * A) :=
  match l with
  | [] => []
  | x :: r => insert_item x (sorted_items r)
  end.

(** [sorted(l)] for a list of strings *)
Definition sorted_strs (l : list string) : list string :=
  map fst (sorted_items (map (fun x => (x, tt)) l)).

Fixpoint join (sep : string) (l : list string) : string :=
  match l with
  | [] => EmptyString
  | [x] => x
  | x :: r => x ++ sep ++ join sep r
  end%string.

Definition hex4 (n : N) (rest : string) : string :=
  fold_right (fun i acc => String (Hashlib.hex_digit (Z.shiftr (Z.of_N n) (4 * i))) acc)
             rest [3; 2; 1; 0].

(** [json.encoder.py_encode_basestring_ascii]: everything outside the
    printable ASCII range is escaped. *)
Definition dquote : ascii := Eval compute in ascii_of_N 34.
Definition backslash : ascii := Eval compute in ascii_of_N 92.

Definition escape_char (c : ascii) (rest : string) : string :=
  let n := N_of_ascii c in
  if (n =? 34)%N then String backslash (String dquote rest)
  else if (n =? 92)%N then String backslash (String backslash rest)
  else if (n =? 10)%N then String backslash (String "n"%char rest)
  else if (n =? 13)%N then String backslash (String "r"%char rest)
  else if (n =? 9)%N then String backslash (String "t"%char rest)
  else if (n =? 8)%N then String backslash (String "b"%char rest)
  else if (n =? 12)%N then String backslash (String "f"%char rest)
  else if ((32 <=? n) && (n <=? 126))%N then String c rest
  else String backslash (String "u"%char (hex4 n rest)).

Fixpoint escape (s : string) : string :=
  match s with
  | EmptyString => EmptyString
  | String c r => escape_char c (escape r)
  end.

Definition quote (s : string) : string :=
  String dquote (escape s ++ String dquote EmptyString)%string.

Fixpoint digits (fuel : nat) (n : Z) (acc : string) : string :=
  match fuel with
  | O => acc
  | S f =>
      let acc' := String (Hashlib.hex_digit (n mod 10)) acc in
      if n <? 10 then acc' else digits f (n / 10) acc'
  end.

(** [str(n)] for an [int] *)
Definition dec (n : Z) : string :=
  if n <? 0 then String "-"%char (digits (S (Z.to_nat (Z.log2 (- n)))) (- n) EmptyString)
  else digits (S (Z.to_nat (Z.log2 n))) n EmptyString.

Definition member (k : string) (v : string) : string :=
  (quote k ++ ":" ++ v)%string.

(** [json.dumps(obj, sort_keys=True, separators=(",", ":"))] *)
Fixpoint dumps (j : json) : string :=
  match j with
  | JNull => "null"
  | JBool true => "true"
  | JBool false => "false"
  | JInt n => dec n
  | JFloat r => r
  | JStr s => quote s
  | JList l => ("[" ++ join "," (map dumps l) ++ "]")%string
  | JDict items =>
      ("{" ++ join "," (map (fun kv => member (fst kv) (snd kv))
                            (sorted_items (map (fun kv => let '(k, v) := kv in (k, dumps v)) items)))
           ++ "}")%string
  end.

(** the items of a dict with their values serialized *)
Definition render (kv : string * json) : string * string :=
  let '(k, v) := kv in (k, dumps v).

(** Equality of two values as Python's [==] decides it for values of the
    same JSON type: lists compare element by element, dicts as sets of
    items.  (Numbers of different types, which [==] may identify, are kept
    apart: [1] and [1.0] serialize differently.) *)
Inductive py_eq : json -> json -> Prop :=
  | eq_null : py_eq JNull JNull
  | eq_bool b : py_eq (JBool b) (JBool b)
  | eq_int n : py_eq (JInt n) (JInt n)
  | eq_float r : py_eq (JFloat r) (JFloat r)
  | eq_str s : py_eq (JStr s) (JStr s)
  | eq_list l1 l2 : list_eq l1 l2 -> py_eq (JList l1) (JList l2)
  | eq_dict d1 d2 d2' :
      items_eq d1 d2' -> Permutation d2' d2 -> py_eq (JDict d1) (JDict d2)
with list_eq : list json -> list json -> Prop :=
  | eq_nil : list_eq [] []
  | eq_cons x y l1 l2 : py_eq x y -> list_eq l1 l2 -> list_eq (x :: l1) (y :: l2)
with items_eq : list (string * json) -> list (string * json) -> Prop :=
  | eq_inil : items_eq [] []
  | eq_icons k x y l1 l2 :
      py_eq x y -> items_eq l1 l2 -> items_eq ((k, x) :: l1) ((k, y) :: l2).

Scheme py_eq_mut := Minimality for py_eq Sort Prop
  with list_eq_mut := Minimality for list_eq Sort Prop
  with items_eq_mut := Minimality for items_eq Sort Prop.
Combined Scheme py_eq_mutind from py_eq_mut, list_eq_mut, items_eq_mut.

(** well-formed: the keys of every dict are pairwise distinct *)
Fixpoint wf (j : json) : Prop :=
  match j with
  | JList l => fold_right (fun x P => wf x /\ P) True l
  | JDict items =>
      NoDup (map fst items)
      /\ fold_right (fun kv P => (let '(_, v) := kv in wf v) /\ P) True items
  | _ => True
  end.

End Json.

(** ** The operating system: files and the imported strategy module *)

Module Os.
(** [files]: the regular files that exist, with their contents;
    [replace_denied]: the targets for which [os.replace] fails with an
    [OSError]; [strategy_source]: what [inspect.getsource] returns for
    [app.models.ml_models.concrete_strategy_classes], None when the module
    or its source cannot be found. *)
Record t : Type := mk {
  files : list (string * list Byte.byte);
  replace_denied : list string;
  strategy_source : option string }.

Definition with_files (o : t) (f : list (string * list Byte.byte)) : t :=
  mk f (replace_denied o) (strategy_source o).

Definition lookup (path : string) (o : t) : option (list Byte.byte) :=
  option_map snd (find (fun e => String.eqb (fst e) path) (files o)).

(** [os.path.exists(path)] *)
Definition path_exists (path : string) (o : t) : bool :=
  existsb (fun e => String.eqb (fst e) path) (files o).

Definition without (path : string) (f : list (string * list Byte.byte))
  : list (string * list Byte.byte) :=
  filter (fun e => negb (String.eqb (fst e) path)) f.

(** writing a file creates or replaces it *)
Definition write (path : string) (content : list Byte.byte) (o : t) : t :=
  with_files o ((path, content) :: without path (files o)).

(** [os.replace(src, dst)] *)
Definition replace (src dst : string) (o : t) : result unit * t :=
  match lookup src o with
  | None => (Raise FileNotFoundError, o)
  | Some content =>
      if existsb (String.eqb dst) (replace_denied o) then (Raise OSError, o)
      else (Ok tt, with_files o ((dst, content) :: without dst (without src (files o))))
  end.

(** [os.remove(path)] *)
Definition remove (path : string) (o : t) : result unit * t :=
  if path_exists path o then (Ok tt, with_files o (without path (files o)))
  else (Raise FileNotFoundError, o).
End Os.

(** ** app.utils.fingerprint_hashing *)

Module FingerprintHashing.

(** [iter(lambda: f.read(size), bytes())]: the chunks a file is read in *)
Fixpoint chunks (fuel : nat) (size : nat) (content : list Byte.byte)
  : list (list Byte.byte) :=
  match fuel, content with
  | S f, _ :: _ => firstn size content :: chunks f size (skipn size content)
  | _, _ => []
  end.

Definition CHUNK : nat := 1024 * 1024.

(** Streaming SHA-256 over file contents (1MB chunks): [h.update] of
    each chunk in turn hashes their concatenation. *)
Definition file_sha256 (path : string) (o : Os.t) : result string :=
  match Os.lookup path o with
  | None => Raise FileNotFoundError
  | Some content =>
      Ok (Hashlib.sha256_hexdigest (concat (chunks (length content) CHUNK content)))
  end.

(** Deterministic JSON string (sorted keys, no spaces). *)
Definition stable_json (obj : json) : string := Json.dumps obj.

(** [str.splitlines()] and [str.rstrip()] on code points below 256 *)
Definition is_linebreak (c : ascii) : bool :=
  let n := N_of_ascii c in
  ((n =? 10) || (n =? 11) || (n =? 12) || (n =? 13)
   || (n =? 28) || (n =? 29) || (n =? 30) || (n =? 133))%N.

Definition is_space (c : ascii) : bool :=
  let n := N_of_ascii c in
  (((9 <=? n) && (n <=? 13)) || ((28 <=? n) && (n <=? 32)) || (n =? 133) || (n =? 160))%N.

(** [cur] is the line read so far, reversed; [started] tells whether a
    line is open; [after_cr] that the previous character was a carriage
    return, whose line feed belongs to the same break. *)
Fixpoint splitlines_from (cur : list ascii) (started after_cr : bool) (s : string)
  : list string :=
  match s with
  | EmptyString => if started then [string_of_list_ascii (rev cur)] else []
  | String c r =>
      if (after_cr && (N_of_ascii c =? 10)%N)%bool then splitlines_from [] false false r
      else if is_linebreak c then
        string_of_list_ascii (rev cur) :: splitlines_from [] false (N_of_ascii c =? 13)%N r
      else splitlines_from (c :: cur) true false r
  end.

Definition splitlines (s : string) : list string := splitlines_from [] false false s.

Fixpoint lstrip_list (l : list ascii) : list ascii :=
  match l with
  | c :: r => if is_space c then lstrip_list r else l
  | [] => []
  end.

Definition rstrip (s : string) : string :=
  string_of_list_ascii (rev (lstrip_list (rev (list_ascii_of_string s)))).

Definition newline : string := String (ascii_of_nat 10) EmptyString.

(** [model_code_hash()]; the value is cached once per process. *)
Definition model_code_hash (o : Os.t) : string :=
  match Os.strategy_source o with
  | None => "no-src"
  | Some src =>
      let norm := Json.join newline (map rstrip (splitlines src)) in
      Hashlib.sha256_hexdigest (Hashlib.encode_utf8 norm)
  end.

(** [lockfile_sha(path)] *)
Definition lockfile_sha (path : string) (o : Os.t) : string :=
  match Os.lookup path o with
  | None => "no-lock"
  | Some content => Hashlib.sha256_hexdigest content
  end.

Definition pipeline_version (requirements_file_path : string) (o : Os.t) : string :=
  (model_code_hash o ++ "|lock=" ++ lockfile_sha requirements_file_path o)%string.

(** Build a stable fingerprint over the CSV file contents, the
    normalized features/label/model_type/params and the pipeline version. *)
Definition compute_training_fingerprint
    (csv_file_path : string) (sorted_features_clean : list string)
    (label_clean model_type_clean : string) (params_norm : json)
    (requirements_file_path : string) (o : Os.t) : result string :=
  match file_sha256 csv_file_path o with
  | Raise e => Raise e
  | Ok data_sha256 =>
      let parts := JDict [("data_sha256", JStr data_sha256);
                          ("features", JList (map JStr sorted_features_clean));
                          ("label", JStr label_clean);
                          ("model_type", JStr model_type_clean);
                          ("params", params_norm);
                          ("pipeline_version",
                           JStr (pipeline_version requirements_file_path o))] in
      Ok (Hashlib.sha256_hexdigest (Hashlib.encode_utf8 (stable_json parts)))
  end.

Definition compute_prediction_fingerprint
    (model_id : Z) (feature_values : list (string * json)) : string :=
  let canonical :=
    JDict [("model_id", JInt model_id);
           ("features",
            JList (map (fun kv => JList [JStr (fst kv); snd kv])
                       (Json.sorted_items feature_values)))] in
  let payload := stable_json canonical in
  Hashlib.sha256_hexdigest (Hashlib.encode_utf8 payload).

End FingerprintHashing.

(** ** ORM models (app.models.orm_models)

    The columns that no modelled operation reads ([created_at],
    [updated_at], names, e-mail, password hash) are left out.  User rows are
    never deleted (deletion is the soft [is_active = False]), so the foreign
    keys to [users.id] hold throughout and are not checked again. *)

Module User.
Record t : Type := mk { id : Z; username : string; is_active : bool; tokens : Z }.
Definition with_tokens (u : t) (n : Z) : t := mk (id u) (username u) (is_active u) n.
Definition with_is_active (u : t) (b : bool) : t := mk (id u) (username u) b (tokens u).
(** [CHECK (tokens >= 0 AND tokens <= 1000)] *)
Definition ck_users_tokens_0_1000 (u : t) : bool := (0 <=? tokens u) && (tokens u <=? 1000).
End User.

Module TokenCredit.
Record t : Type := mk {
  id : Z; user_id : Z; key : string; open_balance : option Z; status : RowStatus }.
Definition with_status (r : t) (s : RowStatus) (b : option Z) : t :=
  mk (id r) (user_id r) (key r) b s.
(** [CHECK ((status <> 'applied' AND open_balance IS NULL)
           OR (status = 'applied' AND open_balance BETWEEN 1 AND 100))] *)
Definition ck_open_balance_when_applied (r : t) : bool :=
  match status r, open_balance r with
  | applied, Some b => (1 <=? b) && (b <=? 100)
  | applied, None => false
  | _, None => true
  | _, Some _ => false
  end.
End TokenCredit.

Module AuthSession.
Record t : Type := mk {
  id : Z; user_id : Z; session_id : string;
  refresh_token_hash : string; last_token_hash : option string;
  revoked : bool; ip_address : string; user_agent : string;
  expires_at : Z; absolute_expires_at : Z }.
Definition with_revoked (r : t) (b : bool) : t :=
  mk (id r) (user_id r) (session_id r) (refresh_token_hash r) (last_token_hash r)
     b (ip_address r) (user_agent r) (expires_at r) (absolute_expires_at r).
Definition with_rotation (r : t) (new_hash : string) (last_hash : option string)
    (new_expiry : Z) : t :=
  mk (id r) (user_id r) (session_id r) new_hash last_hash
     (revoked r) (ip_address r) (user_agent r) new_expiry (absolute_expires_at r).
End AuthSession.

Module TrainedModel.
Record t : Type := mk {
  id : Z; user_id : Z; model_type : string; features : list string;
  model_params : json; label : string; metrics : json; feature_schema : json;
  fingerprint : string; model_path : string; status : RowStatus }.
Definition with_status_metrics (r : t) (s : RowStatus) (m : json) : t :=
  mk (id r) (user_id r) (model_type r) (features r) (model_params r) (label r)
     m (feature_schema r) (fingerprint r) (model_path r) s.
Definition with_status (r : t) (s : RowStatus) : t := with_status_metrics r s (metrics r).
End TrainedModel.

Module Prediction.
Record t : Type := mk {
  id : Z; user_id : Z; model_id : Z; model_type : string; input_data : json;
  prediction_result : string; fingerprint : string; status : RowStatus }.
Definition with_status_result (r : t) (s : RowStatus) (res : string) : t :=
  mk (id r) (user_id r) (model_id r) (model_type r) (input_data r) res (fingerprint r) s.
Definition with_status (r : t) (s : RowStatus) : t :=
  with_status_result r s (prediction_result r).
End Prediction.

(** The database as one SQLAlchemy session sees it. *)
Record DB : Type := mkDB {
  users : list User.t;
  token_credits : list TokenCredit.t;
  auth_sessions : list AuthSession.t;
  trained_models : list TrainedModel.t;
  predictions : list Prediction.t }.

Definition set_users (d : DB) (x : list User.t) : DB :=
  mkDB x (token_credits d) (auth_sessions d) (trained_models d) (predictions d).
Definition set_token_credits (d : DB) (x : list TokenCredit.t) : DB :=
  mkDB (users d) x (auth_sessions d) (trained_models d) (predictions d).
Definition set_auth_sessions (d : DB) (x : list AuthSession.t) : DB :=
  mkDB (users d) (token_credits d) x (trained_models d) (predictions d).
Definition set_trained_models (d : DB) (x : list TrainedModel.t) : DB :=
  mkDB (users d) (token_credits d) (auth_sessions d) x (predictions d).
Definition set_predictions (d : DB) (x : list Prediction.t) : DB :=
  mkDB (users d) (token_credits d) (auth_sessions d) (trained_models d) x.

(** ** The SQL statements the repositories issue *)

Module Sql.
Section Table.
Context {R : Type}.

(** rows after [UPDATE t SET f WHERE c] *)
Definition update (c : R -> bool) (f : R -> R) (t : list R) : list R :=
  map (fun r => if c r then f r else r) t.

(** what [RETURNING proj] of that statement yields *)
Definition returning {A} (c : R -> bool) (f : R -> R) (proj : R -> A) (t : list R) : list A :=
  map (fun r => proj (f r)) (filter c t).

(** [rowcount] of that statement *)
Definition rowcount (c : R -> bool) (t : list R) : Z :=
  Z.of_nat (length (filter c t)).

(** the statement under a CHECK constraint: a new row version that
    violates it aborts the statement *)
Definition update_checked (ck : R -> bool) (c : R -> bool) (f : R -> R) (t : list R)
  : result (list R) :=
  if forallb ck (map f (filter c t)) then Ok (update c f t) else Raise IntegrityError.

Definition select {A} (c : R -> bool) (proj : R -> A) (t : list R) : list A :=
  map proj (filter c t).
End Table.

(** [Result.first()], [fetchone()] *)
Definition first {A} (l : list A) : option A := hd_error l.

(** [Result.scalar_one_or_none()] *)
Definition scalar_one_or_none {A} (l : list A) : result (option A) :=
  match l with
  | [] => Ok None
  | [x] => Ok (Some x)
  | _ => Raise MultipleResultsFound
  end.

(** [Result.scalar_one()] *)
Definition scalar_one {A} (l : list A) : result A :=
  match l with
  | [] => Raise NoResultFound
  | [x] => Ok x
  | _ => Raise MultipleResultsFound
  end.

(** the value a serial primary key takes for a new row: larger than
    every id in the table *)
Definition next_id (ids : list Z) : Z := 1 + fold_right Z.max 0 ids.
End Sql.

(** ** app.repositories.user_repository *)

Module UserRepository.
Import User.

Definition get_user_by_id (user_id : Z) (t : list User.t) : result (option User.t) :=
  Sql.scalar_one_or_none
    (Sql.select (fun u => (id u =? user_id) && is_active u) (fun u => u) t).

Definition get_tokens_by_id (user_id : Z) (t : list User.t) : result Z :=
  Sql.scalar_one (Sql.select (fun u => id u =? user_id) tokens t).

(** Add tokens if current tokens == 0 (policy).  Returns the new balance
    or None if not applied. *)
Definition add_tokens (user_id amount : Z) (t : list User.t)
  : result (option Z) * list User.t :=
  let c u := (id u =? user_id) && (tokens u =? 0) && is_active u in
  let f u := with_tokens u (tokens u + amount) in
  match Sql.update_checked ck_users_tokens_0_1000 c f t with
  | Raise e => (Raise e, t)
  | Ok t' => (Ok (Sql.first (Sql.returning c f tokens t)), t')
  end.

(** Deduct tokens atomically if balance >= cost.  Returns the remaining
    balance or raises. *)
Definition update_tokens (user_id cost : Z) (t : list User.t)
  : result Z * list User.t :=
  let c u := (id u =? user_id) && (cost <=? tokens u) in
  let f u := with_tokens u (tokens u - cost) in
  match Sql.update_checked ck_users_tokens_0_1000 c f t with
  | Raise e => (Raise e, t)
  | Ok t' =>
      match Sql.first (Sql.returning c f tokens t) with
      | None => (Raise NotEnoughTokensException, t')
      | Some row => (Ok row, t')
      end
  end.

(** Soft delete.  True if changed, False if already inactive. *)
Definition delete_user (user_id : Z) (t : list User.t) : bool * list User.t :=
  let c u := (id u =? user_id) && is_active u in
  (Sql.rowcount c t =? 1, Sql.update c (fun u => with_is_active u false) t).

(** [{username, tokens}] for all active users, ordered by [created_at]:
    the rows of a table are kept in the order of their creation. *)
Definition get_all_users_tokens (t : list User.t) : list (string * Z) :=
  Sql.select is_active (fun u => (username u, tokens u)) t.
End UserRepository.

(** ** app.repositories.token_credit_repository *)

Module TokenCreditRepository.
Import TokenCredit.

Definition same_key (uid : Z) (k : string) (r : TokenCredit.t) : bool :=
  (user_id r =? uid) && String.eqb (key r) k.

(** Insert a 'pending' ledger row once (idempotency key).  True iff
    inserted; False if the key is a duplicate ([ON CONFLICT (user_id, key)
    DO NOTHING]).  The partial unique index
    [ux_token_credits_one_pending_per_user] is no arbiter of the
    statement: a second pending row of the user raises. *)
Definition try_insert_pending (uid : Z) (k : string) (t : list TokenCredit.t)
  : result bool * list TokenCredit.t :=
  if existsb (same_key uid k) t then (Ok false, t)
  else if existsb (fun r => (user_id r =? uid) && RowStatus_eqb (status r) pending) t
       then (Raise IntegrityError, t)
       else (Ok true, t ++ [mk (Sql.next_id (map id t)) uid k None pending]).

(** [{'status': ..., 'open_balance': ...}] for this key, or None *)
Definition get_by_key_status_open_balance (uid : Z) (k : string) (t : list TokenCredit.t)
  : option (RowStatus * option Z) :=
  Sql.first (Sql.select (same_key uid k) (fun r => (status r, open_balance r)) t).

(** Set status=applied and persist the open_balance snapshot. *)
Definition mark_applied (uid : Z) (k : string) (balance : Z) (t : list TokenCredit.t)
  : result unit * list TokenCredit.t :=
  match Sql.update_checked ck_open_balance_when_applied (same_key uid k)
                           (fun r => with_status r applied (Some balance)) t with
  | Raise e => (Raise e, t)
  | Ok t' => (Ok tt, t')
  end.

(** Set status=failed for this key. *)
Definition mark_failed (uid : Z) (k : string) (t : list TokenCredit.t)
  : result unit * list TokenCredit.t :=
  match Sql.update_checked ck_open_balance_when_applied (same_key uid k)
                           (fun r => with_status r failed (open_balance r)) t with
  | Raise e => (Raise e, t)
  | Ok t' => (Ok tt, t')
  end.
End TokenCreditRepository.

(** Statements of one table run against the session. *)
Definition on_users {A} (f : list User.t -> result A * list User.t) : M DB A :=
  fun d => let '(r, t) := f (users d) in (r, set_users d t).
Definition on_token_credits {A} (f : list TokenCredit.t -> result A * list TokenCredit.t)
  : M DB A :=
  fun d => let '(r, t) := f (token_credits d) in (r, set_token_credits d t).
Definition on_auth_sessions {A} (f : list AuthSession.t -> result A * list AuthSession.t)
  : M DB A :=
  fun d => let '(r, t) := f (auth_sessions d) in (r, set_auth_sessions d t).
Definition on_trained_models {A} (f : list TrainedModel.t -> result A * list TrainedModel.t)
  : M DB A :=
  fun d => let '(r, t) := f (trained_models d) in (r, set_trained_models d t).
Definition on_predictions {A} (f : list Prediction.t -> result A * list Prediction.t)
  : M DB A :=
  fun d => let '(r, t) := f (predictions d) in (r, set_predictions d t).

(** ** app.config: the defaults of [Settings] *)

Module config.
Definition MAX_TOKENS_PER_PURCHASE : Z := 100.
Definition TOKEN_EXPIRY_TIME : Z := 30.
Definition MAX_TOKEN_GENERATION_RETRIES : nat := 3.
End config.

(** ** app.services.token_credit_service *)

Module TokenCreditService.
Module TCRepo := TokenCreditRepository.
Module UserRepo := UserRepository.

Record BuyTokensResponse : Type := mkResponse { message : string; balance : Z }.

Definition response (result_balance : Z) : BuyTokensResponse :=
  mkResponse (Json.dec result_balance ++ " tokens has been added.")%string result_balance.

(** Idempotent token purchase (credit).  [amount] is validated upstream
    ([BuyTokensRequest]: 0 < amount <= MAX_TOKENS_PER_PURCHASE). *)
Definition buy_tokens (user : User.t) (amount : Z) (key : string) : M DB BuyTokensResponse :=
  (inserted <- on_token_credits (TCRepo.try_insert_pending (User.id user) key) ;;
   if inserted : bool then
     new_balance <- on_users (UserRepo.add_tokens (User.id user) amount) ;;
     match new_balance with
     | None =>
         on_token_credits (TCRepo.mark_failed (User.id user) key) ;;;
         raise BalanceMustBeZeroException
     | Some new_balance =>
         on_token_credits (TCRepo.mark_applied (User.id user) key new_balance) ;;;
         ret (response new_balance)
     end
   else
     d <- get ;;
     match TCRepo.get_by_key_status_open_balance (User.id user) key (token_credits d) with
     | Some (applied, Some open_balance) => ret (response open_balance)
     | Some (failed, _) => raise BalanceMustBeZeroException
     | _ => raise PurchaseInProgressException
     end)%M.
End TokenCreditService.

(** ** app.repositories.auth_repository *)

Module AuthRepository.
Import AuthSession.

Fixpoint distinct (l : list string) : bool :=
  match l with
  | [] => true
  | x :: r => negb (existsb (String.eqb x) r) && distinct r
  end.

(** [db.add(AuthSession(...))]: the INSERT is part of the session's next
    flush, so no constraint is checked at this point. *)
Definition insert_new_refresh_token
    (session_id : string) (user_id : Z) (refresh_hash : string)
    (expires_at absolute_expires_at : Z) (ip_address user_agent : string)
    (t : list AuthSession.t) : result unit * list AuthSession.t :=
  (Ok tt, t ++ [mk (Sql.next_id (map id t)) user_id session_id refresh_hash None false
                   ip_address user_agent expires_at absolute_expires_at]).

(** [SELECT ... WHERE refresh_token_hash = :token_hash FOR UPDATE], first row *)
Definition get_refresh_token (token_hash : string) (t : list AuthSession.t)
  : option AuthSession.t :=
  Sql.first (Sql.select (fun r => String.eqb (refresh_token_hash r) token_hash) (fun r => r) t).

(** [UPDATE ... WHERE session_id = :session_id]; the new hash is subject
    to [uq_refresh_token_hash]. *)
Definition rotate_refresh_token
    (session_id : option string) (new_token_hash : string)
    (last_token_hash : option string) (new_expiry : Z)
    (t : list AuthSession.t) : result unit * list AuthSession.t :=
  let c r := match session_id with
             | Some sid => String.eqb (AuthSession.session_id r) sid
             | None => false
             end in
  let t' := Sql.update c (fun r => with_rotation r new_token_hash last_token_hash new_expiry) t in
  if distinct (map refresh_token_hash t') then (Ok tt, t') else (Raise IntegrityError, t).

Definition revoke_by_session (session_id : string) (t : list AuthSession.t)
  : result unit * list AuthSession.t :=
  (Ok tt, Sql.update (fun r => String.eqb (AuthSession.session_id r) session_id)
                     (fun r => with_revoked r true) t).

Definition revoke_all_session_by_user (user_id : Z) (t : list AuthSession.t)
  : result unit * list AuthSession.t :=
  (Ok tt, Sql.update (fun r => AuthSession.user_id r =? user_id)
                     (fun r => with_revoked r true) t).
End AuthRepository.

(** ** app.services.user_service *)

Module UserService.
Module UserRepo := UserRepository.
Module ARepo := AuthRepository.

Inductive Error : Type :=
  | DeleteUserConfirmationException
  | UserHasRemainingTokensException (detail : string)
  | UserAlreadyDeletedException.

(** Fetch a single active user by id. *)
Definition get_user_by_id (user_id : Z) (t : list User.t) : result (option User.t) :=
  UserRepo.get_user_by_id user_id t.

(** Soft-delete (is_active=False) after confirming credentials, and
    revoke all sessions of the user.  [user] is the authenticated user as
    the request loaded it; [password_verifies] is what
    [verify_password(confirm_password, user.hashed_password)] answers, which
    is asked only when the user names agree. *)
Definition delete_user (password_verifies : bool) (user : User.t)
    (confirm_username : string) (confirm_delete_with_balance : bool) (d : DB)
  : answer Error string * DB :=
  if negb (String.eqb (User.username user) confirm_username) || negb password_verifies
  then (Raises DeleteUserConfirmationException, d)
  else if (0 <? User.tokens user) && negb confirm_delete_with_balance
  then (Raises (UserHasRemainingTokensException
                  ("User has " ++ Json.dec (User.tokens user) ++ " remaining tokens")%string), d)
  else
    let '(deleted, us) := UserRepo.delete_user (User.id user) (users d) in
    let d1 := set_users d us in
    if negb deleted then (Raises UserAlreadyDeletedException, d1)
    else
      let '(_, ss) := ARepo.revoke_all_session_by_user (User.id user) (auth_sessions d1) in
      (Returns "User deleted successfully", set_auth_sessions d1 ss).

Record UsersTokensResponse : Type := mkUsersTokens {
  data : list (string * Z); charged : bool; balance : Z }.

(** Return all users' active token balances.  Fetch first; if no rows,
    no charge; if rows exist, charge the metadata cost. *)
Definition get_all_users_tokens (user : User.t) (action : ActionType)
  : M DB UsersTokensResponse :=
  (d <- get ;;
   let all_users_tokens := UserRepo.get_all_users_tokens (users d) in
   match all_users_tokens with
   | [] => ret (mkUsersTokens [] false (User.tokens user))
   | _ :: _ =>
       balance <- on_users (UserRepo.update_tokens (User.id user) (cost action)) ;;
       ret (mkUsersTokens all_users_tokens true balance)
   end)%M.
End UserService.

(** ** app.services.auth_service *)

Module AuthService.
Module ARepo := AuthRepository.

(** [timedelta] in microseconds *)
Definition minutes (n : Z) : Z := n * 60 * 1000000.
Definition hours (n : Z) : Z := minutes (60 * n).

(** What one turn of the generation loop takes from the system:
    [generate_id()] for the token, the clock for the soft expiry, and, for
    a login, [generate_id()] for the session id and the clock for the
    absolute expiry. *)
Record Draw : Type := mkDraw {
  raw_refresh : string; now_expiry : Z; new_session_id : string; now_absolute : Z }.

Fixpoint generate_loop (turns : nat) (i : nat) (draws : nat -> Draw)
    (user_id : Z) (ip_address user_agent : string)
    (session_id : option string) (rotate : bool) (last_token_hash : option string)
    : M DB string :=
  match turns with
  | O => raise TokenGenerationException
  | S turns' =>
      let d := draws i in
      let hashed_refresh := SecurityUtils.hash_token (raw_refresh d) in
      let expiry := now_expiry d + hours 1 in
      try_except
        ((if rotate
          then on_auth_sessions
                 (ARepo.rotate_refresh_token session_id hashed_refresh last_token_hash expiry)
          else on_auth_sessions
                 (ARepo.insert_new_refresh_token (new_session_id d) user_id hashed_refresh
                    expiry (now_absolute d + hours 24) ip_address user_agent)) ;;;
         ret (raw_refresh d))%M
        (fun e => match e with
                  | IntegrityError =>
                      generate_loop turns' (S i) draws user_id ip_address user_agent
                                    session_id rotate last_token_hash
                  | _ => raise e
                  end)
  end.

Definition _try_generate_unique_refresh_token_with_retries
    (draws : nat -> Draw) (user_id : Z) (ip_address user_agent : string)
    (session_id : option string) (rotate : bool) (last_token_hash : option string)
    : M DB string :=
  generate_loop config.MAX_TOKEN_GENERATION_RETRIES 0 draws user_id ip_address user_agent
                session_id rotate last_token_hash.

(** the claims of the JWT and its expiry in whole seconds *)
Record AccessToken : Type := mkAccess { sub : string; uid : Z; exp : Z; iat : Z }.

Definition _create_access_token (now_exp now_iat : Z) (username : string) (user_id : Z)
  : AccessToken * Z :=
  let exp := now_exp + minutes config.TOKEN_EXPIRY_TIME in
  (mkAccess username user_id exp now_iat, exp / 1000000).

Record RefreshResponse : Type := mkRefresh {
  access_token : AccessToken; refresh_token : string; expires_at : Z }.

(** The readings of [datetime.now(timezone.utc)] a rotation request
    takes, in program order. *)
Record Clock : Type := mkClock {
  now_soft : Z; now_hard : Z; now_exp : Z; now_iat : Z }.

Definition rotate_refresh_token (clock : Clock) (draws : nat -> Draw) (refresh_token : string)
  : M DB RefreshResponse :=
  (let last_refresh_token := SecurityUtils.hash_token refresh_token in
   d <- get ;;
   match ARepo.get_refresh_token last_refresh_token (auth_sessions d) with
   | None => raise InvalidTokenException
   | Some row =>
       (* row.user: the user the foreign key points to *)
       match Sql.first (Sql.select (fun u => User.id u =? AuthSession.user_id row)
                                   (fun u => u) (users d)) with
       | None => raise InvalidTokenException
       | Some row_user =>
           if negb (User.is_active row_user) then raise InvalidTokenException
           else if AuthSession.revoked row then raise ReusedTokenException
           else if AuthSession.expires_at row <? now_soft clock then
             raise ExpiredTokenException
           else if AuthSession.absolute_expires_at row <? now_hard clock then
             on_auth_sessions (ARepo.revoke_by_session (AuthSession.session_id row)) ;;;
             raise ExpiredTokenException
           else if match AuthSession.last_token_hash row with
                   | Some h => String.eqb h last_refresh_token
                   | None => false
                   end then
             on_auth_sessions (ARepo.revoke_by_session (AuthSession.session_id row)) ;;;
             raise ReusedTokenException
           else
             refresh_token' <-
               _try_generate_unique_refresh_token_with_retries
                 draws (User.id row_user) (AuthSession.ip_address row)
                 (AuthSession.user_agent row) (Some (AuthSession.session_id row))
                 true (Some last_refresh_token) ;;
             let '(access_token, expires_at) :=
               _create_access_token (now_exp clock) (now_iat clock)
                                    (User.username row_user) (User.id row_user) in
             ret (mkRefresh access_token refresh_token' expires_at)
       end
   end)%M.

(** [revoke_refresh_token]: the logout.  The session is looked up by the
    current hash of the presented token; [user] is the authenticated caller
    and takes no part in the lookup. *)
Definition revoke_refresh_token (user : User.t) (refresh_token : string) : M DB string :=
  (let hashed := SecurityUtils.hash_token refresh_token in
   d <- get ;;
   match ARepo.get_refresh_token hashed (auth_sessions d) with
   | Some row =>
       on_auth_sessions (ARepo.revoke_by_session (AuthSession.session_id row)) ;;;
       ret "Logout successful."
   | None => ret "Logout successful."
   end)%M.

(** What [jwt.decode(token, SECRET_KEY, algorithms=[ALGORITHM])] does with
    the presented access token: it returns the payload of a token this
    server signed, of which the claim [uid] is read, or it raises. *)
Inductive jwt_decode : Type :=
  | Payload (uid : option Z)
  | ExpiredSignatureError
  | JWTError.

Definition validate_user_check (decoded : jwt_decode) : M DB User.t :=
  match decoded with
  | ExpiredSignatureError => raise ExpiredTokenException
  | JWTError => raise InvalidTokenException
  | Payload None => raise InvalidTokenException
  | Payload (Some uid) =>
      if uid =? 0 then raise InvalidTokenException
      else
        (d <- get ;;
         user <- of_result (UserService.get_user_by_id uid (users d)) ;;
         match user with
         | None => raise InvalidTokenException
         | Some user => ret user
         end)%M
  end.
End AuthService.

(** ** app.repositories.train_model_repository *)

Module TrainModelRepository.
Import TrainedModel.

Definition owned (uid : Z) (fp : string) (r : TrainedModel.t) : bool :=
  (user_id r =? uid) && String.eqb (fingerprint r) fp.

(** Try to create a 'pending' row for (user_id, fingerprint) exactly
    once: the id if inserted now, None if a row already exists (any
    status).  [metrics] takes its column default, the empty dict. *)
Definition try_insert_pending
    (uid : Z) (model_type : string) (features : list string) (model_params : json)
    (label : string) (feature_schema : json) (fp model_path : string)
    (t : list TrainedModel.t) : result (option Z) * list TrainedModel.t :=
  if existsb (owned uid fp) t then (Ok None, t)
  else
    let new_id := Sql.next_id (map id t) in
    (Ok (Some new_id),
     t ++ [mk new_id uid model_type features model_params label (JDict [])
              feature_schema fp model_path pending]).

Definition get_by_user_fingerprint (uid : Z) (fp : string) (t : list TrainedModel.t)
  : result (option TrainedModel.t) :=
  Sql.scalar_one_or_none (Sql.select (owned uid fp) (fun r => r) t).

(** Atomically flip a failed row back to pending so the caller can reuse
    the same id.  The id if flipped; None if there is no failed row to
    flip.  [metrics=None] on the JSON column stores the JSON null. *)
Definition restart_existing_row (uid : Z) (fp : string) (t : list TrainedModel.t)
  : result (option Z) * list TrainedModel.t :=
  let c r := owned uid fp r && RowStatus_eqb (status r) failed in
  let f r := with_status_metrics r pending JNull in
  (Sql.scalar_one_or_none (Sql.returning c f id t), Sql.update c f t).

(** Mark any row as failed (idempotent).  True if a row was updated. *)
Definition mark_failed (trained_model_id : Z) (t : list TrainedModel.t)
  : bool * list TrainedModel.t :=
  let c r := id r =? trained_model_id in
  (0 <? Sql.rowcount c t, Sql.update c (fun r => with_status r failed) t).

(** Transition pending -> applied and return the row; None if the row
    was not pending. *)
Definition mark_applied (trained_model_id : Z) (m : json) (t : list TrainedModel.t)
  : result (option TrainedModel.t) * list TrainedModel.t :=
  let c r := (id r =? trained_model_id) && RowStatus_eqb (status r) pending in
  let f r := with_status_metrics r applied m in
  let t' := Sql.update c f t in
  match Sql.scalar_one_or_none (Sql.returning c f id t) with
  | Raise e => (Raise e, t')
  | Ok None => (Ok None, t')
  | Ok (Some updated_id) =>
      (Ok (Sql.first (Sql.select (fun r => id r =? updated_id) (fun r => r) t')), t')
  end.
End TrainModelRepository.

(** ** app.repositories.prediction_repository *)

Module PredictionRepository.
Import Prediction.

Definition owned (uid : Z) (fp : string) (r : Prediction.t) : bool :=
  (user_id r =? uid) && String.eqb (fingerprint r) fp.

(** The user's TrainedModel row only if it is in 'applied' status. *)
Definition get_model_for_user_applied (uid mid : Z) (t : list TrainedModel.t)
  : result (option TrainedModel.t) :=
  Sql.scalar_one_or_none
    (Sql.select (fun r => (TrainedModel.id r =? mid) && (TrainedModel.user_id r =? uid)
                          && RowStatus_eqb (TrainedModel.status r) applied)
                (fun r => r) t).

Definition try_insert_pending
    (uid mid : Z) (model_type : string) (input_data : json) (fp : string)
    (t : list Prediction.t) : result (option Z) * list Prediction.t :=
  if existsb (owned uid fp) t then (Ok None, t)
  else
    let new_id := Sql.next_id (map id t) in
    (Ok (Some new_id), t ++ [mk new_id uid mid model_type input_data EmptyString fp pending]).

Definition get_by_user_fingerprint (uid : Z) (fp : string) (t : list Prediction.t)
  : result (option Prediction.t) :=
  Sql.scalar_one_or_none (Sql.select (owned uid fp) (fun r => r) t).

(** [.values(status=RowStatus.pending)]: the status alone is set *)
Definition restart_existing_row (uid : Z) (fp : string) (t : list Prediction.t)
  : result (option Z) * list Prediction.t :=
  let c r := owned uid fp r && RowStatus_eqb (status r) failed in
  let f r := with_status r pending in
  (Sql.scalar_one_or_none (Sql.returning c f id t), Sql.update c f t).

Definition mark_applied (pred_id : Z) (res : string) (t : list Prediction.t)
  : result (option Prediction.t) * list Prediction.t :=
  let c r := (id r =? pred_id) && RowStatus_eqb (status r) pending in
  let f r := with_status_result r applied res in
  let t' := Sql.update c f t in
  match Sql.scalar_one_or_none (Sql.returning c f id t) with
  | Raise e => (Raise e, t')
  | Ok None => (Ok None, t')
  | Ok (Some new_id) =>
      (Ok (Sql.first (Sql.select (fun r => id r =? new_id) (fun r => r) t')), t')
  end.

Definition mark_failed (pred_id : Z) (t : list Prediction.t)
  : result unit * list Prediction.t :=
  (Ok tt, Sql.update (fun r => id r =? pred_id) (fun r => with_status r failed) t).
End PredictionRepository.

(** ** app.utils.files *)

Module Files.

(** [os.path.join(dirpath, str(user.id), f"{fp}.pkl")] with the default
    [dirpath = "saved_models"] *)
Definition unique_model_path (user : User.t) (fp : string) : string :=
  ("saved_models/" ++ Json.dec (User.id user) ++ "/" ++ fp ++ ".pkl")%string.

Definition temp_path_for (final_path : string) : string := (final_path ++ ".tmp")%string.

Definition move_temp_to_final (tmp_path final_path : string) (o : Os.t)
  : result unit * Os.t :=
  match Os.replace tmp_path final_path o with
  | (Ok tt, o') => (Ok tt, o')
  | (Raise _, o') => (Raise ArtifactWriteException, o')
  end.

(** [if not path: return]; a missing file is no error *)
Definition safe_unlink (path : option string) (o : Os.t) : Os.t :=
  match path with
  | None => o
  | Some EmptyString => o
  | Some p => snd (Os.remove p o)
  end.
End Files.

(** ** What a request handler works on *)

(** [compute_runs] counts the launches of the training worker and of the
    prediction thread; it is no part of the program's state and only lets
    the statements below speak of compute being run. *)
Record World : Type := mkWorld { database : DB; os : Os.t; compute_runs : nat }.

Definition on_db {A} (m : M DB A) : M World A :=
  fun w => let '(r, d) := m (database w) in (r, mkWorld d (os w) (compute_runs w)).
Definition on_os {A} (f : Os.t -> result A * Os.t) : M World A :=
  fun w => let '(r, o) := f (os w) in (r, mkWorld (database w) o (compute_runs w)).
Definition launch_compute : M World unit :=
  modify (fun w => mkWorld (database w) (os w) (S (compute_runs w))).

(** ** app.services.train_model_service *)

Module TrainModelService.
Module TMRepo := TrainModelRepository.
Module URepo := UserRepository.

(** What [run_training_subprocess] does, as seen by the parent: it is
    cancelled, or the worker exits with a return code, its standard output
    (here already through [json.loads(out or "{}")], None when malformed)
    and standard error; in both cases the worker may have written the temp
    artifact. *)
Inductive worker_outcome : Type :=
  | WorkerCancelled (wrote : option (list Byte.byte))
  | WorkerExit (rc : Z) (stdout_json : option json) (stderr : string)
               (wrote : option (list Byte.byte)).

Definition wrote_of (w : worker_outcome) : option (list Byte.byte) :=
  match w with
  | WorkerCancelled wrote => wrote
  | WorkerExit _ _ _ wrote => wrote
  end.

Record TrainResponse : Type := mkResponse {
  data : TrainedModel.t; charged : bool; balance : Z }.

Definition _fail_and_cleanup (row_id : Z) (tmp_path final_path : option string)
  : M World unit :=
  ((* with suppress(SQLAlchemyError) *)
   on_db (on_trained_models (fun t => (Ok tt, snd (TMRepo.mark_failed row_id t)))) ;;;
   on_os (fun o => (Ok tt, Files.safe_unlink tmp_path o)) ;;;
   on_os (fun o => (Ok tt, Files.safe_unlink final_path o)))%M.

(** from the launch of the worker to the response *)
Definition run_and_publish (worker : worker_outcome) (user : User.t) (action : ActionType)
    (row_id : Z) (tmp_path final_path : string) : M World TrainResponse :=
  (launch_compute ;;;
   on_os (fun o => (Ok tt, match wrote_of worker with
                           | Some content => Os.write tmp_path content o
                           | None => o
                           end)) ;;;
   match worker with
   | WorkerCancelled _ =>
       _fail_and_cleanup row_id (Some tmp_path) None ;;; raise CancelledError
   | WorkerExit rc stdout_json _ _ =>
       if negb (rc =? 0) then
         _fail_and_cleanup row_id (Some tmp_path) None ;;; raise TrainingFailedException
       else
         match stdout_json with
         | None =>
             _fail_and_cleanup row_id (Some tmp_path) None ;;;
             raise TrainingFailedException
         | Some metrics =>
             charged_applied <-
               try_except
                 (balance <- on_db (on_users (URepo.update_tokens (User.id user) (cost action))) ;;
                  applied <- on_db (on_trained_models (TMRepo.mark_applied row_id metrics)) ;;
                  match applied with
                  | None => raise TrainingFailedException
                  | Some applied_row => ret (balance, applied_row)
                  end)
                 (fun e => _fail_and_cleanup row_id (Some tmp_path) None ;;; raise e) ;;
             try_except
               (on_os (Files.move_temp_to_final tmp_path final_path))
               (fun e =>
                  _fail_and_cleanup row_id (Some tmp_path) (Some final_path) ;;; raise e) ;;;
             ret (mkResponse (snd charged_applied) true (fst charged_applied))
         end
   end)%M.

(** [train_model] from the point where the validators have accepted the
    upload: [mt_c], [feats_c], [label_c], [params_n] are their results,
    [params_fp] is [normalize_meta_for_fingerprint(mt_c, params_c, params_n)]
    and [feature_schema] the column kinds read off the data frame. *)
Definition train_model (worker : worker_outcome) (user : User.t) (file : string)
    (mt_c : string) (feats_c : list string) (label_c : string)
    (params_n params_fp feature_schema : json)
    (action : ActionType) : M World TrainResponse :=
  (w <- get ;;
   fp <- of_result (FingerprintHashing.compute_training_fingerprint
                      file (Json.sorted_strs feats_c) label_c mt_c params_fp
                      "requirements.txt" (os w)) ;;
   let final_path := Files.unique_model_path user fp in
   let tmp_path := Files.temp_path_for final_path in
   row_id <- on_db (on_trained_models
                      (TMRepo.try_insert_pending (User.id user) mt_c feats_c params_n label_c
                                                 feature_schema fp final_path)) ;;
   match row_id with
   | Some row_id => run_and_publish worker user action row_id tmp_path final_path
   | None =>
       w <- get ;;
       existing <- of_result (TMRepo.get_by_user_fingerprint
                                (User.id user) fp (trained_models (database w))) ;;
       match existing with
       | None => raise TrainModelInProgressException
       | Some existing =>
           match TrainedModel.status existing with
           | pending => raise TrainModelInProgressException
           | applied =>
               fresh_balance <- of_result (URepo.get_tokens_by_id (User.id user)
                                                                  (users (database w))) ;;
               ret (mkResponse existing false fresh_balance)
           | failed =>
               row_id <- on_db (on_trained_models
                                  (TMRepo.restart_existing_row (User.id user) fp)) ;;
               match row_id with
               | None => raise TrainModelInProgressException
               | Some row_id => run_and_publish worker user action row_id tmp_path final_path
               end
           end
       end
   end)%M.
End TrainModelService.

(** ** app.services.prediction_service *)

Module PredictionService.
Module PRepo := PredictionRepository.
Module URepo := UserRepository.

Record PredictionRequest : Type := mkRequest {
  model_id : Z; feature_values : list (string * json) }.

(** [joblib.load] on a file that exists *)
Inductive load_outcome : Type := Loaded | LoadOSError | LoadError.

(** the prediction thread under its timeout *)
Inductive predict_outcome : Type :=
  | Predicted (y : string) | PredictTimeout | PredictError | PredictCancelled.

Record PredictResponse : Type := mkResponse {
  data : Prediction.t; charged : bool; balance : Z }.

(** keys must match exactly: [set(provided_keys) != set(expected)] *)
Definition _ensure_feature_keys_match (expected : list string)
    (provided : list (string * json)) : bool :=
  forallb (fun k => existsb (String.eqb k) expected) (map fst provided)
  && forallb (fun k => existsb (String.eqb k) (map fst provided)) expected.

Definition _load_model_row_for_user (load : load_outcome) (uid mid : Z)
  : M World TrainedModel.t :=
  (w <- get ;;
   row <- of_result (PRepo.get_model_for_user_applied uid mid (trained_models (database w))) ;;
   match row with
   | None => raise ModelNotFoundException
   | Some row =>
       if negb (Os.path_exists (TrainedModel.model_path row) (os w))
       then raise ArtifactMissingException
       else match load with
            | Loaded => ret row
            | LoadOSError => raise ArtifactMissingException
            | LoadError => raise PredictionFailedException
            end
   end)%M.

Definition _fail_prediction_safely (row_id : Z) : M World unit :=
  on_db (on_predictions (PRepo.mark_failed row_id)).

Definition run_and_apply (run : predict_outcome) (user : User.t) (action : ActionType)
    (tm_row : TrainedModel.t) (request : PredictionRequest) (row_id : Z)
  : M World PredictResponse :=
  (result_str <-
     (if negb (_ensure_feature_keys_match (TrainedModel.features tm_row)
                                          (feature_values request))
      then _fail_prediction_safely row_id ;;; raise PredictionFailedException
      else
        launch_compute ;;;
        match run with
        | Predicted y => ret y
        | PredictCancelled => _fail_prediction_safely row_id ;;; raise CancelledError
        | PredictTimeout | PredictError =>
            _fail_prediction_safely row_id ;;; raise PredictionFailedException
        end) ;;
   charged_applied <-
     try_except
       (balance <- on_db (on_users (URepo.update_tokens (User.id user) (cost action))) ;;
        applied <- on_db (on_predictions (PRepo.mark_applied row_id result_str)) ;;
        match applied with
        | None => raise PredictionFailedException
        | Some applied_row => ret (balance, applied_row)
        end)
       (fun e => match e with
                 | CancelledError | PredictionFailedException =>
                     _fail_prediction_safely row_id ;;; raise e
                 | _ => raise e
                 end) ;;
   ret (mkResponse (snd charged_applied) true (fst charged_applied)))%M.

Definition predict (load : load_outcome) (run : predict_outcome) (user : User.t)
    (request : PredictionRequest) (action : ActionType) : M World PredictResponse :=
  (tm_row <- _load_model_row_for_user load (User.id user) (model_id request) ;;
   let fp := FingerprintHashing.compute_prediction_fingerprint
               (TrainedModel.id tm_row) (feature_values request) in
   row_id <- on_db (on_predictions
                      (PRepo.try_insert_pending (User.id user) (TrainedModel.id tm_row)
                         (TrainedModel.model_type tm_row)
                         (JDict (feature_values request)) fp)) ;;
   match row_id with
   | Some row_id => run_and_apply run user action tm_row request row_id
   | None =>
       w <- get ;;
       existing <- of_result (PRepo.get_by_user_fingerprint
                                (User.id user) fp (predictions (database w))) ;;
       match existing with
       | None => raise PredictionInProgressException
       | Some existing =>
           match Prediction.status existing with
           | pending => raise PredictionInProgressException
           | applied =>
               fresh_balance <- of_result (URepo.get_tokens_by_id (User.id user)
                                                                  (users (database w))) ;;
               ret (mkResponse existing false fresh_balance)
           | failed =>
               row_id <- on_db (on_predictions (PRepo.restart_existing_row (User.id user) fp)) ;;
               match row_id with
               | None => raise PredictionInProgressException
               | Some row_id => run_and_apply run user action tm_row request row_id
               end
           end
       end
   end)%M.
End PredictionService.

(** ** The SQLAlchemy session and its transaction (app.database) *)

Module Session.
(** [committed]: the database as committed; [transaction]: the view of
    the transaction in progress, None when the session is in none. *)
Record t : Type := mk { committed : DB; transaction : option DB }.

(** [SessionLocal()] *)
Definition open (d : DB) : t := mk d None.

Definition view (s : t) : DB :=
  match transaction s with
  | Some d => d
  | None => committed s
  end.

(** [await db.execute(stmt)]: the session begins a transaction on its
    own if it is in none (autobegin), and the statement runs in it. *)
Definition execute {A} (stmt : M DB A) : M t A :=
  fun s => let '(r, d) := stmt (view s) in (r, mk (committed s) (Some d)).

(** [async with db.begin(): body].  [begin()] raises when a transaction
    is already begun on the session; otherwise the block commits on
    leaving and rolls back on an exception. *)
Definition begin_block {A} (body : M t A) : M t A :=
  fun s =>
    match transaction s with
    | Some _ => (Raise InvalidRequestError, s)
    | None =>
        match body (mk (committed s) (Some (committed s))) with
        | (Ok a, s') => (Ok a, mk (view s') None)
        | (Raise e, s') => (Raise e, mk (committed s') None)
        end
    end.

(** leaving [async with SessionLocal() as db]: the session is closed and
    what was not committed is rolled back *)
Definition close (s : t) : DB := committed s.
End Session.

(** ** app.maintenance._helpers and app.maintenance.reconciler *)

Module Reconciler.
Module TMRepo := TrainModelRepository.

Record St : Type := mkSt { session : Session.t; disk : Os.t }.

Definition on_session {A} (m : M Session.t A) : M St A :=
  fun st => let '(r, s) := m (session st) in (r, mkSt s (disk st)).
Definition on_disk {A} (f : Os.t -> result A * Os.t) : M St A :=
  fun st => let '(r, o) := f (disk st) in (r, mkSt (session st) o).

(** Best-effort: flip row to failed in its own short tx.
    [with suppress(Exception): async with db.begin(): mark_failed] *)
Definition mark_failed_safely (tm_id : Z) : M St unit :=
  try_except
    (on_session
       (Session.begin_block
          (Session.execute
             (on_trained_models (fun t => (Ok tt, snd (TMRepo.mark_failed tm_id t)))))))
    (fun _ => ret tt).

(** (final_path, tmp_path, final_exists, tmp_exists) *)
Definition _inspect_paths (final_path : option string) (o : Os.t)
  : option string * option string * bool * bool :=
  match final_path with
  | None => (None, None, false, false)
  | Some EmptyString => (None, None, false, false)
  | Some p =>
      let tmp_path := (p ++ ".tmp")%string in
      (Some p, Some tmp_path, Os.path_exists p o, Os.path_exists tmp_path o)
  end.

(** For rows already marked 'applied'. *)
Definition finish_publish_or_fail (tm_id : Z) (final_path : option string) : M St unit :=
  (st <- get ;;
   match _inspect_paths final_path (disk st) with
   | (None, _, _, _) => mark_failed_safely tm_id
   | (Some final_path, tmp_path, final_exists, tmp_exists) =>
       if final_exists : bool then ret tt
       else
         match tmp_exists, tmp_path with
         | true, Some tmp_path =>
             try_except
               (on_disk (Files.move_temp_to_final tmp_path final_path))
               (fun e =>
                  match e with
                  | ArtifactWriteException =>
                      mark_failed_safely tm_id ;;;
                      on_disk (fun o => (Ok tt, Files.safe_unlink (Some tmp_path) o)) ;;;
                      on_disk (fun o => (Ok tt, Files.safe_unlink (Some final_path) o))
                  | _ => raise e
                  end)
         | _, _ => mark_failed_safely tm_id
         end
   end)%M.

(** Flip any pending to failed and delete the leftover .tmp. *)
Definition fail_pending_and_clean_tmp (tm_id : Z) (final_path : option string) : M St unit :=
  (mark_failed_safely tm_id ;;;
   match final_path with
   | None => ret tt
   | Some EmptyString => ret tt
   | Some p => on_disk (fun o => (Ok tt, Files.safe_unlink (Some (p ++ ".tmp")%string) o))
   end)%M.

Fixpoint for_each {A} (f : A -> M St unit) (l : list A) : M St unit :=
  match l with
  | [] => ret tt
  | x :: r => (f x ;;; for_each f r)%M
  end.

Definition select_id_path (s : RowStatus) : M DB (list (Z * string)) :=
  fun d => (Ok (Sql.select (fun r => RowStatus_eqb (TrainedModel.status r) s)
                           (fun r => (TrainedModel.id r, TrainedModel.model_path r))
                           (trained_models d)), d).

Definition reconcile_trained_models_on_startup : M St unit :=
  (applied_rows <- on_session (Session.execute (select_id_path applied)) ;;
   for_each (fun row => finish_publish_or_fail (fst row) (Some (snd row))) applied_rows ;;;
   pendings <- on_session (Session.execute (select_id_path pending)) ;;
   for_each (fun row => fail_pending_and_clean_tmp (fst row) (Some (snd row))) pendings)%M.

Definition reconcile_predictions_on_startup : M St unit :=
  on_session
    (Session.execute
       (on_predictions
          (fun t => (Ok tt, Sql.update (fun r => RowStatus_eqb (Prediction.status r) pending)
                                       (fun r => Prediction.with_status r failed) t)))).

(** [app.main.on_startup]:
    [async with SessionLocal() as db: reconcile...(db); reconcile...(db)];
    the database and the disk the service then starts from. *)
Definition on_startup (d : DB) (o : Os.t) : result unit * DB * Os.t :=
  let '(r, st) :=
    (reconcile_trained_models_on_startup ;;; reconcile_predictions_on_startup)%M
      (mkSt (Session.open d) o) in
  (r, Session.close (session st), disk st).
End Reconciler.

(** ** Python [str] methods, [bool] and [repr], on code points below 256 *)

Module PyStr.

(** [s.strip()] *)
Definition strip (s : string) : string :=
  string_of_list_ascii
    (rev (FingerprintHashing.lstrip_list
            (rev (FingerprintHashing.lstrip_list (list_ascii_of_string s))))).

(** [c.lower()] *)
Definition lower_char (c : ascii) : ascii :=
  let n := N_of_ascii c in
  if (((65 <=? n) && (n <=? 90)) || ((192 <=? n) && (n <=? 222) && negb (n =? 215)))%N
  then ascii_of_N (n + 32)
  else c.

Fixpoint lower (s : string) : string :=
  match s with
  | EmptyString => EmptyString
  | String c r => String (lower_char c) (lower r)
  end.

(** [c.isprintable()] *)
Definition printable (c : ascii) : bool :=
  let n := N_of_ascii c in
  (((32 <=? n) && (n <=? 126)) || ((161 <=? n) && negb (n =? 173)))%N.

Definition squote : ascii := Eval compute in ascii_of_N 39.

Definition hex2 (n : N) (rest : string) : string :=
  String (Hashlib.hex_digit (Z.of_N n / 16)) (String (Hashlib.hex_digit (Z.of_N n)) rest).

Definition repr_char (q c : ascii) (rest : string) : string :=
  let n := N_of_ascii c in
  if (Ascii.eqb c q || (n =? 92)%N)%bool then String Json.backslash (String c rest)
  else if (n =? 9)%N then String Json.backslash (String "t"%char rest)
  else if (n =? 10)%N then String Json.backslash (String "n"%char rest)
  else if (n =? 13)%N then String Json.backslash (String "r"%char rest)
  else if printable c then String c rest
  else String Json.backslash (String "x"%char (hex2 n rest)).

Fixpoint member (c : ascii) (s : string) : bool :=
  match s with
  | EmptyString => false
  | String x r => Ascii.eqb x c || member c r
  end.

Fixpoint repr_chars (q : ascii) (s : string) (rest : string) : string :=
  match s with
  | EmptyString => rest
  | String c r => repr_char q c (repr_chars q r rest)
  end.

(** [repr(s)] of a [str]: single quotes, unless the string holds a
    single quote and no double quote *)
Definition repr_str (s : string) : string :=
  let q := if member squote s && negb (member Json.dquote s) then Json.dquote else squote in
  String q (repr_chars q s (String q EmptyString)).

(** [bool(v)] *)
Definition truthy (v : json) : bool :=
  match v with
  | JNull => false
  | JBool b => b
  | JInt n => negb (n =? 0)
  | JFloat r => negb (String.eqb r "0.0" || String.eqb r "-0.0")
  | JStr s => negb (String.eqb s EmptyString)
  | JList l => match l with [] => false | _ :: _ => true end
  | JDict d => match d with [] => false | _ :: _ => true end
  end.

(** [repr(v)] *)
Fixpoint repr (v : json) : string :=
  match v with
  | JNull => "None"
  | JBool true => "True"
  | JBool false => "False"
  | JInt n => Json.dec n
  | JFloat r => r
  | JStr s => repr_str s
  | JList l => ("[" ++ Json.join ", " (map repr l) ++ "]")%string
  | JDict items =>
      ("{" ++ Json.join ", " (map (fun kv => let '(k, x) := kv in
                                             (repr_str k ++ ": " ++ repr x)%string) items)
           ++ "}")%string
  end.

(** [str(v)] *)
Definition str (v : json) : string :=
  match v with
  | JStr s => s
  | _ => repr v
  end.

End PyStr.

(** ** app.utils.validators *)

Module Validators.

Inductive Error : Type :=
  | MissingDataException (detail : string)
  | InvalidFeatureException (detail : string)
  | InvalidLabelException (detail : string)
  | UnsupportedModelTypeException (detail : string).

(** [list(dict.fromkeys(l))]: each string once, where it came first *)
Definition fromkeys (l : list string) : list string :=
  fold_left (fun out k => if existsb (String.eqb k) out then out else out ++ [k]) l [].

(** Strip whitespace, drop empties, and de-duplicate while preserving
    order. *)
Definition normalize_features (features : list string) : list string :=
  let normalize :=
    filter (fun s => negb (String.eqb s EmptyString)) (map PyStr.strip features) in
  fromkeys normalize.

(** [d[k] = v] on a dict: a key that is there keeps its place *)
Fixpoint setitem {A} (k : string) (v : A) (d : list (string * A)) : list (string * A) :=
  match d with
  | [] => [(k, v)]
  | (k', v') :: r => if String.eqb k' k then (k', v) :: r else (k', v') :: setitem k v r
  end.

Fixpoint normalize_items (items out : list (string * json))
  : answer Error (list (string * json)) :=
  match items with
  | [] => Returns out
  | (k, v) :: r =>
      let key := PyStr.strip k in
      if String.eqb key EmptyString
      then Raises (MissingDataException "Empty hyperparameter name is not allowed")
      else normalize_items r (setitem key v out)
  end.

(** None -> {}; trim keys; forbid empty keys.  Values kept as-is. *)
Definition normalize_params (params : option (list (string * json)))
  : answer Error (list (string * json)) :=
  match params with
  | None => Returns []
  | Some items => normalize_items items []
  end.

(** [params.get(key, default)] *)
Definition dict_get (key : string) (default : json) (d : list (string * json)) : json :=
  match find (fun kv => String.eqb (fst kv) key) d with
  | Some kv => snd kv
  | None => default
  end.

Definition normalize_meta_for_fingerprint (model_type : string)
    (params_norm params_n : list (string * json)) : list (string * json) :=
  let out := params_norm in
  if String.eqb model_type "linear" then
    setitem "kind"
            (JStr (PyStr.lower (PyStr.strip (PyStr.str (dict_get "kind" (JStr "ols") params_n)))))
            out
  else if String.eqb model_type "random_forest" then
    setitem "task"
            (JStr (PyStr.lower (PyStr.strip (PyStr.str (dict_get "task" (JStr "auto") params_n)))))
            out
  else out.

(** the keys of [MODEL_FACTORY] *)
Definition MODEL_FACTORY : list string := ["linear"; "logistic"; "random_forest"].

Definition ensure_model_type_valid (model_type : string) : answer Error string :=
  let mt := PyStr.lower (PyStr.strip model_type) in
  if String.eqb mt EmptyString
  then Raises (MissingDataException "model_type must be provided.")
  else if negb (existsb (String.eqb mt) MODEL_FACTORY)
  then Raises (UnsupportedModelTypeException ("Unsupported model_type: " ++ mt)%string)
  else Returns mt.

(** [columns] is [df.columns], the header of the uploaded CSV. *)
Definition ensure_label_valid (columns : list string) (label : string) : answer Error string :=
  let lab := PyStr.strip label in
  if String.eqb lab EmptyString
  then Raises (MissingDataException "You must select Label")
  else if negb (existsb (String.eqb lab) columns)
  then Raises (InvalidLabelException ("Label column '" ++ lab ++ "' not found in dataset")%string)
  else Returns lab.

(** Normalize and validate feature names against the dataframe columns:
    require at least one feature, forbid the label from appearing in
    features, ensure every feature exists in [df.columns]. *)
Definition ensure_features_valid (columns features : list string) (label : string)
  : answer Error (list string) :=
  let cleaned := normalize_features features in
  match cleaned with
  | [] => Raises (MissingDataException "You must select at least one feature")
  | _ :: _ =>
      let label_clean := PyStr.strip label in
      if existsb (String.eqb label_clean) cleaned
      then Raises (InvalidFeatureException "Label must not appear in the feature list")
      else
        match filter (fun f => negb (existsb (String.eqb f) columns)) cleaned with
        | [] => Returns cleaned
        | [m] => Raises (InvalidFeatureException ("Feature '" ++ m ++ "' not found in dataset")%string)
        | missing =>
            Raises (InvalidFeatureException
                      ("Features not found in dataset: " ++ Json.join ", " missing)%string)
        end
  end.

End Validators.

(** ** The regular expressions of the request models

    [re.match] of a pattern [^...$] whose body excludes the line feed. *)

Module Re.

Definition is_line_feed (c : ascii) : bool := (N_of_ascii c =? 10)%N.

(** [\d]: the characters that [re.sub] with the pattern [\D] keeps *)
Definition is_digit (c : ascii) : bool :=
  let n := N_of_ascii c in ((48 <=? n) && (n <=? 57))%N.

(** [[A-Za-z]] *)
Definition is_letter (c : ascii) : bool :=
  let n := N_of_ascii c in (((65 <=? n) && (n <=? 90)) || ((97 <=? n) && (n <=? 122)))%N.


(** [$] matches at the end of the string and before a line feed that
    ends it: the text up to that point *)
Definition before_end (l : list ascii) : list ascii :=
  match rev l with
  | c :: r => if is_line_feed c then rev r else l
  | [] => l
  end.

(** [^[class]{lo,hi}$] *)
Definition match_class (cls : ascii -> bool) (lo hi : nat) (l : list ascii) : bool :=
  let body := before_end l in
  (forallb cls body && (lo <=? length body)%nat && (length body <=? hi)%nat)%bool.


End Re.

(** ** app.models.pydantic_models.user and app.utils.password_hashing *)

Module RegisterUserRequest.

Inductive Error : Type :=
  | UsernameFormatException
  | PasswordFormatException
  | AttributeError.

(** [[a-zA-Z0-9_-]] *)
Definition username_class (c : ascii) : bool :=
  let n := N_of_ascii c in
  (Re.is_letter c || Re.is_digit c || (n =? 95)%N || (n =? 45)%N)%bool.


(** [re.match(USERNAME_REGEX, value)] *)
Definition username_matches (value : string) : bool :=
  Re.match_class username_class 3 20 (list_ascii_of_string value).


(** The validator runs before the field is checked to be a string:
    [(value or empty).strip().lower()] on the raw JSON value. *)
Definition _normalize_and_validate_username (value : json) : answer Error string :=
  let validate s :=
    let value := PyStr.lower (PyStr.strip s) in
    if negb (username_matches value) then Raises UsernameFormatException else Returns value in
  match value with
  | JStr s => validate s
  | _ => if PyStr.truthy value then Raises AttributeError else validate EmptyString
  end.


End RegisterUserRequest.

Module PasswordHashing.


End PasswordHashing.

(** ** app.models.pydantic_models.token_credit *)

Module BuyTokensRequest.

Inductive Error : Type :=
  | InvalidCreditCardException
  | BuyTokensException.




(** [amount: int]; None stands for a missing value *)
Definition _validate_amount (value : option Z) : answer Error Z :=
  match value with
  | None => Raises BuyTokensException
  | Some value =>
      if ((value <=? 0) || (config.MAX_TOKENS_PER_PURCHASE <? value))%bool
      then Raises BuyTokensException
      else Returns value
  end.

End BuyTokensRequest.

(** ** app.utils.rate_limit, over the Redis list of one rate-limit key

    Time is counted in milliseconds; the clock of the Redis server is the
    clock of the process, and the commands of one request run at the
    instant of the request. *)

Module Redis.

(** a list key: its elements, head first, and the instant it expires *)
Record key : Type := mkKey { elements : list Z; expires : option Z }.

(** None: there is no such key *)
Definition t : Type := option key.

(** the key as a command that runs at instant [now] finds it *)
Definition live (now : Z) (s : t) : t :=
  match s with
  | Some k =>
      match expires k with
      | Some e => if e <=? now then None else Some k
      | None => Some k
      end
  | None => None
  end.

(** [LRANGE key 0 -1] *)
Definition lrange_all (now : Z) (s : t) : list Z :=
  match live now s with
  | Some k => elements k
  | None => []
  end.

(** [LPUSH key x] *)
Definition lpush (now : Z) (x : Z) (s : t) : t :=
  match live now s with
  | Some k => Some (mkKey (x :: elements k) (expires k))
  | None => Some (mkKey [x] None)
  end.

(** [LTRIM key 0 stop]: a negative [stop] counts from the end; a key
    left with no element is removed *)
Definition ltrim (now : Z) (stop : Z) (s : t) : t :=
  match live now s with
  | Some k =>
      let stop := if stop <? 0 then Z.of_nat (length (elements k)) + stop else stop in
      match firstn (Z.to_nat (stop + 1)) (elements k) with
      | [] => None
      | kept => Some (mkKey kept (expires k))
      end
  | None => None
  end.

(** [EXPIRE key seconds]: a timeout that is not positive removes the key *)
Definition expire (now : Z) (seconds : Z) (s : t) : t :=
  match live now s with
  | Some k =>
      if seconds <=? 0 then None
      else Some (mkKey (elements k) (Some (now + 1000 * seconds)))
  | None => None
  end.

End Redis.

Module RateLimit.

Inductive Outcome : Type :=
  | Passed
  | RateLimitException (retry_after : Z)
  | IndexError.

(** [check_rate_limit(key, redis, max_requests, window)] for a request
    at instant [at_ms]; [LPUSH] stores [str(now)], which [int(ts)] reads
    back. *)
Definition check_rate_limit (at_ms : Z) (max_requests window : Z) (redis : Redis.t)
  : Outcome * Redis.t :=
  let now := Z.quot at_ms 1000 in
  let timestamps := Redis.lrange_all at_ms redis in
  let pushed :=
    Redis.expire at_ms window
      (Redis.ltrim at_ms (max_requests - 1) (Redis.lpush at_ms now redis)) in
  if Z.of_nat (length timestamps) <? max_requests then (Passed, pushed)
  else
    match rev timestamps with
    | [] => (IndexError, redis)
    | oldest :: _ =>
        let elapsed := now - oldest in
        if elapsed <? window then (RateLimitException (window - elapsed), redis)
        else (Passed, pushed)
    end.

End RateLimit.

(** ** app.maintenance.health *)

Module Health.

(** [db_guard]: [pings] are the answers of [db_ping_once], one per turn
    of the loop.  The result is the number of the turn at which the process
    sends itself SIGTERM and the guard returns, None while it is still
    looping after the last of [pings]. *)
Fixpoint db_guard_from (failure_threshold : Z) (failures : Z) (pings : list bool)
  : option nat :=
  match pings with
  | [] => None
  | ok :: rest =>
      if ok : bool then option_map S (db_guard_from failure_threshold 0 rest)
      else
        let failures := failures + 1 in
        if failure_threshold <=? failures then Some 1%nat
        else option_map S (db_guard_from failure_threshold failures rest)
  end.

Definition db_guard (failure_threshold : Z) (pings : list bool) : option nat :=
  db_guard_from failure_threshold 0 pings.

End Health.

(** ** app.repositories.user_usage_repository *)

Module UserUsageRepository.

(** [TrainedModel.user.has(is_active=True)] *)
Definition owner_is_active (us : list User.t) (r : TrainedModel.t) : bool :=
  existsb (fun u => (User.id u =? TrainedModel.user_id r) && User.is_active u) us.

Fixpoint count_in (k : string) (groups : list (string * Z)) : list (string * Z) :=
  match groups with
  | [] => [(k, 1)]
  | (k', n) :: r => if String.eqb k' k then (k', n + 1) :: r else (k', n) :: count_in k r
  end.

(** [SELECT k, count(id) ... GROUP BY k]; the groups come in the order
    in which their first rows do (SQL leaves the order open) *)
Definition group_count (keys : list string) : list (string * Z) :=
  fold_left (fun groups k => count_in k groups) keys [].

Definition model_type_counts (d : DB) : list (string * Z) :=
  group_count (map TrainedModel.model_type
                   (filter (owner_is_active (users d)) (trained_models d))).

(** [{model_type, count}] per model type *)
Definition get_model_type_distribution (d : DB) : list (string * Z) :=
  model_type_counts d.

Definition regression_types : list string :=
  ["linear"; "ridge"; "lasso"; "random_forest"; "svr"].

(** [{problem_type, count}] for Regression and Classification *)
Definition get_regression_vs_classification_split (d : DB) : list (string * Z) :=
  let split :=
    fold_left
      (fun split row =>
         let '(model_type, count) := row in
         if existsb (String.eqb model_type) regression_types
         then (fst split + count, snd split)
         else (fst split, snd split + count))
      (model_type_counts d) (0, 0) in
  [("Regression", fst split); ("Classification", snd split)].

End UserUsageRepository.

(** ** app.database: the transaction around a request *)

Module Database.

(** [get_db]: [async with SessionLocal() as session: async with
    session.begin(): yield session].  The handler runs inside the block:
    when it returns the block commits, when it raises the block rolls back
    what the handler wrote to the database.  What it did to the files
    stays. *)
Definition get_db {A} (handler : M World A) : M World A :=
  fun w =>
    match handler w with
    | (Ok a, w') => (Ok a, w')
    | (Raise e, w') => (Raise e, mkWorld (database w) (os w') (compute_runs w'))
    end.

End Database.

(** ** Vocabulary of the statements and sample data *)

Module Vocabulary.

(** the users table with the balance of user [uid] set to [b] *)
Definition set_balance (uid : Z) (b : Z) (t : list User.t) : list User.t :=
  Sql.update (fun r => User.id r =? uid) (fun r => User.with_tokens r b) t.

End Vocabulary.

Module Samples.
Definition ann : User.t := User.mk 1 "ann" true 7.
Definition bob : User.t := User.mk 2 "bob" true 0.
Definition cat : User.t := User.mk 3 "cat" false 0.
Definition some_users : list User.t := [ann; bob; cat].
End Samples.

Module PurchaseVocabulary.
Import TokenCreditService.






(** the ledger row of the key, as the service reads it *)
Definition ledger_row (user : User.t) (key : string) (d : DB) : option (RowStatus * option Z) :=
  TokenCreditRepository.get_by_key_status_open_balance (User.id user) key (token_credits d).
End PurchaseVocabulary.

Module PurchaseSamples.
Import Samples.
Definition shop : DB := mkDB some_users [] [] [] [].
End PurchaseSamples.

Module AuthVocabulary.
(** the database with every row of session [sid] marked revoked *)
Definition revoke_session (sid : string) (d : DB) : DB :=
  set_auth_sessions d
    (Sql.update (fun r => String.eqb (AuthSession.session_id r) sid)
                (fun r => AuthSession.with_revoked r true) (auth_sessions d)).

(** [row.user] of a session row *)
Definition user_of (row : AuthSession.t) (d : DB) : option User.t :=
  Sql.first (Sql.select (fun u => User.id u =? AuthSession.user_id row) (fun u => u) (users d)).
End AuthVocabulary.

Module AuthSamples.
Import Samples AuthService.

(** bob logged in at time 0 and holds the refresh token "T1" *)
Definition session0 : AuthSession.t :=
  AuthSession.mk 1 2 "S" (SecurityUtils.hash_token "T1") None false "10.0.0.1" "agent"
                 (hours 1) (hours 24).
Definition db0 : DB := mkDB some_users [] [session0] [] [].

(** the system hands out "T2" as the next token *)
Definition draws : nat -> Draw := fun _ => mkDraw "T2" (minutes 10) "S2" (minutes 10).
Definition at_10_minutes : Clock :=
  mkClock (minutes 10) (minutes 10) (minutes 10) (minutes 10).
Definition at_25_hours : Clock := mkClock (hours 25) (hours 25) (hours 25) (hours 25).

(** the database after "T1" was rotated into "T2" *)
Definition db1 : DB := snd (rotate_refresh_token at_10_minutes draws "T1" db0).

(** a session rotated shortly before its absolute expiry: the sliding
    expiry lies after the absolute one *)
Definition session_late : AuthSession.t :=
  AuthSession.mk 1 2 "S" (SecurityUtils.hash_token "T1") None false "10.0.0.1" "agent"
                 (hours 24 + minutes 30) (hours 24).
Definition db_late : DB := mkDB some_users [] [session_late] [] [].
Definition at_24_hours_10 : Clock :=
  mkClock (hours 24 + minutes 10) (hours 24 + minutes 10)
          (hours 24 + minutes 10) (hours 24 + minutes 10).
End AuthSamples.

Module LedgerVocabulary.

(** [t'] holds the rows of [t], each either as it was or with its
    status moved along [P] *)
Definition moves {R} (id : R -> Z) (status : R -> RowStatus)
           (P : RowStatus -> RowStatus -> Prop) (t t' : list R) : Prop :=
  Forall2 (fun r r' => id r = id r' /\ (r' = r \/ P (status r) (status r'))) t t'.

Definition pending_to_applied (s s' : RowStatus) : Prop := s = pending /\ s' = applied.
Definition failed_to_pending (s s' : RowStatus) : Prop := s = failed /\ s' = pending.
Definition any_to_failed (s s' : RowStatus) : Prop := s' = failed.
Definition pending_to_failed (s s' : RowStatus) : Prop := s = pending /\ s' = failed.

End LedgerVocabulary.

Module LedgerSamples.

Definition stale_model : TrainedModel.t :=
  TrainedModel.mk 1 2 "linear" ["x"] (JDict []) "y" (JDict [("r2", JFloat "0.9")])
                  (JDict [("x", JStr "numeric")]) "fp" "saved_models/2/fp.pkl" failed.
End LedgerSamples.

Module ServiceSamples.
Import TrainModelService PredictionService.

Definition rich : User.t := User.mk 1 "ann" true 20.
Definition csv : list Byte.byte := [Byte.x78; Byte.x2c; Byte.x79; Byte.x0a; Byte.x31; Byte.x2c; Byte.x32; Byte.x0a].
Definition disk0 : Os.t := Os.mk [("upload.csv", csv)] [] None.
Definition params0 : json := JDict [("kind", JStr "ols")].
Definition schema0 : json := JDict [("x", JStr "numeric")].
Definition metrics0 : json := JDict [("r2", JFloat "0.9")].

Definition fp0 : string :=
  Eval vm_compute in
    match FingerprintHashing.compute_training_fingerprint
            "upload.csv" ["x"] "y" "linear" params0 "requirements.txt" disk0 with
    | Ok fp => fp
    | Raise _ => EmptyString
    end.
Definition final0 : string := Eval vm_compute in Files.unique_model_path rich fp0.

Definition worker_ok : worker_outcome := WorkerExit 0 (Some metrics0) EmptyString (Some [Byte.x01]).

Definition train (worker : worker_outcome) : M World TrainResponse :=
  train_model worker rich "upload.csv" "linear" ["x"] "y" params0 params0 schema0 TRAINING.

(** a first training request, served on a healthy disk *)
Definition world0 : World := mkWorld (mkDB [rich] [] [] [] []) disk0 0.
Definition world_trained : World := snd (train worker_ok world0).

(** the same request on a disk that refuses the final path *)
Definition world_denied : World :=
  mkWorld (mkDB [rich] [] [] [] []) (Os.mk [("upload.csv", csv)] [final0] None) 0.

(** a prediction on the trained model, then the loss of its artifact *)
Definition request0 : PredictionRequest := mkRequest 1 [("x", JInt 1)].
Definition world_predicted : World :=
  snd (predict Loaded (Predicted "cat") rich request0 PREDICTION world_trained).
Definition world_artifact_lost : World :=
  mkWorld (database world_predicted) disk0 (compute_runs world_predicted).

Definition trained_row : TrainedModel.t :=
  TrainedModel.mk 1 1 "linear" ["x"] params0 "y" metrics0 schema0 fp0 final0 applied.
Definition predicted_row : Prediction.t :=
  Prediction.mk 1 1 1 "linear" (JDict [("x", JInt 1)]) "cat"
                (FingerprintHashing.compute_prediction_fingerprint 1 [("x", JInt 1)]) applied.
End ServiceSamples.

Module ReconcilerVocabulary.
Import Reconciler.

(** a step of the reconciler that, run inside a transaction, leaves the
    session as it is: the same committed database, the same view *)
Definition keeps_session (m : M St unit) : Prop :=
  forall st d d', session st = Session.mk d (Some d') ->
                  session (snd (m st)) = Session.mk d (Some d').
End ReconcilerVocabulary.

Module ReconcilerSamples.
(** what a crash left behind: row 1 applied with no artifact at all,
    row 2 applied with its temp artifact only, row 3 pending with a
    leftover temp artifact, and a pending prediction *)
Definition model (i : Z) (name : string) (s : RowStatus) : TrainedModel.t :=
  TrainedModel.mk i 1 "linear" ["x"] (JDict []) "y" (JDict []) (JDict [])
                  name ("saved_models/1/" ++ name ++ ".pkl")%string s.

Definition crashed_db : DB :=
  mkDB [User.mk 1 "ann" true 20] [] []
       [model 1 "a" applied; model 2 "b" applied; model 3 "c" pending]
       [Prediction.mk 1 1 2 "linear" (JDict [("x", JInt 1)]) EmptyString "p" pending].

Definition crashed_disk : Os.t :=
  Os.mk [("saved_models/1/b.pkl.tmp", [Byte.x01]); ("saved_models/1/c.pkl.tmp", [Byte.x02])]
        [] None.

Definition disk_after_startup : Os.t :=
  Os.mk [("saved_models/1/b.pkl", [Byte.x01])] [] None.
End ReconcilerSamples.

Module FingerprintVocabulary.
(** a lower-case hexadecimal digit *)
Definition is_hex (c : ascii) : bool :=
  let n := N_of_ascii c in
  (((48 <=? n) && (n <=? 57)) || ((97 <=? n) && (n <=? 102)))%N.

(** a fixed-length hex digest: 64 lower-case hexadecimal digits *)
Definition is_digest (s : string) : Prop :=
  String.length s = 64%nat /\ forallb is_hex (list_ascii_of_string s) = true.
End FingerprintVocabulary.

Module FingerprintSamples.
(** the same upload stored under two names by two processes *)
Definition upload : list Byte.byte := [Byte.x78; Byte.x2c; Byte.x79; Byte.x0a].
Definition process1 : Os.t := Os.mk [("/tmp/a.csv", upload)] [] None.
Definition process2 : Os.t := Os.mk [("/tmp/b.csv", upload); ("other", [])] [] None.

(** the same hyperparameters and feature values, given in two orders *)
Definition hyper1 : json := JDict [("kind", JStr "ols"); ("alpha", JFloat "0.1")].
Definition hyper2 : json := JDict [("alpha", JFloat "0.1"); ("kind", JStr "ols")].
Definition values1 : list (string * json) := [("b", JInt 2); ("a", JFloat "1.5")].
Definition values2 : list (string * json) := [("a", JFloat "1.5"); ("b", JInt 2)].
End FingerprintSamples.

Module StringVocabulary.

(** [strip] on the list of the characters of a string *)
Definition strip_list (l : list ascii) : list ascii :=
  rev (FingerprintHashing.lstrip_list (rev (FingerprintHashing.lstrip_list l))).

(** no blank at the head *)
Definition headed (l : list ascii) : Prop :=
  match l with
  | [] => True
  | c :: _ => FingerprintHashing.is_space c = false
  end.

(** a name as the validators hand it on: not empty, no blank around it *)
Definition is_name (s : string) : Prop := s <> EmptyString /\ PyStr.strip s = s.

(** the 256 characters, in order *)
Definition every_char : string :=
  string_of_list_ascii (map ascii_of_nat (seq 0 256)).

End StringVocabulary.

Module ValidatorVocabulary.

(** one turn of [dict.fromkeys] *)
Definition add_key (out : list string) (k : string) : list string :=
  if existsb (String.eqb k) out then out else out ++ [k].

(** the items of the submitted parameters, none for None *)
Definition items_of (params : option (list (string * json))) : list (string * json) :=
  match params with
  | Some items => items
  | None => []
  end.

End ValidatorVocabulary.

Module ValidatorSamples.
Definition header : list string := ["age"; "price"; "sold"].
Definition submitted : list string := [" age"; "price "; "age"; "  "].
End ValidatorSamples.

Module RequestVocabulary.

(** [[a-z0-9_-]] *)
Definition is_username_char (c : ascii) : bool :=
  let n := N_of_ascii c in
  (((97 <=? n) && (n <=? 122)) || Re.is_digit c || (n =? 95) || (n =? 45))%N.




End RequestVocabulary.

Module RateLimitVocabulary.
Import RateLimit.

Definition passed (out : Outcome) : bool :=
  match out with
  | Passed => true
  | _ => false
  end.

(** successive requests on one rate-limit key, at the instants [times] *)
Fixpoint serve (max_requests window : Z) (times : list Z) (redis : Redis.t)
  : list (Z * Outcome) :=
  match times with
  | [] => []
  | at_ms :: rest =>
      let '(out, redis') := check_rate_limit at_ms max_requests window redis in
      (at_ms, out) :: serve max_requests window rest redis'
  end.

(** the seconds at which requests were let through, in their order *)
Definition passed_at (log : list (Z * Outcome)) : list Z :=
  map (fun x => Z.quot (fst x) 1000) (filter (fun x => passed (snd x)) log).

(** of any [n] + 1 successive entries of [l], the last is at least [w]
    after the first *)
Definition spaced (n : nat) (w : Z) (l : list Z) : Prop :=
  forall pre x mid y post,
    l = pre ++ x :: mid ++ y :: post -> length mid = (n - 1)%nat -> w <= y - x.

(** the same, read off a list that has the latest entry first *)
Fixpoint spaced_back (n : nat) (w : Z) (l : list Z) : Prop :=
  match l with
  | [] => True
  | x :: r => (forall y, nth_error r (n - 1) = Some y -> w <= x - y) /\ spaced_back n w r
  end.

(** What holds between two requests: [seen] are the seconds of the
    requests let through so far, the latest first, and [last_ms] is the
    instant of the latest request.  The key holds the latest of [seen], at
    most [n] of them, and expires [w] seconds after the latest of them. *)
Definition consistent (n : nat) (w : Z) (redis : Redis.t) (seen : list Z) (last_ms : Z)
  : Prop :=
  spaced_back n w seen
  /\ StronglySorted Z.ge seen
  /\ (forall x, In x seen -> x <= Z.quot last_ms 1000)
  /\ 0 <= last_ms
  /\ match redis with
     | None => seen = []
     | Some k =>
         exists rest pushed_ms,
           seen = Redis.elements k ++ rest
           /\ (1 <= length (Redis.elements k) <= n)%nat
           /\ Redis.expires k = Some (pushed_ms + 1000 * w)
           /\ 0 <= pushed_ms <= last_ms
           /\ hd_error seen = Some (Z.quot pushed_ms 1000)
           /\ ((length (Redis.elements k) < n)%nat ->
               forall y, hd_error rest = Some y -> w <= last (Redis.elements k) 0 - y)
     end.

End RateLimitVocabulary.

Module HealthVocabulary.

(** the [n] pings before turn [m] (turns count from 1) all failed *)
Definition failed_run (n : nat) (pings : list bool) (m : nat) : Prop :=
  (n <= m <= length pings)%nat
  /\ forall i, (m - n <= i < m)%nat -> nth i pings true = false.

End HealthVocabulary.

Module UsageVocabulary.
Import UserUsageRepository.

Definition is_regression (r : TrainedModel.t) : bool :=
  existsb (String.eqb (TrainedModel.model_type r)) regression_types.

(** the rows of the users that are active *)
Definition counted_rows (d : DB) : list TrainedModel.t :=
  filter (owner_is_active (users d)) (trained_models d).

(** the total of the counts of the groups whose key satisfies [p] *)
Definition total (p : string -> bool) (groups : list (string * Z)) : Z :=
  fold_right (fun g acc => if p (fst g) then snd g + acc else acc) 0 groups.

End UsageVocabulary.

Module SessionVocabulary.
Import AuthService.

(** the session row after a rotation that starts from the token [tok]
    and takes its new token and expiry from [draw] *)
Definition rotated (row : AuthSession.t) (tok : string) (draw : Draw) : AuthSession.t :=
  AuthSession.with_rotation row (SecurityUtils.hash_token (raw_refresh draw))
                            (Some (SecurityUtils.hash_token tok))
                            (now_expiry draw + hours 1).

End SessionVocabulary.

Module TrainingVocabulary.

(** the ledger row of a first submission, in status [s] with metrics [m]:
    it takes the next id of the table [t] *)
Definition submitted_row (user : User.t) (mt_c : string) (feats_c : list string)
    (params_n : json) (label_c : string) (feature_schema : json) (fp : string)
    (t : list TrainedModel.t) (s : RowStatus) (m : json) : TrainedModel.t :=
  TrainedModel.mk (Sql.next_id (map TrainedModel.id t)) (User.id user) mt_c feats_c params_n
                  label_c m feature_schema fp (Files.unique_model_path user fp) s.

End TrainingVocabulary.

Module PredictionVocabulary.
Import PredictionService.

(** the ledger row of a first prediction request on the model [tm_row],
    in status [s] with result [res] *)
Definition requested_row (user : User.t) (tm_row : TrainedModel.t)
    (request : PredictionRequest) (t : list Prediction.t) (s : RowStatus) (res : string)
  : Prediction.t :=
  Prediction.mk (Sql.next_id (map Prediction.id t)) (User.id user) (TrainedModel.id tm_row)
                (TrainedModel.model_type tm_row) (JDict (feature_values request)) res
                (FingerprintHashing.compute_prediction_fingerprint
                   (TrainedModel.id tm_row) (feature_values request))
                s.

End PredictionVocabulary.

Module StartupVocabulary.
Import Reconciler.




End StartupVocabulary.

Module PathVocabulary.

(** the number a string of decimal digits denotes, read after [acc] *)
Fixpoint digits_value (s : string) (acc : Z) : Z :=
  match s with
  | EmptyString => acc
  | String c r => digits_value r (10 * acc + (Z.of_N (N_of_ascii c) - 48))
  end.

Definition is_minus (c : ascii) : bool := (N_of_ascii c =? 45)%N.

(** [int(s)] for a string that [str] made of an [int] *)
Definition int_of (s : string) : Z :=
  match s with
  | EmptyString => 0
  | String c r => if is_minus c then - digits_value r 0 else digits_value s 0
  end.

End PathVocabulary.

(** ** Proof steps shared by the statements *)

Module ProofSteps.

(** case analysis over the 256 characters *)
Ltac each_char c :=
  destruct c as [[] [] [] [] [] [] [] []]; vm_compute; try reflexivity; try discriminate.

(** projections of a ledger row written out *)
Ltac tm_fields_in H :=
  cbn [TrainedModel.id TrainedModel.user_id TrainedModel.model_type TrainedModel.features
       TrainedModel.model_params TrainedModel.label TrainedModel.metrics
       TrainedModel.feature_schema TrainedModel.fingerprint TrainedModel.model_path
       TrainedModel.status TrainedModel.with_status_metrics TrainedModel.with_status] in H.

Ltac p_fields_in H :=
  cbn [Prediction.id Prediction.user_id Prediction.model_id Prediction.model_type
       Prediction.input_data Prediction.prediction_result Prediction.fingerprint
       Prediction.status Prediction.with_status_result Prediction.with_status] in H.

End ProofSteps.

(** * Properties *)

(** ** The embedding agrees with CPython on sample inputs *)

Module ModelChecks.

(** digests of the bytes of abc, of a Latin-1 letter, of 200 letters a
    and of the empty message, as CPython computes them *)
Lemma sha_abc : Hashlib.sha256_hexdigest (Hashlib.encode_utf8 "abc")
  = "ba7816bf8f01cfea414140de5dae2223b00361a396177a9cb410ff61f20015ad".
Proof. vm_compute. reflexivity. Qed.

Lemma sha_latin1 : Hashlib.sha256_hexdigest (Hashlib.encode_utf8 (String (ascii_of_nat 233) EmptyString))
  = "4a99557e4033c3539de2eb65472017cad5f9557f7a0625a09f1c3f6e2ba69c4c".
Proof. vm_compute. reflexivity. Qed.

Lemma sha_four_blocks : Hashlib.sha256_hexdigest (repeat Byte.x61 200)
  = "c2a908d98f5df987ade41b5fce213067efbcc21ef2240212a41e54b5e7c28ae5".
Proof. vm_compute. reflexivity. Qed.

Lemma sha_empty : Hashlib.sha256_hexdigest []
  = "e3b0c44298fc1c149afbf4c8996fb92427ae41e4649b934ca495991b7852b855".
Proof. vm_compute. reflexivity. Qed.

(** [stable_json] of a nested value whose strings need escapes (a
    non-ASCII letter, a line feed, a quote, a backslash, DEL, a tab), hashed:
    the digest CPython gives for the same value *)
Lemma stable_json_sample :
  Hashlib.sha256_hexdigest
    (Hashlib.encode_utf8
       (FingerprintHashing.stable_json
          (JDict [("b", JInt (-120));
                  ("a", JList [JInt 0;
                               JStr (String (ascii_of_nat 233)
                                       (String (ascii_of_nat 10)
                                          (String "x" (String Json.dquote
                                             (String "y" (String Json.backslash "z"))))));
                               JNull; JBool true; JBool false; JFloat "1.5";
                               JStr (String (ascii_of_nat 127) (String (ascii_of_nat 9) EmptyString))]);
                  ("B", JDict []);
                  (EmptyString, JList []);
                  ("n", JDict [("z", JInt 1);
                               ("y", JList [JDict [("q", JInt 2); ("p", JInt 3)]])])])))
  = "a5ce20d076ff8c6dd2c72a80e2e2a8ddf0b7db86f55fdedc5cb3f325186a1883".
Proof. vm_compute. reflexivity. Qed.

(** [compute_prediction_fingerprint] for model 7 and the feature values
    b = 2, a = 1.5, c = x, as CPython computes it *)
Lemma prediction_fingerprint_sample :
  FingerprintHashing.compute_prediction_fingerprint
    7 [("b", JInt 2); ("a", JFloat "1.5"); ("c", JStr "x")]
  = "8a0feb42370253de18f464300f094f916d19a63ee1e3c0a2d43d9c083296d7e6".
Proof. vm_compute. reflexivity. Qed.

(** [compute_training_fingerprint] on a two-byte file, with a strategy
    source of two lines, the first with trailing blanks, and no requirements
    file, as CPython computes it *)
Lemma training_fingerprint_sample :
  FingerprintHashing.compute_training_fingerprint
    "f.csv" ["a"; "b"] "y" "linear" (JDict [("kind", JStr "ols"); ("alpha", JFloat "0.1")])
    "requirements.txt"
    (Os.mk [("f.csv", [Byte.x61; Byte.x0a])] []
           (Some ("x = 1  " ++ FingerprintHashing.newline ++ "y" ++ FingerprintHashing.newline)%string))
  = Ok "b7e380e64cb6a31d60abcbcdc579ae0ca91c0e17d5d394ddb9e3c8293cb2044b".
Proof. vm_compute. reflexivity. Qed.

End ModelChecks.

(** ** SQL statements *)

Module SqlFacts.
Section Table.
Context {R : Type}.

Lemma update_none (c : R -> bool) (f : R -> R) (t : list R) :
  (forall r, In r t -> c r = false) -> Sql.update c f t = t.
Proof.
  unfold Sql.update. induction t as [|x t IH]; intros H; simpl; [reflexivity|].
  rewrite (H x (or_introl eq_refl)). f_equal. apply IH.
  intros r Hr. apply H. now right.
Qed.

Lemma filter_none (c : R -> bool) (t : list R) :
  (forall r, In r t -> c r = false) -> filter c t = [].
Proof.
  induction t as [|x t IH]; intros H; simpl; [reflexivity|].
  rewrite (H x (or_introl eq_refl)). apply IH. intros r Hr. apply H. now right.
Qed.

Lemma update_length (c : R -> bool) (f : R -> R) (t : list R) :
  length (Sql.update c f t) = length t.
Proof. unfold Sql.update. apply length_map. Qed.

(** the rows of a table and of the table after an UPDATE correspond
    one to one, each either untouched or rewritten by the SET clause *)
Lemma update_rows (c : R -> bool) (f : R -> R) (t : list R) :
  Forall2 (fun r r' => (c r = true /\ r' = f r) \/ (c r = false /\ r' = r))
          t (Sql.update c f t).
Proof.
  unfold Sql.update. induction t as [|x t IH]; simpl; constructor; [|exact IH].
  destruct (c x); [left|right]; split; reflexivity.
Qed.

(** a key identifies the row: with pairwise distinct keys, the rows
    that have the key of [u] and pass [p] are [u] alone or none *)
Lemma filter_key {K} (key : R -> K) (eqb : K -> K -> bool) (p : R -> bool)
      (t : list R) (u : R) :
  (forall a b, eqb a b = true <-> a = b) ->
  NoDup (map key t) -> In u t ->
  filter (fun r => eqb (key r) (key u) && p r) t = if p u then [u] else [].
Proof.
  intros Heqb. induction t as [|x t IH]; intros Hnd Hin; [destruct Hin|].
  simpl in Hnd. inversion Hnd as [|? ? Hx Hnd']; subst.
  assert (Hrest : forall r, In r t -> key r = key x -> False).
  { intros r Hr E. apply Hx. rewrite <- E. now apply in_map. }
  simpl. destruct Hin as [->|Hin].
  - replace (eqb (key u) (key u)) with true by (symmetry; now apply Heqb).
    simpl. rewrite filter_none.
    + destruct (p u); reflexivity.
    + intros r Hr. destruct (eqb (key r) (key u)) eqn:E; [|reflexivity].
      apply Heqb in E. exfalso. eauto.
  - destruct (eqb (key x) (key u)) eqn:E.
    + apply Heqb in E. exfalso. apply (Hrest u Hin). now symmetry.
    + simpl. now apply IH.
Qed.
End Table.
End SqlFacts.

(** ** Token balance: conditional debit and credit *)

Module UserRepositoryFacts.
Import User UserRepository Vocabulary.

Lemma Zeqb_iff (a b : Z) : (a =? b) = true <-> a = b.
Proof. apply Z.eqb_eq. Qed.

Lemma update_one (p : User.t -> bool) (f g : User.t -> User.t) (t : list User.t) (u : User.t) :
  NoDup (map id t) -> In u t -> p u = true -> g u = f u ->
  Sql.update (fun r => (id r =? id u) && p r) f t = Sql.update (fun r => id r =? id u) g t.
Proof.
  intros Hnd Hin Hp Hg. unfold Sql.update.
  induction t as [|x t IH]; [reflexivity|].
  simpl in Hnd. inversion Hnd as [|? ? Hx Hnd']; subst. simpl.
  destruct Hin as [->|Hin].
  - rewrite Z.eqb_refl, Hp, Hg. simpl. f_equal.
    apply map_ext_in. intros r Hr.
    destruct (id r =? id u) eqn:E; [|reflexivity].
    apply Z.eqb_eq in E. exfalso. apply Hx. rewrite <- E. now apply in_map.
  - destruct (id x =? id u) eqn:E.
    + apply Z.eqb_eq in E. exfalso. apply Hx. rewrite E. now apply in_map.
    + simpl. f_equal. now apply IH.
Qed.

Lemma update_tokens_enough (t : list User.t) (u : User.t) (cost : Z) :
  NoDup (map id t) -> In u t -> 0 <= tokens u <= 1000 -> 0 <= cost -> cost <= tokens u ->
  update_tokens (id u) cost t = (Ok (tokens u - cost), set_balance (id u) (tokens u - cost) t).
Proof.
  intros Hnd Hin Hb Hc Hle. unfold update_tokens, Sql.update_checked, Sql.returning.
  rewrite (SqlFacts.filter_key id Z.eqb (fun r => cost <=? tokens r) t u Zeqb_iff Hnd Hin).
  replace (cost <=? tokens u) with true by (symmetry; now apply Z.leb_le).
  simpl. unfold ck_users_tokens_0_1000. simpl.
  replace (0 <=? tokens u - cost) with true by (symmetry; apply Z.leb_le; lia).
  replace (tokens u - cost <=? 1000) with true by (symmetry; apply Z.leb_le; lia).
  simpl. unfold set_balance.
  apply f_equal.
  apply (update_one (fun r => cost <=? tokens r) _ _ t u Hnd Hin); [now apply Z.leb_le|].
  reflexivity.
Qed.

Lemma update_tokens_short (t : list User.t) (u : User.t) (cost : Z) :
  NoDup (map id t) -> In u t -> tokens u < cost ->
  update_tokens (id u) cost t = (Raise NotEnoughTokensException, t).
Proof.
  intros Hnd Hin Hlt. unfold update_tokens, Sql.update_checked, Sql.returning.
  rewrite (SqlFacts.filter_key id Z.eqb (fun r => cost <=? tokens r) t u Zeqb_iff Hnd Hin).
  replace (cost <=? tokens u) with false by (symmetry; apply Z.leb_gt; lia).
  simpl. rewrite SqlFacts.update_none; [reflexivity|].
  intros r Hr. destruct (id r =? id u) eqn:E; [|reflexivity]. simpl.
  apply Z.eqb_eq in E.
  assert (r = u); [|subst; apply Z.leb_gt; lia].
  clear - Hnd Hin Hr E. induction t as [|x t IH]; [destruct Hin|].
  simpl in Hnd. inversion Hnd as [|? ? Hx Hnd']; subst.
  destruct Hr as [->|Hr], Hin as [->|Hin]; auto.
  - exfalso. apply Hx. rewrite E. now apply in_map.
  - exfalso. apply Hx. rewrite <- E. now apply in_map.
Qed.

Lemma add_tokens_nonzero (t : list User.t) (u : User.t) (amount : Z) :
  NoDup (map id t) -> In u t -> tokens u <> 0 \/ is_active u = false ->
  add_tokens (id u) amount t = (Ok None, t).
Proof.
  intros Hnd Hin Hnz. unfold add_tokens, Sql.update_checked, Sql.returning.
  assert (Hf : filter (fun u0 => (id u0 =? id u) && (tokens u0 =? 0) && is_active u0) t = []).
  { erewrite filter_ext;
      [rewrite (SqlFacts.filter_key id Z.eqb (fun r => (tokens r =? 0) && is_active r)
                                    t u Zeqb_iff Hnd Hin)|].
    - destruct Hnz as [Hnz|Hnz].
      + apply Z.eqb_neq in Hnz. rewrite Hnz. reflexivity.
      + rewrite Hnz, andb_false_r. reflexivity.
    - intros r. cbv beta.
      destruct (id r =? id u), (tokens r =? 0), (is_active r); reflexivity. }
  rewrite Hf. simpl. rewrite SqlFacts.update_none; [reflexivity|].
  intros r Hr.
  destruct ((id r =? id u) && (tokens r =? 0) && is_active r) eqn:E; [|reflexivity].
  assert (Hin' : In r (filter (fun u0 => (id u0 =? id u) && (tokens u0 =? 0) && is_active u0) t))
    by (apply filter_In; auto).
  rewrite Hf in Hin'. destruct Hin'.
Qed.

Lemma add_tokens_some (t t' : list User.t) (u : User.t) (amount b : Z) :
  NoDup (map id t) -> In u t ->
  add_tokens (id u) amount t = (Ok (Some b), t') ->
  tokens u = 0 /\ is_active u = true /\ b = amount.
Proof.
  intros Hnd Hin H.
  destruct (Z.eq_dec (tokens u) 0) as [Hz|Hz].
  - destruct (is_active u) eqn:Ha.
    + split; [exact Hz|split; [reflexivity|]].
      revert H. unfold add_tokens, Sql.update_checked, Sql.returning.
      erewrite filter_ext;
        [rewrite (SqlFacts.filter_key id Z.eqb (fun r => (tokens r =? 0) && is_active r)
                                      t u Zeqb_iff Hnd Hin)|].
      * rewrite Hz, Ha. simpl. destruct (ck_users_tokens_0_1000 _); simpl; intros H.
        -- inversion H. rewrite Hz. reflexivity.
        -- discriminate.
      * intros r. cbv beta.
        destruct (id r =? id u), (tokens r =? 0), (is_active r); reflexivity.
    + rewrite (add_tokens_nonzero t u amount Hnd Hin (or_intror Ha)) in H. discriminate.
  - rewrite (add_tokens_nonzero t u amount Hnd Hin (or_introl Hz)) in H. discriminate.
Qed.

(** C4: a debit of a cost >= 0 succeeds with balance - cost exactly when
    balance >= cost and otherwise raises the insufficient-funds error and
    leaves the table as it was, so no debit takes a balance below 0; a
    credit succeeds only at balance 0 and returns None, changing nothing,
    at any other balance. *)
Theorem debit_and_credit_are_guarded (t : list User.t) (u : User.t) (cost amount : Z) :
  NoDup (map id t) -> In u t -> 0 <= tokens u <= 1000 -> 0 <= cost ->
  (cost <= tokens u ->
     update_tokens (id u) cost t
     = (Ok (tokens u - cost), set_balance (id u) (tokens u - cost) t)
     /\ 0 <= tokens u - cost)
  /\ (tokens u < cost -> update_tokens (id u) cost t = (Raise NotEnoughTokensException, t))
  /\ (forall b t', update_tokens (id u) cost t = (Ok b, t') ->
                   tokens u >= cost /\ b = tokens u - cost /\ 0 <= b)
  /\ (forall b t', add_tokens (id u) amount t = (Ok (Some b), t') -> tokens u = 0)
  /\ (tokens u <> 0 -> add_tokens (id u) amount t = (Ok None, t)).
Proof.
  intros Hnd Hin Hb Hc. repeat split.
  - now apply update_tokens_enough.
  - lia.
  - now apply update_tokens_short.
  - destruct (Z_lt_le_dec (tokens u) cost) as [Hlt|Hle]; [|lia].
    rewrite (update_tokens_short t u cost Hnd Hin Hlt) in H. discriminate.
  - destruct (Z_lt_le_dec (tokens u) cost) as [Hlt|Hle].
    + rewrite (update_tokens_short t u cost Hnd Hin Hlt) in H. discriminate.
    + rewrite (update_tokens_enough t u cost Hnd Hin Hb Hc Hle) in H. now inversion H.
  - destruct (Z_lt_le_dec (tokens u) cost) as [Hlt|Hle].
    + rewrite (update_tokens_short t u cost Hnd Hin Hlt) in H. discriminate.
    + rewrite (update_tokens_enough t u cost Hnd Hin Hb Hc Hle) in H. inversion H. lia.
  - intros b t' H. now apply (add_tokens_some t t' u amount b Hnd Hin H).
  - intros Hnz. apply add_tokens_nonzero; auto.
Qed.

Import Samples.

Lemma some_users_distinct : NoDup (map id some_users).
Proof. repeat constructor; simpl; intuition discriminate. Defined.

Lemma debit_and_credit_witness :
  NoDup (map id some_users) /\ In ann some_users /\ 0 <= tokens ann <= 1000 /\ 0 <= 5
  /\ update_tokens 1 5 some_users = (Ok 2, set_balance 1 2 some_users)
  /\ update_tokens 1 8 some_users = (Raise NotEnoughTokensException, some_users)
  /\ add_tokens 1 10 some_users = (Ok None, some_users).
Proof.
  assert (Hin : In ann some_users) by (left; reflexivity).
  assert (Hb : 0 <= tokens ann <= 1000) by (simpl; lia).
  assert (Hc5 : 0 <= 5) by lia.
  assert (Hc8 : 0 <= 8) by lia.
  destruct (debit_and_credit_are_guarded some_users ann 5 10 some_users_distinct Hin Hb Hc5)
    as (Hdebit & _ & _ & _ & Hcredit).
  destruct (debit_and_credit_are_guarded some_users ann 8 10 some_users_distinct Hin Hb Hc8)
    as (_ & Hshort & _).
  split; [exact some_users_distinct|].
  split; [exact Hin|]. split; [exact Hb|]. split; [exact Hc5|].
  split; [|split].
  - apply Hdebit. simpl. lia.
  - apply Hshort. simpl. lia.
  - apply Hcredit. simpl. lia.
Defined.
End UserRepositoryFacts.

(** ** Idempotent purchase *)

Module TokenCreditFacts.
Import TokenCredit TokenCreditRepository TokenCreditService PurchaseVocabulary.

Lemma set_token_credits_same (d : DB) : set_token_credits d (token_credits d) = d.
Proof. destruct d; reflexivity. Qed.

Lemma set_users_same (d : DB) : set_users d (users d) = d.
Proof. destruct d; reflexivity. Qed.

Lemma existsb_false {A} (c : A -> bool) (l : list A) :
  existsb c l = false -> forall r, In r l -> c r = false.
Proof.
  intros H r Hr. destruct (c r) eqn:E; [|reflexivity].
  assert (existsb c l = true) by (apply existsb_exists; eauto). congruence.
Qed.

Lemma row_present (uid : Z) (k : string) (t : list TokenCredit.t) (x : RowStatus * option Z) :
  get_by_key_status_open_balance uid k t = Some x -> existsb (same_key uid k) t = true.
Proof.
  unfold get_by_key_status_open_balance, Sql.first, Sql.select.
  induction t as [|r t IH]; simpl; [discriminate|].
  destruct (same_key uid k r); simpl; auto.
Qed.

Lemma row_absent (uid : Z) (k : string) (t : list TokenCredit.t) :
  existsb (same_key uid k) t = false -> get_by_key_status_open_balance uid k t = None.
Proof.
  intros H. destruct (get_by_key_status_open_balance uid k t) eqn:E; [|reflexivity].
  apply row_present in E. congruence.
Qed.

(** a call that finds a row of the key reads it and writes nothing *)
Lemma buy_tokens_duplicate (user : User.t) (amount : Z) (key : string) (d : DB) :
  existsb (same_key (User.id user) key) (token_credits d) = true ->
  buy_tokens user amount key d
  = match ledger_row user key d with
    | Some (applied, Some open_balance) => (Ok (response open_balance), d)
    | Some (failed, _) => (Raise BalanceMustBeZeroException, d)
    | _ => (Raise PurchaseInProgressException, d)
    end.
Proof.
  intros H. unfold buy_tokens, bind, on_token_credits, try_insert_pending, ledger_row, get.
  rewrite H, set_token_credits_same.
  destruct (get_by_key_status_open_balance _ _ _) as [[[] []]|]; reflexivity.
Qed.


(** the rows of the key after the first insert: the new row alone *)
Section FirstCall.
Variables (uid : Z) (k : string) (t : list TokenCredit.t).
Hypothesis fresh : existsb (same_key uid k) t = false.

Let row := mk (Sql.next_id (map id t)) uid k None pending.

Lemma same_key_new : filter (same_key uid k) (t ++ [row]) = [row].
Proof.
  rewrite filter_app, SqlFacts.filter_none by (apply existsb_false; exact fresh).
  simpl. unfold same_key, row. simpl. now rewrite Z.eqb_refl, String.eqb_refl.
Qed.

Lemma update_new (f : TokenCredit.t -> TokenCredit.t) :
  Sql.update (same_key uid k) f (t ++ [row]) = t ++ [f row].
Proof.
  unfold Sql.update. rewrite map_app. f_equal.
  - rewrite <- (map_id t) at 2. apply map_ext_in. intros r Hr.
    now rewrite (existsb_false _ _ fresh r Hr).
  - simpl. unfold same_key, row. simpl. now rewrite Z.eqb_refl, String.eqb_refl.
Qed.

Lemma lookup_new (s : RowStatus) (b : option Z) :
  get_by_key_status_open_balance uid k (t ++ [with_status row s b]) = Some (s, b).
Proof.
  unfold get_by_key_status_open_balance, Sql.first, Sql.select.
  rewrite filter_app, SqlFacts.filter_none by (apply existsb_false; exact fresh).
  simpl. unfold same_key, row. simpl. now rewrite Z.eqb_refl, String.eqb_refl.
Qed.


Lemma mark_failed_new :
  mark_failed uid k (t ++ [row]) = (Ok tt, t ++ [with_status row failed None]).
Proof.
  unfold mark_failed, Sql.update_checked.
  rewrite same_key_new. simpl. now rewrite update_new.
Qed.

Lemma mark_applied_new (b : Z) :
  mark_applied uid k b (t ++ [row])
  = if (1 <=? b) && (b <=? 100)
    then (Ok tt, t ++ [with_status row applied (Some b)])
    else (Raise IntegrityError, t ++ [row]).
Proof.
  unfold mark_applied, Sql.update_checked.
  rewrite same_key_new. simpl.
  unfold ck_open_balance_when_applied. simpl.
  destruct ((1 <=? b) && (b <=? 100)); simpl; [now rewrite update_new|reflexivity].
Qed.
End FirstCall.











Import Samples PurchaseSamples.


(** C10: the credit also requires the owner to be active.  For an
    inactive owner the conditional update matches no row whatever the
    balance, zero included, so a first purchase with a key records the
    ledger row as failed and raises the zero-balance policy violation,
    and no balance changes. *)
Theorem inactive_owner_is_not_credited
        (d : DB) (user u : User.t) (amount : Z) (key : string) :
  NoDup (map User.id (users d)) -> In u (users d) ->
  User.id user = User.id u -> User.is_active u = false ->
  existsb (same_key (User.id u) key) (token_credits d) = false ->
  existsb (fun r => (user_id r =? User.id u) && RowStatus_eqb (status r) pending)
          (token_credits d) = false ->
  UserRepository.add_tokens (User.id u) amount (users d) = (Ok None, users d)
  /\ exists d',
       buy_tokens user amount key d = (Raise BalanceMustBeZeroException, d')
       /\ users d' = users d
       /\ ledger_row user key d' = Some (failed, None).
Proof.
  intros Hnd Hin Hid Hinactive Hfresh Hnopending.
  pose proof (UserRepositoryFacts.add_tokens_nonzero
                (users d) u amount Hnd Hin (or_intror Hinactive)) as Hadd.
  split; [exact Hadd|].
  unfold buy_tokens, bind, on_token_credits, on_users, try_insert_pending, ledger_row.
  rewrite Hid, Hfresh, Hnopending. simpl. rewrite Hadd. simpl.
  rewrite (mark_failed_new _ _ _ Hfresh). simpl.
  eexists. split; [reflexivity|]. simpl. split; [reflexivity|].
  apply (lookup_new _ _ _ Hfresh).
Qed.

Lemma inactive_owner_witness :
  User.is_active cat = false /\ User.tokens cat = 0
  /\ UserRepository.add_tokens 3 10 some_users = (Ok None, some_users)
  /\ exists d',
       buy_tokens cat 10 "k2" shop = (Raise BalanceMustBeZeroException, d')
       /\ users d' = users shop
       /\ ledger_row cat "k2" d' = Some (failed, None).
Proof.
  split; [reflexivity|]. split; [reflexivity|].
  apply (inactive_owner_is_not_credited shop cat cat 10 "k2").
  - exact UserRepositoryFacts.some_users_distinct.
  - right; right; left; reflexivity.
  - reflexivity.
  - reflexivity.
  - reflexivity.
  - reflexivity.
Defined.
End TokenCreditFacts.

(** ** Session rotation *)

Module AuthFacts.
Import AuthSession AuthRepository AuthService AuthVocabulary.

Lemma set_auth_sessions_same (d : DB) : set_auth_sessions d (auth_sessions d) = d.
Proof. destruct d; reflexivity. Qed.

(** a token that is the current token of no session is not looked at
    any further: the request is rejected as invalid and nothing is
    written, whatever the previous hashes stored in the table *)
Lemma unknown_hash_is_invalid (clock : Clock) (draws : nat -> Draw) (tok : string) (d : DB) :
  (forall r, In r (auth_sessions d) -> refresh_token_hash r <> SecurityUtils.hash_token tok) ->
  rotate_refresh_token clock draws tok d = (Raise InvalidTokenException, d).
Proof.
  intros H. unfold rotate_refresh_token, bind, get, get_refresh_token, Sql.select.
  rewrite SqlFacts.filter_none; [reflexivity|].
  intros r Hr. apply String.eqb_neq. now apply H.
Qed.

Import Samples AuthSamples.

(** C1 fails on the code.  Whenever the presented token is stored as the
    previous hash of a session and is the current token of none, the request
    is rejected as an invalid token and nothing is written: the session is
    not revoked and the reuse-detection error is not raised.  So it is in
    the scenario of the specification: session S is rotated from T1 to T2,
    which stores the hash of T1 as the previous hash, and T1 is presented
    again. *)
Theorem replayed_token_goes_undetected :
  (forall clock draws tok d row,
      In row (auth_sessions d) ->
      last_token_hash row = Some (SecurityUtils.hash_token tok) ->
      (forall r, In r (auth_sessions d) ->
                 refresh_token_hash r <> SecurityUtils.hash_token tok) ->
      rotate_refresh_token clock draws tok d = (Raise InvalidTokenException, d))
  /\ (exists resp,
        rotate_refresh_token at_10_minutes draws "T1" db0 = (Ok resp, db1)
        /\ refresh_token resp = "T2")
  /\ map last_token_hash (auth_sessions db1) = [Some (SecurityUtils.hash_token "T1")]
  /\ rotate_refresh_token at_10_minutes draws "T1" db1 = (Raise InvalidTokenException, db1)
  /\ map revoked (auth_sessions db1) = [false].
Proof.
  split; [intros clock draws0 tok d row _ _ H; now apply unknown_hash_is_invalid|].
  split; [eexists; split; vm_compute; reflexivity|].
  split; [vm_compute; reflexivity|].
  split; [|vm_compute; reflexivity].
  apply unknown_hash_is_invalid.
  vm_compute. intros r [<-|[]]. simpl. discriminate.
Qed.

(** C7 as stated fails: a session whose absolute expiry is in the past,
    and whose sliding expiry is too, is rejected but not revoked. *)
Lemma hard_expired_session_is_not_revoked :
  absolute_expires_at session0 < now_hard at_25_hours
  /\ rotate_refresh_token at_25_hours draws "T1" db0 = (Raise ExpiredTokenException, db0)
  /\ map revoked (auth_sessions db0) = [false].
Proof. split; [vm_compute; reflexivity|]. split; vm_compute; reflexivity. Qed.

Lemma revoke_session_revokes (sid : string) (d : DB) (r : AuthSession.t) :
  In r (auth_sessions (revoke_session sid d)) -> session_id r = sid -> revoked r = true.
Proof.
  unfold revoke_session, Sql.update. destruct d as [us tc ss tm ps]. simpl.
  intros Hin Hsid. apply in_map_iff in Hin. destruct Hin as (x & Hx & _).
  destruct (String.eqb (session_id x) sid) eqn:E; subst r; [reflexivity|].
  apply String.eqb_neq in E. contradiction.
Qed.

(** C7, amended: for a request whose token is the current token of an
    unrevoked session of an active user, a sliding expiry in the past
    rejects the request and writes nothing, whatever the absolute expiry;
    when the sliding expiry is not in the past and the absolute expiry is,
    the session is revoked and the request rejected. *)
Theorem expiry_checks (clock : Clock) (draws : nat -> Draw) (tok : string) (d : DB)
        (row : AuthSession.t) (row_user : User.t) :
  get_refresh_token (SecurityUtils.hash_token tok) (auth_sessions d) = Some row ->
  user_of row d = Some row_user -> User.is_active row_user = true ->
  revoked row = false ->
  (AuthSession.expires_at row < now_soft clock ->
     rotate_refresh_token clock draws tok d = (Raise ExpiredTokenException, d))
  /\ (now_soft clock <= AuthSession.expires_at row -> absolute_expires_at row < now_hard clock ->
      rotate_refresh_token clock draws tok d
      = (Raise ExpiredTokenException, revoke_session (session_id row) d)
      /\ forall r, In r (auth_sessions (revoke_session (session_id row) d)) ->
                   session_id r = session_id row -> revoked r = true).
Proof.
  intros Hrow Huser Hactive Hrev. unfold user_of in Huser. split.
  - intros Hsoft. unfold rotate_refresh_token, bind, get.
    rewrite Hrow, Huser, Hactive, Hrev. simpl.
    replace (AuthSession.expires_at row <? now_soft clock) with true by (symmetry; now apply Z.ltb_lt).
    reflexivity.
  - intros Hsoft Hhard. split.
    + unfold rotate_refresh_token, bind, get.
      rewrite Hrow, Huser, Hactive, Hrev. simpl.
      replace (AuthSession.expires_at row <? now_soft clock) with false
        by (symmetry; apply Z.ltb_ge; lia).
      replace (absolute_expires_at row <? now_hard clock) with true
        by (symmetry; now apply Z.ltb_lt).
      reflexivity.
    + intros r. apply revoke_session_revokes.
Qed.

Lemma expiry_checks_witness :
  rotate_refresh_token at_25_hours draws "T1" db0 = (Raise ExpiredTokenException, db0)
  /\ rotate_refresh_token at_24_hours_10 draws "T1" db_late
     = (Raise ExpiredTokenException, revoke_session "S" db_late)
  /\ map revoked (auth_sessions (revoke_session "S" db_late)) = [true].
Proof.
  assert (H0 : get_refresh_token (SecurityUtils.hash_token "T1") (auth_sessions db0)
               = Some session0) by (vm_compute; reflexivity).
  assert (H1 : get_refresh_token (SecurityUtils.hash_token "T1") (auth_sessions db_late)
               = Some session_late) by (vm_compute; reflexivity).
  split; [|split].
  - apply (expiry_checks at_25_hours draws "T1" db0 session0 bob H0); try reflexivity.
  - apply (expiry_checks at_24_hours_10 draws "T1" db_late session_late bob H1);
      try reflexivity. vm_compute. discriminate.
  - reflexivity.
Defined.
End AuthFacts.

(** ** The operation ledgers: status transitions and restart *)

Module LedgerFacts.
Import LedgerVocabulary LedgerSamples.
Module TMRepo := TrainModelRepository.
Module PRepo := PredictionRepository.

Lemma moves_update {R} (id : R -> Z) (status : R -> RowStatus)
      (P : RowStatus -> RowStatus -> Prop) (c : R -> bool) (f : R -> R) (t : list R) :
  (forall r, c r = true -> id r = id (f r) /\ P (status r) (status (f r))) ->
  moves id status P t (Sql.update c f t).
Proof.
  intros H. unfold moves.
  eapply Forall2_impl; [|apply SqlFacts.update_rows].
  intros r r' [[Hc ->]|[Hc ->]].
  - destruct (H r Hc) as [Hid HP]. split; [exact Hid|now right].
  - split; [reflexivity|now left].
Qed.

Lemma tm_mark_applied_rows (i : Z) (m : json) (t : list TrainedModel.t) :
  snd (TMRepo.mark_applied i m t)
  = Sql.update (fun r => (TrainedModel.id r =? i)
                         && RowStatus_eqb (TrainedModel.status r) pending)
               (fun r => TrainedModel.with_status_metrics r applied m) t.
Proof.
  unfold TMRepo.mark_applied. destruct (Sql.scalar_one_or_none _) as [[?|]|]; reflexivity.
Qed.

Lemma p_mark_applied_rows (i : Z) (res : string) (t : list Prediction.t) :
  snd (PRepo.mark_applied i res t)
  = Sql.update (fun r => (Prediction.id r =? i)
                         && RowStatus_eqb (Prediction.status r) pending)
               (fun r => Prediction.with_status_result r applied res) t.
Proof.
  unfold PRepo.mark_applied. destruct (Sql.scalar_one_or_none _) as [[?|]|]; reflexivity.
Qed.

Lemma RowStatus_eqb_eq (a b : RowStatus) : RowStatus_eqb a b = true -> a = b.
Proof. destruct a, b; simpl; congruence. Qed.

(** C6 as stated fails: [mark_failed] selects by id alone, so a row in
    status applied leaves that status. *)
Lemma applied_row_is_marked_failed :
  let row := TrainedModel.with_status stale_model applied in
  TrainedModel.status row = applied
  /\ TMRepo.mark_failed 1 [row] = (true, [TrainedModel.with_status row failed])
  /\ TrainedModel.status (TrainedModel.with_status row failed) = failed.
Proof. repeat split. Qed.

(** C6, amended: [mark_applied] moves rows from pending to applied
    only, [restart_existing_row] from failed to pending only,
    [try_insert_pending] adds at most a pending row and touches no other,
    and [mark_failed] moves the row of the id to failed from whatever
    status it has, applied included.  So applied is left only for failed,
    and failed is left only for pending. *)
Theorem status_transitions :
  (forall i m t,
      moves TrainedModel.id TrainedModel.status pending_to_applied
            t (snd (TMRepo.mark_applied i m t)))
  /\ (forall uid fp t,
      moves TrainedModel.id TrainedModel.status failed_to_pending
            t (snd (TMRepo.restart_existing_row uid fp t)))
  /\ (forall i t,
      moves TrainedModel.id TrainedModel.status any_to_failed
            t (snd (TMRepo.mark_failed i t)))
  /\ (forall uid mt fs ps l sch fp path t,
      snd (TMRepo.try_insert_pending uid mt fs ps l sch fp path t) = t
      \/ exists r, snd (TMRepo.try_insert_pending uid mt fs ps l sch fp path t) = t ++ [r]
                   /\ TrainedModel.status r = pending)
  /\ (forall i res t,
      moves Prediction.id Prediction.status pending_to_applied
            t (snd (PRepo.mark_applied i res t)))
  /\ (forall uid fp t,
      moves Prediction.id Prediction.status failed_to_pending
            t (snd (PRepo.restart_existing_row uid fp t)))
  /\ (forall i t,
      moves Prediction.id Prediction.status any_to_failed
            t (snd (PRepo.mark_failed i t)))
  /\ (forall uid mid mt inp fp t,
      snd (PRepo.try_insert_pending uid mid mt inp fp t) = t
      \/ exists r, snd (PRepo.try_insert_pending uid mid mt inp fp t) = t ++ [r]
                   /\ Prediction.status r = pending)
  /\ (forall i t r,
      In r t -> TrainedModel.id r = i ->
      In (TrainedModel.with_status r failed) (snd (TMRepo.mark_failed i t)))
  /\ (forall i t r,
      In r t -> Prediction.id r = i ->
      In (Prediction.with_status r failed) (snd (PRepo.mark_failed i t))).
Proof.
  repeat match goal with |- _ /\ _ => split end.
  - intros i m t. rewrite tm_mark_applied_rows. apply moves_update.
    intros r Hc. apply andb_prop in Hc. destruct Hc as [_ Hs].
    apply RowStatus_eqb_eq in Hs. split; [reflexivity|]. split; [exact Hs|reflexivity].
  - intros uid fp t. unfold TMRepo.restart_existing_row. simpl. apply moves_update.
    intros r Hc. apply andb_prop in Hc. destruct Hc as [_ Hs].
    apply RowStatus_eqb_eq in Hs. split; [reflexivity|]. split; [exact Hs|reflexivity].
  - intros i t. unfold TMRepo.mark_failed. simpl. apply moves_update.
    intros r _. split; reflexivity.
  - intros. unfold TMRepo.try_insert_pending.
    destruct (existsb _ t); simpl; [now left|right]. eexists. split; reflexivity.
  - intros i res t. rewrite p_mark_applied_rows. apply moves_update.
    intros r Hc. apply andb_prop in Hc. destruct Hc as [_ Hs].
    apply RowStatus_eqb_eq in Hs. split; [reflexivity|]. split; [exact Hs|reflexivity].
  - intros uid fp t. unfold PRepo.restart_existing_row. simpl. apply moves_update.
    intros r Hc. apply andb_prop in Hc. destruct Hc as [_ Hs].
    apply RowStatus_eqb_eq in Hs. split; [reflexivity|]. split; [exact Hs|reflexivity].
  - intros i t. unfold PRepo.mark_failed. simpl. apply moves_update.
    intros r _. split; reflexivity.
  - intros. unfold PRepo.try_insert_pending.
    destruct (existsb _ t); simpl; [now left|right]. eexists. split; reflexivity.
  - intros i t r Hin Hid. unfold TMRepo.mark_failed, Sql.update. simpl.
    apply in_map_iff. exists r. split; [|exact Hin].
    replace (TrainedModel.id r =? i) with true by (symmetry; now apply Z.eqb_eq).
    reflexivity.
  - intros i t r Hin Hid. unfold PRepo.mark_failed, Sql.update. simpl.
    apply in_map_iff. exists r. split; [|exact Hin].
    replace (Prediction.id r =? i) with true by (symmetry; now apply Z.eqb_eq).
    reflexivity.
Qed.

Lemma status_transitions_witness :
  In stale_model [stale_model] /\ TrainedModel.id stale_model = 1
  /\ In (TrainedModel.with_status stale_model failed) (snd (TMRepo.mark_failed 1 [stale_model]))
  /\ moves TrainedModel.id TrainedModel.status failed_to_pending
           [stale_model] (snd (TMRepo.restart_existing_row 2 "fp" [stale_model])).
Proof.
  destruct status_transitions as (_ & Hrestart & _ & _ & _ & _ & _ & _ & Hfail & _).
  split; [left; reflexivity|]. split; [reflexivity|].
  split; [apply Hfail; [left; reflexivity|reflexivity]|apply Hrestart].
Defined.


(** the restart of a training row clears its metrics *)
Lemma training_restart_clears_metrics (uid : Z) (fp : string) (t : list TrainedModel.t)
      (r : TrainedModel.t) :
  In r t -> TMRepo.owned uid fp r = true -> TrainedModel.status r = failed ->
  In (TrainedModel.with_status_metrics r pending JNull)
     (snd (TMRepo.restart_existing_row uid fp t)).
Proof.
  intros Hin Ho Hs. unfold TMRepo.restart_existing_row, Sql.update. simpl.
  apply in_map_iff. exists r. split; [|exact Hin]. rewrite Ho, Hs. reflexivity.
Qed.

(** without a failed row of the fingerprint the restart returns None and
    changes nothing, for both kinds *)
Lemma restart_without_failed_row :
  (forall uid fp t,
      (forall r, In r t -> TMRepo.owned uid fp r = true -> TrainedModel.status r <> failed) ->
      TMRepo.restart_existing_row uid fp t = (Ok None, t))
  /\ (forall uid fp t,
      (forall r, In r t -> PRepo.owned uid fp r = true -> Prediction.status r <> failed) ->
      PRepo.restart_existing_row uid fp t = (Ok None, t)).
Proof.
  split; intros uid fp t H.
  - unfold TMRepo.restart_existing_row, Sql.returning.
    assert (Hc : forall r, In r t ->
                           TMRepo.owned uid fp r
                           && RowStatus_eqb (TrainedModel.status r) failed = false).
    { intros r Hr. destruct (TMRepo.owned uid fp r) eqn:Ho; [|reflexivity].
      specialize (H r Hr Ho). destruct (TrainedModel.status r); try reflexivity.
      congruence. }
    rewrite SqlFacts.filter_none, SqlFacts.update_none by exact Hc. reflexivity.
  - unfold PRepo.restart_existing_row, Sql.returning.
    assert (Hc : forall r, In r t ->
                           PRepo.owned uid fp r
                           && RowStatus_eqb (Prediction.status r) failed = false).
    { intros r Hr. destruct (PRepo.owned uid fp r) eqn:Ho; [|reflexivity].
      specialize (H r Hr Ho). destruct (Prediction.status r); try reflexivity.
      congruence. }
    rewrite SqlFacts.filter_none, SqlFacts.update_none by exact Hc. reflexivity.
Qed.

End LedgerFacts.

(** ** Replay of an applied operation *)

Module ServiceFacts.
Import ServiceSamples.
Module TMS := TrainModelService.
Module PS := PredictionService.
Module TMRepo := TrainModelRepository.
Module PRepo := PredictionRepository.
Module URepo := UserRepository.

Lemma world_same (w : World) : mkWorld (database w) (os w) (compute_runs w) = w.
Proof. destruct w; reflexivity. Qed.

Lemma set_trained_models_same (d : DB) : set_trained_models d (trained_models d) = d.
Proof. destruct d; reflexivity. Qed.

Lemma set_predictions_same (d : DB) : set_predictions d (predictions d) = d.
Proof. destruct d; reflexivity. Qed.

Lemma one_or_none_some {A} (l : list A) (x : A) :
  Sql.scalar_one_or_none l = Ok (Some x) -> l = [x].
Proof. destruct l as [|a [|b l]]; simpl; intros H; inversion H; reflexivity. Qed.

Lemma filter_nonempty {A} (c : A -> bool) (t : list A) (x : A) (l : list A) :
  filter c t = x :: l -> existsb c t = true.
Proof.
  intros H. apply existsb_exists. exists x.
  apply filter_In. rewrite H. now left.
Qed.

Lemma tm_row_present (uid : Z) (fp : string) (t : list TrainedModel.t) (x : TrainedModel.t) :
  TMRepo.get_by_user_fingerprint uid fp t = Ok (Some x) ->
  existsb (TMRepo.owned uid fp) t = true.
Proof.
  unfold TMRepo.get_by_user_fingerprint, Sql.select. rewrite map_id.
  intros H. apply one_or_none_some in H. eapply filter_nonempty; eauto.
Qed.

Lemma p_row_present (uid : Z) (fp : string) (t : list Prediction.t) (x : Prediction.t) :
  PRepo.get_by_user_fingerprint uid fp t = Ok (Some x) ->
  existsb (PRepo.owned uid fp) t = true.
Proof.
  unfold PRepo.get_by_user_fingerprint, Sql.select. rewrite map_id.
  intros H. apply one_or_none_some in H. eapply filter_nonempty; eauto.
Qed.

Lemma training_replay (worker : TMS.worker_outcome) (user : User.t) (file mt_c : string)
      (feats_c : list string) (label_c : string) (params_n params_fp schema : json)
      (action : ActionType) (w : World) (fp : string) (existing : TrainedModel.t) (b : Z) :
  FingerprintHashing.compute_training_fingerprint
    file (Json.sorted_strs feats_c) label_c mt_c params_fp "requirements.txt" (os w) = Ok fp ->
  TMRepo.get_by_user_fingerprint (User.id user) fp (trained_models (database w))
  = Ok (Some existing) ->
  TrainedModel.status existing = applied ->
  URepo.get_tokens_by_id (User.id user) (users (database w)) = Ok b ->
  TMS.train_model worker user file mt_c feats_c label_c params_n params_fp schema action w
  = (Ok (TMS.mkResponse existing false b), w).
Proof.
  intros Hfp Hrow Hst Hbal.
  unfold TMS.train_model, bind, get, of_result. rewrite Hfp.
  unfold on_db, on_trained_models, TMRepo.try_insert_pending.
  rewrite (tm_row_present _ _ _ _ Hrow).
  rewrite set_trained_models_same, world_same, Hrow, Hst, Hbal.
  reflexivity.
Qed.

(** the guard of [predict] reads and writes nothing *)
Lemma load_guard_same_world (load : PS.load_outcome) (uid mid : Z) (w : World) :
  snd (PS._load_model_row_for_user load uid mid w) = w.
Proof.
  unfold PS._load_model_row_for_user, bind, get, of_result.
  destruct (PRepo.get_model_for_user_applied _ _ _) as [[row|]|]; simpl; try reflexivity.
  destruct (negb _); [reflexivity|]. destruct load; reflexivity.
Qed.

Lemma prediction_replay (load : PS.load_outcome) (run : PS.predict_outcome) (user : User.t)
      (request : PS.PredictionRequest) (action : ActionType) (w : World)
      (tm_row : TrainedModel.t) (existing : Prediction.t) (b : Z) :
  fst (PS._load_model_row_for_user load (User.id user) (PS.model_id request) w) = Ok tm_row ->
  PRepo.get_by_user_fingerprint
    (User.id user)
    (FingerprintHashing.compute_prediction_fingerprint
       (TrainedModel.id tm_row) (PS.feature_values request))
    (predictions (database w)) = Ok (Some existing) ->
  Prediction.status existing = applied ->
  URepo.get_tokens_by_id (User.id user) (users (database w)) = Ok b ->
  PS.predict load run user request action w = (Ok (PS.mkResponse existing false b), w).
Proof.
  intros Hload Hrow Hst Hbal.
  pose proof (load_guard_same_world load (User.id user) (PS.model_id request) w) as Hw.
  unfold PS.predict, bind at 1.
  destruct (PS._load_model_row_for_user _ _ _ w) as [r w']. simpl in Hload, Hw. subst r w'.
  unfold bind, get, of_result, on_db, on_predictions, PRepo.try_insert_pending.
  rewrite (p_row_present _ _ _ _ Hrow).
  rewrite set_predictions_same, world_same, Hrow, Hst, Hbal.
  reflexivity.
Qed.

Lemma prediction_guard_rejects (load : PS.load_outcome) (run : PS.predict_outcome)
      (user : User.t) (request : PS.PredictionRequest) (action : ActionType) (w : World)
      (e : Exn) :
  fst (PS._load_model_row_for_user load (User.id user) (PS.model_id request) w) = Raise e ->
  PS.predict load run user request action w = (Raise e, w).
Proof.
  intros Hload.
  pose proof (load_guard_same_world load (User.id user) (PS.model_id request) w) as Hw.
  unfold PS.predict, bind at 1.
  destruct (PS._load_model_row_for_user _ _ _ w) as [r w']. simpl in Hload, Hw. subst r w'.
  reflexivity.
Qed.

(** C2 as stated fails for a prediction: the row of the fingerprint is
    applied and holds the result "cat", but the artifact of the model is
    gone, and the request is rejected instead of answered from the row. *)
Lemma replay_is_refused_without_artifact :
  (exists row,
      PRepo.get_by_user_fingerprint
        1 (FingerprintHashing.compute_prediction_fingerprint 1 (PS.feature_values request0))
        (predictions (database world_artifact_lost)) = Ok (Some row)
      /\ Prediction.status row = applied
      /\ Prediction.prediction_result row = "cat")
  /\ PS.predict PS.Loaded (PS.Predicted "dog") rich request0 PREDICTION world_artifact_lost
     = (Raise ArtifactMissingException, world_artifact_lost).
Proof.
  split.
  - exists predicted_row. split; [vm_compute; reflexivity|split; reflexivity].
  - vm_compute. reflexivity.
Qed.

(** C2, amended: a training submission whose (owner, fingerprint) row is
    applied is answered with that row, uncharged, and the database, the
    disk and the count of compute launches are as before.  A prediction
    submission is answered in the same way provided the guard that
    precedes the ledger passes (the model is an applied model of the owner
    and its artifact loads); when the guard raises, the request is rejected
    with that error, again with nothing written and no compute launched. *)
Theorem applied_row_is_replayed :
  (forall worker user file mt_c feats_c label_c params_n params_fp schema action w
          fp existing b,
      FingerprintHashing.compute_training_fingerprint
        file (Json.sorted_strs feats_c) label_c mt_c params_fp "requirements.txt" (os w)
      = Ok fp ->
      TMRepo.get_by_user_fingerprint (User.id user) fp (trained_models (database w))
      = Ok (Some existing) ->
      TrainedModel.status existing = applied ->
      URepo.get_tokens_by_id (User.id user) (users (database w)) = Ok b ->
      TMS.train_model worker user file mt_c feats_c label_c params_n params_fp schema action w
      = (Ok (TMS.mkResponse existing false b), w))
  /\ (forall load run user request action w tm_row existing b,
      fst (PS._load_model_row_for_user load (User.id user) (PS.model_id request) w)
      = Ok tm_row ->
      PRepo.get_by_user_fingerprint
        (User.id user)
        (FingerprintHashing.compute_prediction_fingerprint
           (TrainedModel.id tm_row) (PS.feature_values request))
        (predictions (database w)) = Ok (Some existing) ->
      Prediction.status existing = applied ->
      URepo.get_tokens_by_id (User.id user) (users (database w)) = Ok b ->
      PS.predict load run user request action w = (Ok (PS.mkResponse existing false b), w))
  /\ (forall load run user request action w e,
      fst (PS._load_model_row_for_user load (User.id user) (PS.model_id request) w)
      = Raise e ->
      PS.predict load run user request action w = (Raise e, w)).
Proof.
  split; [|split].
  - intros. eapply training_replay; eauto.
  - intros. eapply prediction_replay; eauto.
  - intros. now apply prediction_guard_rejects.
Qed.

Lemma applied_row_is_replayed_witness :
  train (TMS.WorkerCancelled None) world_trained
  = (Ok (TMS.mkResponse trained_row false 10), world_trained)
  /\ PS.predict PS.Loaded (PS.Predicted "dog") rich request0 PREDICTION world_predicted
     = (Ok (PS.mkResponse predicted_row false 5), world_predicted)
  /\ Prediction.prediction_result predicted_row = "cat"
  /\ PS.predict PS.Loaded (PS.Predicted "dog") rich request0 PREDICTION world_artifact_lost
     = (Raise ArtifactMissingException, world_artifact_lost).
Proof.
  destruct applied_row_is_replayed as (Htrain & Hpredict & Hguard).
  split; [|split; [|split]].
  - apply (Htrain (TMS.WorkerCancelled None) rich "upload.csv" "linear" ["x"] "y"
                  params0 params0 schema0 TRAINING world_trained fp0 trained_row 10).
    + vm_compute. reflexivity.
    + vm_compute. reflexivity.
    + reflexivity.
    + vm_compute. reflexivity.
  - apply (Hpredict PS.Loaded (PS.Predicted "dog") rich request0 PREDICTION world_predicted
                    trained_row predicted_row 5).
    + vm_compute. reflexivity.
    + vm_compute. reflexivity.
    + reflexivity.
    + vm_compute. reflexivity.
  - reflexivity.
  - apply (Hguard PS.Loaded (PS.Predicted "dog") rich request0 PREDICTION
                  world_artifact_lost ArtifactMissingException).
    vm_compute. reflexivity.
Defined.

(** the publish failure of [train_model]: the row was charged and
    applied, the rename fails, and the row is marked failed with the
    metrics of the run still on it *)
Lemma publish_failure_fails_the_applied_row :
  fst (train worker_ok world_denied) = Raise ArtifactWriteException
  /\ map TrainedModel.status (trained_models (database (snd (train worker_ok world_denied))))
     = [failed]
  /\ map TrainedModel.metrics (trained_models (database (snd (train worker_ok world_denied))))
     = [metrics0]
  /\ map User.tokens (users (database (snd (train worker_ok world_denied)))) = [10].
Proof. split; [|split; [|split]]; vm_compute; reflexivity. Qed.
End ServiceFacts.

(** ** The startup reconciler *)

Module ReconcilerFacts.
Import Reconciler ReconcilerVocabulary ReconcilerSamples.

(** inside a transaction the best-effort flip does nothing: [begin()]
    raises and the exception is suppressed *)
Lemma mark_failed_safely_in_transaction (tm_id : Z) (st : St) (d d' : DB) :
  session st = Session.mk d (Some d') -> mark_failed_safely tm_id st = (Ok tt, st).
Proof.
  intros H. unfold mark_failed_safely, try_except, on_session, Session.begin_block.
  rewrite H. simpl. rewrite <- H. destruct st; reflexivity.
Qed.

(** on a session that is in no transaction the same call does what its
    docstring says: the row is flipped and the flip committed *)
Lemma mark_failed_safely_outside_transaction (tm_id : Z) (d : DB) (o : Os.t) :
  mark_failed_safely tm_id (mkSt (Session.open d) o)
  = (Ok tt,
     mkSt (Session.open
             (set_trained_models d (snd (TrainModelRepository.mark_failed
                                           tm_id (trained_models d))))) o).
Proof. reflexivity. Qed.

Lemma keeps_bind (m k : M St unit) :
  keeps_session m -> keeps_session k -> keeps_session (bind m (fun _ => k)).
Proof.
  intros Hm Hk st d d' H. unfold bind. specialize (Hm st d d' H).
  destruct (m st) as [[[]|e] st1]; simpl in *; [now apply Hk|exact Hm].
Qed.

Lemma keeps_mark_failed_safely (tm_id : Z) : keeps_session (mark_failed_safely tm_id).
Proof.
  intros st d d' H. now rewrite (mark_failed_safely_in_transaction tm_id st d d' H).
Qed.

Lemma keeps_on_disk (f : Os.t -> result unit * Os.t) : keeps_session (on_disk f).
Proof. intros st d d' H. unfold on_disk. destruct (f (disk st)); exact H. Qed.

Lemma keeps_ret : keeps_session (ret tt).
Proof. intros st d d' H. exact H. Qed.

Lemma keeps_raise (e : Exn) : keeps_session (raise e).
Proof. intros st d d' H. exact H. Qed.

Lemma keeps_get_bind (k : St -> M St unit) :
  (forall x, keeps_session (k x)) -> keeps_session (bind get k).
Proof. intros Hk st d d' H. unfold bind, get. now apply Hk. Qed.

Lemma keeps_try_except (m : M St unit) (h : Exn -> M St unit) :
  keeps_session m -> (forall e, keeps_session (h e)) -> keeps_session (try_except m h).
Proof.
  intros Hm Hh st d d' H. unfold try_except. specialize (Hm st d d' H).
  destruct (m st) as [[[]|e] st1]; simpl in *; [exact Hm|now apply Hh].
Qed.

Lemma keeps_finish (tm_id : Z) (final_path : option string) :
  keeps_session (finish_publish_or_fail tm_id final_path).
Proof.
  unfold finish_publish_or_fail. apply keeps_get_bind. intros st0.
  destruct (_inspect_paths final_path (disk st0)) as [[[fp tp] fe] te].
  destruct fp as [fp|]; [|apply keeps_mark_failed_safely].
  destruct fe; [apply keeps_ret|].
  destruct te, tp as [tp|]; try apply keeps_mark_failed_safely.
  apply keeps_try_except; [apply keeps_on_disk|].
  intros e. destruct e; try apply keeps_raise.
  apply keeps_bind; [apply keeps_mark_failed_safely|].
  apply keeps_bind; apply keeps_on_disk.
Qed.

Lemma keeps_fail_pending (tm_id : Z) (final_path : option string) :
  keeps_session (fail_pending_and_clean_tmp tm_id final_path).
Proof.
  unfold fail_pending_and_clean_tmp.
  apply keeps_bind; [apply keeps_mark_failed_safely|].
  destruct final_path as [[|c p]|]; [apply keeps_ret|apply keeps_on_disk|apply keeps_ret].
Qed.

Lemma keeps_for_each {A} (f : A -> M St unit) (l : list A) :
  (forall x, keeps_session (f x)) -> keeps_session (for_each f l).
Proof.
  intros H. induction l as [|x l IH]; simpl; [apply keeps_ret|].
  apply keeps_bind; [apply H|exact IH].
Qed.

Lemma keeps_select_bind (s : RowStatus) (k : list (Z * string) -> M St unit) :
  (forall rows, keeps_session (k rows)) ->
  keeps_session (bind (on_session (Session.execute (select_id_path s))) k).
Proof.
  intros Hk st d d' H. unfold bind, on_session, Session.execute, select_id_path.
  rewrite H. simpl. now apply Hk.
Qed.

Lemma keeps_reconcile_trained : keeps_session reconcile_trained_models_on_startup.
Proof.
  unfold reconcile_trained_models_on_startup.
  apply keeps_select_bind. intros applied_rows.
  apply keeps_bind.
  - apply keeps_for_each. intros x. apply keeps_finish.
  - apply keeps_select_bind. intros pendings.
    apply keeps_for_each. intros x. apply keeps_fail_pending.
Qed.

(** the first statement of the reconciler begins the transaction *)
Lemma reconcile_trained_autobegins (d : DB) (o : Os.t) :
  reconcile_trained_models_on_startup (mkSt (Session.open d) o)
  = reconcile_trained_models_on_startup (mkSt (Session.mk d (Some d)) o).
Proof. reflexivity. Qed.

(** the reconciler of the training rows changes no row, neither in the
    committed database nor in the view of its session *)
Lemma training_reconciler_writes_no_row (d : DB) (o : Os.t) :
  session (snd (reconcile_trained_models_on_startup (mkSt (Session.open d) o)))
  = Session.mk d (Some d).
Proof.
  rewrite reconcile_trained_autobegins.
  apply (keeps_reconcile_trained (mkSt (Session.mk d (Some d)) o) d d eq_refl).
Qed.

(** nothing the reconcilers do is committed: the service starts from the
    database the crash left *)
Lemma startup_commits_nothing (d : DB) (o : Os.t) :
  snd (fst (on_startup d o)) = d.
Proof.
  unfold on_startup, bind.
  pose proof (training_reconciler_writes_no_row d o) as H.
  destruct (reconcile_trained_models_on_startup _) as [[[]|e] st]; simpl in *.
  - unfold reconcile_predictions_on_startup, on_session, Session.execute, on_predictions.
    rewrite H. reflexivity.
  - rewrite H. reflexivity.
Qed.

(** C5 fails on the code.  Whatever the database and the disk at
    startup, the reconcilers change no training row in their session and
    commit nothing, so the service starts from the rows the crash left.  At
    the crashed state of the samples: the applied row that has no artifact
    is still applied and the pending rows, of both kinds, are still pending;
    only the files were dealt with (the temp artifact of row 2 published, the
    leftover of row 3 removed). *)
Theorem reconciler_leaves_rows_as_found :
  (forall d o,
      session (snd (reconcile_trained_models_on_startup (mkSt (Session.open d) o)))
      = Session.mk d (Some d))
  /\ (forall d o, snd (fst (on_startup d o)) = d)
  /\ on_startup crashed_db crashed_disk = (Ok tt, crashed_db, disk_after_startup)
  /\ map TrainedModel.status (trained_models crashed_db) = [applied; applied; pending]
  /\ map Prediction.status (predictions crashed_db) = [pending]
  /\ Os.path_exists "saved_models/1/a.pkl" disk_after_startup = false
  /\ Os.path_exists "saved_models/1/a.pkl.tmp" disk_after_startup = false.
Proof.
  split; [exact training_reconciler_writes_no_row|].
  split; [exact startup_commits_nothing|].
  split; [vm_compute; reflexivity|].
  split; [|split; [|split]]; reflexivity.
Qed.
End ReconcilerFacts.

(** ** Fingerprints *)

Module FingerprintFacts.
Import Json FingerprintHashing FingerprintVocabulary.
Module SO := OrderedTypeEx.String_as_OT.

(** *** The order on keys *)

Lemma leb_iff (a b : string) : String.leb a b = true <-> a = b \/ SO.lt a b.
Proof.
  unfold String.leb. destruct (String.compare a b) eqn:E.
  - apply SO.cmp_eq in E. tauto.
  - apply SO.cmp_lt in E. tauto.
  - split; [discriminate|]. intros [->|H].
    + assert (String.compare b b = Eq) by now apply SO.cmp_eq. congruence.
    + apply SO.cmp_lt in H. unfold SO.cmp in H. congruence.
Qed.

Lemma leb_trans (a b c : string) :
  String.leb a b = true -> String.leb b c = true -> String.leb a c = true.
Proof.
  rewrite !leb_iff. intros [->|H1] [->|H2]; auto.
  right. eapply SO.lt_trans; eauto.
Qed.

Lemma leb_false (a b : string) : String.leb a b = false -> String.leb b a = true.
Proof. intros H. destruct (String.leb_total a b); congruence. Qed.

(** *** [sorted] does not depend on the order of the items *)

Lemma insert_item_comm {A} (x y : string * A) (l : list (string * A)) :
  fst x <> fst y -> insert_item x (insert_item y l) = insert_item y (insert_item x l).
Proof.
  intros Hxy. induction l as [|z l IH]; simpl.
  - destruct (String.leb (fst x) (fst y)) eqn:Exy, (String.leb (fst y) (fst x)) eqn:Eyx;
      try reflexivity.
    + exfalso. apply Hxy. now apply String.leb_antisym.
    + apply leb_false in Exy. congruence.
  - destruct (String.leb (fst y) (fst z)) eqn:Eyz, (String.leb (fst x) (fst z)) eqn:Exz; simpl.
    + destruct (String.leb (fst x) (fst y)) eqn:Exy, (String.leb (fst y) (fst x)) eqn:Eyx;
        rewrite ?Exz, ?Eyz; try reflexivity.
      * exfalso. apply Hxy. now apply String.leb_antisym.
      * apply leb_false in Exy. congruence.
    + rewrite Eyz.
      destruct (String.leb (fst x) (fst y)) eqn:Exy.
      * rewrite (leb_trans _ _ _ Exy Eyz) in Exz. discriminate.
      * simpl. rewrite Exz. reflexivity.
    + rewrite Exz.
      destruct (String.leb (fst y) (fst x)) eqn:Eyx.
      * rewrite (leb_trans _ _ _ Eyx Exz) in Eyz. discriminate.
      * simpl. rewrite Eyz. reflexivity.
    + rewrite Eyz, Exz. f_equal. exact IH.
Qed.

Lemma sorted_items_perm {A} (l1 l2 : list (string * A)) :
  Permutation l1 l2 -> NoDup (map fst l1) -> sorted_items l1 = sorted_items l2.
Proof.
  induction 1 as [|x l1 l2 _ IH|x y l|l1 l2 l3 H12 IH12 H23 IH23]; intros Hnd.
  - reflexivity.
  - simpl. f_equal. apply IH. simpl in Hnd. now inversion Hnd.
  - simpl. apply insert_item_comm. simpl in Hnd. inversion Hnd as [|? ? Hy _]. subst.
    intros E. apply Hy. left. now symmetry.
  - rewrite IH12 by exact Hnd. apply IH23.
    eapply Permutation_NoDup; [|exact Hnd]. now apply Permutation_map.
Qed.

(** sorting looks at the keys only *)
Lemma insert_item_map {A B} (f : A -> B) (x : string * A) (l : list (string * A)) :
  insert_item (fst x, f (snd x)) (map (fun kv => (fst kv, f (snd kv))) l)
  = map (fun kv => (fst kv, f (snd kv))) (insert_item x l).
Proof.
  induction l as [|y l IH]; simpl; [reflexivity|].
  destruct (String.leb (fst x) (fst y)); simpl; [reflexivity|]. f_equal. exact IH.
Qed.

Lemma sorted_items_map {A B} (f : A -> B) (l : list (string * A)) :
  sorted_items (map (fun kv => (fst kv, f (snd kv))) l)
  = map (fun kv => (fst kv, f (snd kv))) (sorted_items l).
Proof.
  induction l as [|x l IH]; simpl; [reflexivity|].
  rewrite IH. apply insert_item_map.
Qed.

(** *** The digest *)

Lemma hex_digit_is_hex (n : Z) : is_hex (Hashlib.hex_digit n) = true.
Proof.
  unfold Hashlib.hex_digit.
  assert (H : (Z.to_nat (n mod 16) < 16)%nat).
  { pose proof (Z.mod_pos_bound n 16 ltac:(lia)). lia. }
  remember (Z.to_nat (n mod 16)) as k eqn:E. clear E.
  do 16 (destruct k as [|k]; [reflexivity|]). lia.
Qed.

Lemma hexdigest_is_digest (msg : list Byte.byte) : is_digest (Hashlib.sha256_hexdigest msg).
Proof.
  unfold is_digest, Hashlib.sha256_hexdigest, Hashlib.digest_words.
  generalize (fold_left Hashlib.compress
                (Hashlib.blocks (length (Hashlib.words (Hashlib.pad (map Hashlib.byteZ msg))))
                                (Hashlib.words (Hashlib.pad (map Hashlib.byteZ msg))))
                Hashlib.init).
  intros s. split; [reflexivity|].
  cbn [fold_right Hashlib.hex8 list_ascii_of_string forallb].
  rewrite !hex_digit_is_hex. reflexivity.
Qed.

(** *** Reading a file in chunks *)

Lemma chunks_concat (size : nat) (fuel : nat) (content : list Byte.byte) :
  (0 < size)%nat -> (length content <= fuel)%nat ->
  concat (chunks fuel size content) = content.
Proof.
  intros Hsize. revert content.
  induction fuel as [|fuel IH]; intros content Hlen.
  - destruct content; [reflexivity|simpl in Hlen; lia].
  - destruct content as [|b content]; [reflexivity|].
    cbn [chunks concat]. rewrite IH.
    + apply firstn_skipn.
    + rewrite length_skipn. cbn [length] in *. lia.
Qed.

Lemma file_sha256_of_content (path : string) (o : Os.t) (content : list Byte.byte) :
  Os.lookup path o = Some content ->
  file_sha256 path o = Ok (Hashlib.sha256_hexdigest content).
Proof.
  intros H. unfold file_sha256. rewrite H. rewrite chunks_concat; [reflexivity| |lia].
  unfold CHUNK. apply Nat.mul_pos_pos; apply Nat.lt_0_succ.
Qed.

(** *** Equal values have the same canonical text *)

Lemma render_fst (d : list (string * json)) : map fst (map render d) = map fst d.
Proof. rewrite map_map. apply map_ext. intros [k v]. reflexivity. Qed.

Lemma dumps_list (l : list json) :
  dumps (JList l) = ("[" ++ join "," (map dumps l) ++ "]")%string.
Proof. reflexivity. Qed.

Lemma dumps_dict (items : list (string * json)) :
  dumps (JDict items)
  = ("{" ++ join "," (map (fun kv => member (fst kv) (snd kv))
                          (sorted_items (map render items))) ++ "}")%string.
Proof. reflexivity. Qed.

Lemma wf_list (l : list json) : wf (JList l) <-> Forall wf l.
Proof.
  change (wf (JList l)) with (fold_right (fun x P => wf x /\ P) True l).
  induction l as [|x l IH]; simpl; split; intros H; auto.
  - destruct H. constructor; [assumption|now apply IH].
  - inversion H; subst. split; [assumption|now apply IH].
Qed.

Lemma wf_dict (items : list (string * json)) :
  wf (JDict items) <-> NoDup (map fst items) /\ Forall (fun kv => wf (snd kv)) items.
Proof.
  change (wf (JDict items))
    with (NoDup (map fst items)
          /\ fold_right (fun kv P => (let '(_, v) := kv in wf v) /\ P) True items).
  apply and_iff_compat_l.
  induction items as [|[k v] l IH]; simpl; split; intros H; auto.
  - destruct H. constructor; [assumption|now apply IH].
  - inversion H; subst. split; [assumption|now apply IH].
Qed.

Lemma py_eq_same_text :
  (forall a b, py_eq a b -> wf a -> wf b -> dumps a = dumps b)
  /\ (forall l1 l2, list_eq l1 l2 -> Forall wf l1 -> Forall wf l2 ->
                    map dumps l1 = map dumps l2)
  /\ (forall d1 d2, items_eq d1 d2 ->
                    Forall (fun kv => wf (snd kv)) d1 -> Forall (fun kv => wf (snd kv)) d2 ->
                    map render d1 = map render d2).
Proof.
  apply py_eq_mutind; try reflexivity.
  - intros l1 l2 _ IH H1 H2. rewrite !dumps_list.
    rewrite IH; [reflexivity|now apply wf_list|now apply wf_list].
  - intros d1 d2 d2' _ IH Hperm H1 H2. rewrite !dumps_dict.
    apply wf_dict in H1. apply wf_dict in H2. destruct H1 as [N1 F1], H2 as [N2 F2].
    assert (F2' : Forall (fun kv => wf (snd kv)) d2')
      by (eapply Permutation_Forall; [apply Permutation_sym; exact Hperm|exact F2]).
    rewrite (IH F1 F2').
    rewrite (sorted_items_perm (map render d2') (map render d2)); [reflexivity| |].
    + now apply Permutation_map.
    + rewrite render_fst. eapply Permutation_NoDup; [|exact N2].
      apply Permutation_map. now apply Permutation_sym.
  - intros x y l1 l2 _ IHx _ IHl H1 H2. inversion H1; inversion H2; subst.
    simpl. f_equal; auto.
  - intros k x y l1 l2 _ IHx _ IHl H1 H2. inversion H1; inversion H2; subst.
    simpl in *. f_equal; [|auto]. f_equal. auto.
Qed.

Lemma equal_dicts_render_alike (d1 d2 : list (string * json)) :
  py_eq (JDict d1) (JDict d2) -> wf (JDict d1) -> wf (JDict d2) ->
  sorted_items (map render d1) = sorted_items (map render d2).
Proof.
  intros Heq H1 H2. inversion Heq as [| | | | | |? ? d2' Hitems Hperm]; subst.
  apply wf_dict in H1. apply wf_dict in H2. destruct H1 as [N1 F1], H2 as [N2 F2].
  assert (F2' : Forall (fun kv => wf (snd kv)) d2')
    by (eapply Permutation_Forall; [apply Permutation_sym; exact Hperm|exact F2]).
  rewrite (proj2 (proj2 py_eq_same_text) d1 d2' Hitems F1 F2').
  apply sorted_items_perm; [now apply Permutation_map|].
  rewrite render_fst. eapply Permutation_NoDup; [|exact N2].
  apply Permutation_map. now apply Permutation_sym.
Qed.

Lemma prediction_features_text (fv : list (string * json)) :
  map dumps (map (fun kv => JList [JStr (fst kv); snd kv]) (sorted_items fv))
  = map (fun kt => ("[" ++ join "," [quote (fst kt); snd kt] ++ "]")%string)
        (sorted_items (map render fv)).
Proof.
  replace (map render fv) with (map (fun kv => (fst kv, dumps (snd kv))) fv)
    by (apply map_ext; intros [k v]; reflexivity).
  rewrite sorted_items_map, !map_map. apply map_ext. intros [k v]. reflexivity.
Qed.

(** C9: the fingerprint generators are deterministic.  Two training
    calls that read byte-identical datasets (under whatever path, in
    whatever process), with the same features, label and model type, equal
    parameters and the same pipeline version return the same digest; two
    prediction calls with the same model id and equal feature values
    return the same digest; a digest is 64 hexadecimal digits.  Parameters
    and feature values are equal as Python dicts are: the order of their
    items does not matter. *)
Theorem fingerprints_are_deterministic :
  (forall o1 o2 path1 path2 req1 req2 content feats label mt params1 params2,
      Os.lookup path1 o1 = Some content -> Os.lookup path2 o2 = Some content ->
      pipeline_version req1 o1 = pipeline_version req2 o2 ->
      wf params1 -> wf params2 -> py_eq params1 params2 ->
      exists fp,
        compute_training_fingerprint path1 feats label mt params1 req1 o1 = Ok fp
        /\ compute_training_fingerprint path2 feats label mt params2 req2 o2 = Ok fp
        /\ is_digest fp)
  /\ (forall mid fv1 fv2,
      wf (JDict fv1) -> wf (JDict fv2) -> py_eq (JDict fv1) (JDict fv2) ->
      compute_prediction_fingerprint mid fv1 = compute_prediction_fingerprint mid fv2
      /\ is_digest (compute_prediction_fingerprint mid fv1)).
Proof.
  split.
  - intros o1 o2 path1 path2 req1 req2 content feats label mt params1 params2
           Hf1 Hf2 Hpv W1 W2 Heq.
    assert (Hp : dumps params1 = dumps params2)
      by (apply (proj1 py_eq_same_text); assumption).
    unfold compute_training_fingerprint.
    rewrite (file_sha256_of_content _ _ _ Hf1), (file_sha256_of_content _ _ _ Hf2).
    eexists. split; [reflexivity|]. split; [|apply hexdigest_is_digest].
    unfold stable_json. rewrite !dumps_dict. cbn [map render]. rewrite Hp, Hpv.
    reflexivity.
  - intros mid fv1 fv2 W1 W2 Heq. split; [|apply hexdigest_is_digest].
    unfold compute_prediction_fingerprint, stable_json.
    rewrite !dumps_dict. cbn [map render].
    rewrite !dumps_list, !prediction_features_text.
    rewrite (equal_dicts_render_alike fv1 fv2 Heq W1 W2). reflexivity.
Qed.

Import FingerprintSamples.

Lemma hyper_equal : py_eq hyper1 hyper2.
Proof.
  apply (eq_dict _ _ [("kind", JStr "ols"); ("alpha", JFloat "0.1")]).
  - repeat constructor.
  - apply perm_swap.
Defined.

Lemma values_equal : py_eq (JDict values1) (JDict values2).
Proof.
  apply (eq_dict _ _ values1).
  - repeat constructor.
  - apply perm_swap.
Defined.

Lemma two_keys_wf (k1 k2 : string) (v1 v2 : json) :
  k1 <> k2 -> wf v1 -> wf v2 -> wf (JDict [(k1, v1); (k2, v2)]).
Proof.
  intros Hk H1 H2. apply wf_dict. split.
  - repeat constructor; simpl; intuition.
  - repeat constructor; assumption.
Defined.

Lemma fingerprints_witness :
  (exists fp,
      compute_training_fingerprint "/tmp/a.csv" ["x"] "y" "linear" hyper1
                                   "requirements.txt" process1 = Ok fp
      /\ compute_training_fingerprint "/tmp/b.csv" ["x"] "y" "linear" hyper2
                                      "requirements.txt" process2 = Ok fp
      /\ is_digest fp)
  /\ compute_prediction_fingerprint 7 values1 = compute_prediction_fingerprint 7 values2.
Proof.
  destruct fingerprints_are_deterministic as [Htrain Hpredict].
  split.
  - apply (Htrain process1 process2 "/tmp/a.csv" "/tmp/b.csv" "requirements.txt"
                  "requirements.txt" upload ["x"] "y" "linear" hyper1 hyper2).
    + reflexivity.
    + reflexivity.
    + reflexivity.
    + apply two_keys_wf; [discriminate|exact I|exact I].
    + apply two_keys_wf; [discriminate|exact I|exact I].
    + exact hyper_equal.
  - apply (Hpredict 7 values1 values2).
    + apply two_keys_wf; [discriminate|exact I|exact I].
    + apply two_keys_wf; [discriminate|exact I|exact I].
    + exact values_equal.
Defined.
End FingerprintFacts.

(** ** The embedding of the string methods agrees with CPython *)

Module StringChecks.
Import StringVocabulary.

(** [lower], [strip] and [repr] of the string of all 256 characters,
    hashed: the digests CPython gives *)
Lemma lower_of_every_char :
  Hashlib.sha256_hexdigest (Hashlib.encode_utf8 (PyStr.lower every_char))
  = "7c1df88146597532a6ee2f51213c3463ad17c1be12e3bd58e87ef8c5760a0c68".
Proof. vm_compute. reflexivity. Qed.

Lemma repr_of_every_char :
  Hashlib.sha256_hexdigest (Hashlib.encode_utf8 (PyStr.repr_str every_char))
  = "dc3239452303749a2706b142959903d0c75eb65ce05a6ea27b698d2566d793c9".
Proof. vm_compute. reflexivity. Qed.

Lemma blank_characters :
  map N_of_ascii (filter FingerprintHashing.is_space (list_ascii_of_string every_char))
  = [9; 10; 11; 12; 13; 28; 29; 30; 31; 32; 133; 160]%N.
Proof. vm_compute. reflexivity. Qed.

End StringChecks.

(** ** Python string methods *)

Module PyStrFacts.
Import FingerprintHashing PyStr StringVocabulary.

Lemma lstrip_headed (l : list ascii) : headed (lstrip_list l).
Proof.
  induction l as [|c l IH]; simpl; [exact I|].
  destruct (is_space c) eqn:E; [exact IH|exact E].
Qed.

Lemma lstrip_fixed (l : list ascii) : headed l -> lstrip_list l = l.
Proof. destruct l as [|c l]; simpl; intros H; [reflexivity|now rewrite H]. Qed.

Lemma lstrip_suffix (l : list ascii) : exists p, l = p ++ lstrip_list l.
Proof.
  induction l as [|c l [p Hp]]; simpl; [now exists []|].
  destruct (is_space c); [|now exists []].
  exists (c :: p). simpl. now f_equal.
Qed.

Lemma strip_list_idem (l : list ascii) : strip_list (strip_list l) = strip_list l.
Proof.
  unfold strip_list.
  set (x := lstrip_list l). set (z := lstrip_list (rev x)).
  assert (Hz : headed z) by apply lstrip_headed.
  assert (Hx : headed x) by apply lstrip_headed.
  assert (H1 : headed (rev z)).
  { destruct (lstrip_suffix (rev x)) as [p Hp]. fold z in Hp.
    assert (E : x = rev z ++ rev p)
      by (rewrite <- rev_app_distr, <- Hp, rev_involutive; reflexivity).
    destruct (rev z) as [|c r]; [exact I|]. rewrite E in Hx. exact Hx. }
  rewrite (lstrip_fixed (rev z) H1), rev_involutive, (lstrip_fixed z Hz).
  reflexivity.
Qed.

Lemma strip_as_list (s : string) :
  strip s = string_of_list_ascii (strip_list (list_ascii_of_string s)).
Proof. reflexivity. Qed.

(** stripping twice is stripping once *)
Lemma strip_idem (s : string) : strip (strip s) = strip s.
Proof.
  rewrite !strip_as_list, list_ascii_of_string_of_list_ascii, strip_list_idem.
  reflexivity.
Qed.

Lemma strip_is_name (s : string) : strip s <> EmptyString -> is_name (strip s).
Proof. intros H. split; [exact H|apply strip_idem]. Qed.

Lemma chars_length (s : string) : length (list_ascii_of_string s) = String.length s.
Proof. induction s as [|c s IH]; simpl; [reflexivity|now rewrite IH]. Qed.

End PyStrFacts.

(** ** The validators of a training request *)

Module ValidatorFacts.
Import Validators StringVocabulary ValidatorVocabulary.

Lemma fromkeys_fold (l : list string) : fromkeys l = fold_left add_key l [].
Proof. reflexivity. Qed.

Lemma add_keys_in (l acc : list string) (x : string) :
  In x (fold_left add_key l acc) <-> In x acc \/ In x l.
Proof.
  revert acc. induction l as [|a l IH]; intros acc; simpl; [tauto|].
  rewrite IH. unfold add_key. destruct (existsb (String.eqb a) acc) eqn:E.
  - split; [tauto|]. intros [H|[H|H]]; auto. subst x. left.
    apply existsb_exists in E. destruct E as (y & Hy & Heq).
    apply String.eqb_eq in Heq. now subst y.
  - rewrite in_app_iff. simpl. tauto.
Qed.

Lemma add_keys_nodup (l acc : list string) :
  NoDup acc -> NoDup (fold_left add_key l acc).
Proof.
  revert acc. induction l as [|a l IH]; intros acc H; simpl; [exact H|].
  apply IH. unfold add_key. destruct (existsb (String.eqb a) acc) eqn:E; [exact H|].
  apply (Permutation_NoDup (l := a :: acc)); [apply Permutation_cons_append|].
  constructor; [|exact H]. intros Hin.
  assert (existsb (String.eqb a) acc = true); [|congruence].
  apply existsb_exists. exists a. split; [exact Hin|apply String.eqb_refl].
Qed.

Lemma add_keys_fixed (l acc : list string) :
  NoDup (acc ++ l) -> fold_left add_key l acc = acc ++ l.
Proof.
  revert acc. induction l as [|a l IH]; intros acc H; simpl; [now rewrite app_nil_r|].
  unfold add_key at 2. destruct (existsb (String.eqb a) acc) eqn:E.
  - exfalso. apply existsb_exists in E. destruct E as (y & Hy & Heq).
    apply String.eqb_eq in Heq. subst y.
    apply NoDup_remove_2 in H. apply H. apply in_or_app. now left.
  - rewrite IH; rewrite <- app_assoc; [reflexivity|exact H].
Qed.

Lemma fromkeys_fixed (l : list string) : NoDup l -> fromkeys l = l.
Proof. intros H. rewrite fromkeys_fold. now apply (add_keys_fixed l []). Qed.

Lemma normalize_features_in (features : list string) (s : string) :
  In s (normalize_features features)
  <-> s <> EmptyString /\ exists f, In f features /\ PyStr.strip f = s.
Proof.
  unfold normalize_features. rewrite fromkeys_fold, add_keys_in, filter_In, in_map_iff.
  rewrite negb_true_iff, String.eqb_neq. simpl. split.
  - intros [[]|[(f & Hf & Hin) Hne]]. split; [exact Hne|]. now exists f.
  - intros [Hne (f & Hin & Hf)]. right. split; [|exact Hne]. now exists f.
Qed.

Lemma normalize_features_names (features : list string) :
  Forall is_name (normalize_features features).
Proof.
  apply Forall_forall. intros s Hs. apply normalize_features_in in Hs.
  destruct Hs as [Hne (f & _ & <-)]. now apply PyStrFacts.strip_is_name.
Qed.

Lemma names_are_kept (l : list string) :
  Forall is_name l ->
  filter (fun s => negb (String.eqb s EmptyString)) (map PyStr.strip l) = l.
Proof.
  induction 1 as [|s l [Hne Hs] _ IH]; simpl; [reflexivity|].
  rewrite Hs. apply String.eqb_neq in Hne. rewrite Hne. simpl. now f_equal.
Qed.

Lemma normalize_features_nodup (features : list string) :
  NoDup (normalize_features features).
Proof. unfold normalize_features. rewrite fromkeys_fold. apply add_keys_nodup. constructor. Qed.

Lemma normalize_features_fixed (l : list string) :
  NoDup l -> Forall is_name l -> normalize_features l = l.
Proof.
  intros Hnd Hn. unfold normalize_features. rewrite (names_are_kept l Hn).
  now apply fromkeys_fixed.
Qed.

(** X1: [normalize_features] returns every submitted name once, stripped,
    and no empty name; a list it returned is returned as it is. *)
Theorem normalize_features_is_canonical (features : list string) :
  NoDup (normalize_features features)
  /\ (forall s, In s (normalize_features features)
                <-> s <> EmptyString /\ exists f, In f features /\ PyStr.strip f = s)
  /\ Forall is_name (normalize_features features)
  /\ normalize_features (normalize_features features) = normalize_features features.
Proof.
  split; [apply normalize_features_nodup|].
  split; [apply normalize_features_in|].
  split; [apply normalize_features_names|].
  apply normalize_features_fixed;
    [apply normalize_features_nodup|apply normalize_features_names].
Qed.

(** *** The label, the features and the model type *)

Lemma existsb_eqb_in (x : string) (l : list string) :
  existsb (String.eqb x) l = true <-> In x l.
Proof.
  rewrite existsb_exists. split.
  - intros (y & Hy & E). apply String.eqb_eq in E. now subst y.
  - intros H. exists x. split; [exact H|apply String.eqb_refl].
Qed.

Lemma existsb_eqb_not_in (x : string) (l : list string) :
  existsb (String.eqb x) l = false <-> ~ In x l.
Proof.
  rewrite <- existsb_eqb_in. destruct (existsb (String.eqb x) l); split; congruence.
Qed.

Lemma ensure_label_valid_returns (columns : list string) (label lab : string) :
  ensure_label_valid columns label = Returns lab <->
  lab = PyStr.strip label /\ lab <> EmptyString /\ In lab columns.
Proof.
  unfold ensure_label_valid.
  destruct (String.eqb (PyStr.strip label) EmptyString) eqn:E.
  - apply String.eqb_eq in E. split; [discriminate|]. intros (-> & H & _). contradiction.
  - apply String.eqb_neq in E.
    destruct (existsb (String.eqb (PyStr.strip label)) columns) eqn:C; simpl.
    + apply existsb_eqb_in in C. split.
      * intros H. inversion H. subst lab. auto.
      * intros (-> & _ & _). reflexivity.
    + apply existsb_eqb_not_in in C. split; [discriminate|].
      intros (-> & _ & H). contradiction.
Qed.

Lemma ensure_features_valid_returns (columns features : list string) (label : string)
      (fs : list string) :
  ensure_features_valid columns features label = Returns fs <->
  fs = normalize_features features /\ fs <> []
  /\ ~ In (PyStr.strip label) fs /\ (forall f, In f fs -> In f columns).
Proof.
  unfold ensure_features_valid.
  destruct (normalize_features features) as [|c cleaned] eqn:N.
  - split; [discriminate|]. intros (-> & H & _). contradiction.
  - destruct (existsb (String.eqb (PyStr.strip label)) (c :: cleaned)) eqn:L.
    + apply existsb_eqb_in in L. split; [discriminate|].
      intros (-> & _ & H & _). contradiction.
    + apply existsb_eqb_not_in in L.
      destruct (filter (fun f => negb (existsb (String.eqb f) columns)) (c :: cleaned))
        as [|m [|m' missing]] eqn:F.
      * split.
        -- intros H. inversion H. subst fs. split; [reflexivity|].
           split; [discriminate|]. split; [exact L|].
           intros f Hf. apply existsb_eqb_in.
           destruct (existsb (String.eqb f) columns) eqn:C; [reflexivity|].
           assert (Hin : In f (filter (fun f => negb (existsb (String.eqb f) columns))
                                      (c :: cleaned)))
             by (apply filter_In; split; [exact Hf|now rewrite C]).
           rewrite F in Hin. destruct Hin.
        -- intros (-> & _). reflexivity.
      * split; [discriminate|]. intros (-> & _ & _ & H).
        assert (Hm : In m (filter (fun f => negb (existsb (String.eqb f) columns))
                                  (c :: cleaned))) by (rewrite F; now left).
        apply filter_In in Hm. destruct Hm as [Hm C].
        apply negb_true_iff, existsb_eqb_not_in in C. exfalso. apply C, H, Hm.
      * split; [discriminate|]. intros (-> & _ & _ & H).
        assert (Hm : In m (filter (fun f => negb (existsb (String.eqb f) columns))
                                  (c :: cleaned))) by (rewrite F; now left).
        apply filter_In in Hm. destruct Hm as [Hm C].
        apply negb_true_iff, existsb_eqb_not_in in C. exfalso. apply C, H, Hm.
Qed.

Lemma ensure_model_type_valid_returns (model_type mt : string) :
  ensure_model_type_valid model_type = Returns mt ->
  mt = PyStr.lower (PyStr.strip model_type) /\ In mt MODEL_FACTORY.
Proof.
  unfold ensure_model_type_valid.
  destruct (String.eqb _ EmptyString); [discriminate|].
  destruct (existsb _ MODEL_FACTORY) eqn:C; simpl; [|discriminate].
  intros H. inversion H. subst mt. split; [reflexivity|].
  exact (proj1 (existsb_eqb_in _ MODEL_FACTORY) C).
Qed.

(** X2: what a training request is made of once the validators have
    accepted it.  The label is a column of the upload; the features are at
    least one, pairwise distinct, each a column and none the label; the
    model type is a key of the factory; each is stripped and not empty;
    and validating the accepted values again accepts them as they are. *)
Theorem validated_request_is_consistent
        (columns features : list string) (label model_type lab mt : string)
        (fs : list string) :
  ensure_label_valid columns label = Returns lab ->
  ensure_features_valid columns features lab = Returns fs ->
  ensure_model_type_valid model_type = Returns mt ->
  In lab columns /\ is_name lab
  /\ fs <> [] /\ NoDup fs
  /\ (forall f, In f fs -> In f columns /\ f <> lab /\ is_name f)
  /\ In mt MODEL_FACTORY
  /\ ensure_label_valid columns lab = Returns lab
  /\ ensure_features_valid columns fs lab = Returns fs
  /\ ensure_model_type_valid mt = Returns mt.
Proof.
  intros Hl Hf Hm.
  apply ensure_label_valid_returns in Hl. destruct Hl as (El & Hne & Hin).
  assert (Hlab : is_name lab) by (subst lab; now apply PyStrFacts.strip_is_name).
  pose proof (proj1 (ensure_features_valid_returns _ _ _ _) Hf) as (Ef & Hfs & Hnl & Hcols).
  destruct Hlab as [_ Hstrip]. rewrite Hstrip in Hnl.
  assert (Hnames : Forall is_name fs) by (subst fs; apply normalize_features_names).
  assert (Hnd : NoDup fs) by (subst fs; apply normalize_features_nodup).
  apply ensure_model_type_valid_returns in Hm. destruct Hm as [_ Hmt].
  split; [exact Hin|]. split; [split; assumption|].
  split; [exact Hfs|]. split; [exact Hnd|].
  split.
  { intros f Hfin. split; [now apply Hcols|]. split.
    - intros ->. contradiction.
    - revert f Hfin. now apply Forall_forall. }
  split; [exact Hmt|].
  split.
  { apply ensure_label_valid_returns. rewrite Hstrip. auto. }
  split.
  { apply ensure_features_valid_returns. rewrite Hstrip.
    rewrite (normalize_features_fixed fs Hnd Hnames). auto. }
  destruct Hmt as [<-|[<-|[<-|[]]]]; reflexivity.
Qed.

Import ValidatorSamples.

Lemma validated_request_witness :
  In "price" header /\ NoDup ["age"; "sold"]
  /\ ensure_features_valid header ["age"; "sold"] "price" = Returns ["age"; "sold"]
  /\ ensure_model_type_valid "random_forest" = Returns "random_forest".
Proof.
  destruct (validated_request_is_consistent
              header [" age"; "sold "; "age"] " price " " Random_Forest "
              "price" "random_forest" ["age"; "sold"])
    as (Hin & _ & _ & Hnd & _ & _ & _ & Hf & Hm); try reflexivity.
  split; [exact Hin|]. split; [exact Hnd|]. split; [exact Hf|exact Hm].
Defined.

(** *** The hyperparameters *)

Lemma setitem_keys {A} (k : string) (v : A) (d : list (string * A)) :
  map fst (setitem k v d) = if existsb (String.eqb k) (map fst d) then map fst d
                            else map fst d ++ [k].
Proof.
  induction d as [|[k' v'] d IH]; simpl; [reflexivity|].
  rewrite (String.eqb_sym k k'). destruct (String.eqb k' k); simpl; [reflexivity|].
  rewrite IH. destruct (existsb _ _); reflexivity.
Qed.

Lemma setitem_in {A} (k : string) (v : A) (d : list (string * A)) (k' : string) (v' : A) :
  In (k', v') (setitem k v d) -> (k' = k /\ v' = v) \/ In (k', v') d.
Proof.
  induction d as [|[k0 v0] d IH]; simpl.
  - intros [H|[]]. inversion H. now left.
  - destruct (String.eqb k0 k) eqn:E; simpl.
    + apply String.eqb_eq in E. intros [H|H]; [|now right; right].
      inversion H. subst. now left.
    + intros [H|H]; [now right; left|]. destruct (IH H); auto.
Qed.

Lemma setitem_has_key {A} (k : string) (v : A) (d : list (string * A)) :
  In k (map fst (setitem k v d)).
Proof.
  rewrite setitem_keys. destruct (existsb _ _) eqn:E.
  - now apply existsb_eqb_in.
  - apply in_or_app. right. now left.
Qed.

Lemma setitem_keeps_keys {A} (k : string) (v : A) (d : list (string * A)) (k' : string) :
  In k' (map fst d) -> In k' (map fst (setitem k v d)).
Proof.
  rewrite setitem_keys. destruct (existsb _ _); [auto|]. intros H. apply in_or_app. now left.
Qed.

Lemma setitem_nodup {A} (k : string) (v : A) (d : list (string * A)) :
  NoDup (map fst d) -> NoDup (map fst (setitem k v d)).
Proof.
  intros H. rewrite setitem_keys. destruct (existsb _ _) eqn:E; [exact H|].
  apply (Permutation_NoDup (l := k :: map fst d)); [apply Permutation_cons_append|].
  constructor; [|exact H]. now apply existsb_eqb_not_in.
Qed.

Lemma setitem_names {A} (k : string) (v : A) (d : list (string * A)) :
  is_name k -> Forall is_name (map fst d) -> Forall is_name (map fst (setitem k v d)).
Proof.
  intros Hk H. rewrite setitem_keys. destruct (existsb _ _); [exact H|].
  apply Forall_app. split; [exact H|]. now constructor.
Qed.

Lemma normalize_items_spec (items out : list (string * json)) :
  NoDup (map fst out) -> Forall is_name (map fst out) ->
  match normalize_items items out with
  | Returns out' =>
      NoDup (map fst out') /\ Forall is_name (map fst out')
      /\ (forall k v, In (k, v) out' ->
                      In (k, v) out \/ exists k0, In (k0, v) items /\ PyStr.strip k0 = k)
      /\ (forall k, In k (map fst out) -> In k (map fst out'))
      /\ (forall k0 v0, In (k0, v0) items -> In (PyStr.strip k0) (map fst out'))
  | Raises e =>
      e = MissingDataException "Empty hyperparameter name is not allowed"
      /\ exists k v, In (k, v) items /\ PyStr.strip k = EmptyString
  end.
Proof.
  revert out. induction items as [|[k v] items IH]; intros out Hnd Hn; simpl.
  - split; [exact Hnd|]. split; [exact Hn|]. split; [auto|]. split; [auto|].
    intros k0 v0 [].
  - destruct (String.eqb (PyStr.strip k) EmptyString) eqn:E.
    + apply String.eqb_eq in E. split; [reflexivity|]. exists k, v. split; [now left|exact E].
    + apply String.eqb_neq in E.
      assert (Hk : is_name (PyStr.strip k)) by now apply PyStrFacts.strip_is_name.
      specialize (IH (setitem (PyStr.strip k) v out)
                     (setitem_nodup _ _ _ Hnd) (setitem_names _ _ _ Hk Hn)).
      destruct (normalize_items items _) as [out'|e].
      * destruct IH as (H1 & H2 & H3 & H4 & H5).
        split; [exact H1|]. split; [exact H2|]. split; [|split].
        -- intros k' v' Hin. destruct (H3 k' v' Hin) as [H|(k0 & H & Hs)].
           ++ apply setitem_in in H. destruct H as [[-> ->]|H]; [|now left].
              right. exists k. split; [now left|reflexivity].
           ++ right. exists k0. split; [now right|exact Hs].
        -- intros k' Hin. apply H4. now apply setitem_keeps_keys.
        -- intros k0 v0 [H|H].
           ++ inversion H. subst. apply H4. apply setitem_has_key.
           ++ now apply (H5 k0 v0).
      * destruct IH as (He & k0 & v0 & Hin & Hs).
        split; [exact He|]. exists k0, v0. split; [now right|exact Hs].
Qed.

(** X3: the parameters [normalize_params] returns have pairwise
    distinct keys, each stripped and not empty; every item comes from a
    submitted one whose key strips to its key, and every submitted key is
    there; so the dict it returns is well formed when the submitted values
    are.  It raises exactly when a submitted key is blank. *)
Theorem normalize_params_keys (params : option (list (string * json))) :
  match normalize_params params with
  | Returns out =>
      NoDup (map fst out) /\ Forall is_name (map fst out)
      /\ (forall k v, In (k, v) out ->
                      exists k0, In (k0, v) (items_of params) /\ PyStr.strip k0 = k)
      /\ (forall k0 v0, In (k0, v0) (items_of params) -> In (PyStr.strip k0) (map fst out))
      /\ (Forall (fun kv => Json.wf (snd kv)) (items_of params) -> Json.wf (JDict out))
  | Raises e =>
      e = MissingDataException "Empty hyperparameter name is not allowed"
      /\ exists k v, In (k, v) (items_of params) /\ PyStr.strip k = EmptyString
  end.
Proof.
  destruct params as [items|]; simpl.
  - pose proof (normalize_items_spec items [] (NoDup_nil _) (Forall_nil _)) as H.
    destruct (normalize_items items []) as [out|e]; [|exact H].
    destruct H as (H1 & H2 & H3 & _ & H5).
    assert (H3' : forall k v, In (k, v) out ->
                              exists k0, In (k0, v) items /\ PyStr.strip k0 = k).
    { intros k v Hin. destruct (H3 k v Hin) as [[]|H]. exact H. }
    split; [exact H1|]. split; [exact H2|]. split; [exact H3'|]. split; [exact H5|].
    intros Hwf. apply FingerprintFacts.wf_dict. split; [exact H1|].
    apply Forall_forall. intros [k v] Hin. simpl.
    destruct (H3' k v Hin) as (k0 & Hk0 & _).
    apply (proj1 (Forall_forall _ _) Hwf (k0, v) Hk0).
  - split; [constructor|]. split; [constructor|]. split; [intros k v []|].
    split; [intros k v []|]. intros _. split; [constructor|exact I].
Qed.

End ValidatorFacts.

(** ** The request models *)

Module RequestFacts.
Import FingerprintHashing PyStr Re StringVocabulary RequestVocabulary.
Import RegisterUserRequest BuyTokensRequest.

Import ProofSteps.

Lemma lower_as_map (s : string) :
  list_ascii_of_string (lower s) = map lower_char (list_ascii_of_string s).
Proof. induction s as [|c s IH]; simpl; [reflexivity|now rewrite IH]. Qed.

Lemma lowered_name_char (c : ascii) :
  username_class (lower_char c) = true -> is_username_char (lower_char c) = true.
Proof. each_char c. Qed.

Lemma lowered_line_feed (c : ascii) :
  is_line_feed (lower_char c) = true -> is_space c = true.
Proof. each_char c. Qed.

Lemma name_char_is_fixed (c : ascii) :
  is_username_char c = true ->
  lower_char c = c /\ is_space c = false /\ username_class c = true /\ is_line_feed c = false.
Proof. destruct c as [[] [] [] [] [] [] [] []]; vm_compute; intros H; try discriminate; auto. Qed.

Lemma before_end_fixed (l : list ascii) :
  match rev l with [] => True | c :: _ => is_line_feed c = false end -> before_end l = l.
Proof. unfold before_end. destruct (rev l) as [|c r]; [reflexivity|]. now intros ->. Qed.

Lemma strip_list_end (l : list ascii) : headed (rev (strip_list l)).
Proof. unfold strip_list. rewrite rev_involutive. apply PyStrFacts.lstrip_headed. Qed.

Lemma strip_list_of_names (l : list ascii) :
  forallb is_username_char l = true -> strip_list l = l.
Proof.
  intros H. unfold strip_list.
  assert (Hh : forall m, forallb is_username_char m = true -> headed m).
  { intros [|c m]; simpl; [auto|]. intros Hm. apply andb_prop in Hm.
    now apply name_char_is_fixed. }
  rewrite (PyStrFacts.lstrip_fixed l (Hh l H)).
  rewrite PyStrFacts.lstrip_fixed; [apply rev_involutive|].
  apply Hh. rewrite forallb_forall in *. intros c Hc. apply H. now apply in_rev.
Qed.

Lemma lower_of_names (l : list ascii) :
  forallb is_username_char l = true -> map lower_char l = l.
Proof.
  induction l as [|c l IH]; simpl; [reflexivity|]. intros H. apply andb_prop in H.
  destruct H as [Hc Hl]. rewrite (IH Hl). f_equal. now apply name_char_is_fixed.
Qed.

Lemma string_of_names (u : string) :
  forallb is_username_char (list_ascii_of_string u) = true ->
  lower (strip u) = u.
Proof.
  intros H.
  rewrite <- (string_of_list_ascii_of_string (lower (strip u))), lower_as_map.
  rewrite PyStrFacts.strip_as_list, list_ascii_of_string_of_list_ascii.
  rewrite (strip_list_of_names _ H), (lower_of_names _ H).
  apply string_of_list_ascii_of_string.
Qed.

Lemma stripped_and_lowered (s : string) :
  match rev (list_ascii_of_string (lower (strip s))) with
  | [] => True
  | c :: _ => is_line_feed c = false
  end.
Proof.
  rewrite lower_as_map, PyStrFacts.strip_as_list, list_ascii_of_string_of_list_ascii.
  rewrite <- map_rev. pose proof (strip_list_end (list_ascii_of_string s)) as H.
  destruct (rev (strip_list (list_ascii_of_string s))) as [|c r]; simpl; [exact I|].
  simpl in H. destruct (is_line_feed (lower_char c)) eqn:E; [|reflexivity].
  apply lowered_line_feed in E. congruence.
Qed.

Lemma lowered_names (l : list ascii) :
  forallb username_class (map lower_char l) = true ->
  forallb is_username_char (map lower_char l) = true.
Proof.
  induction l as [|c l IH]; simpl; [reflexivity|]. intros H. apply andb_prop in H.
  destruct H as [Hc Hl]. now rewrite (lowered_name_char c Hc), (IH Hl).
Qed.

Lemma accepted_username (s : string) :
  username_matches (lower (strip s)) = true ->
  (3 <= String.length (lower (strip s)) <= 20)%nat
  /\ forallb is_username_char (list_ascii_of_string (lower (strip s))) = true.
Proof.
  unfold username_matches, match_class.
  rewrite (before_end_fixed _ (stripped_and_lowered s)).
  rewrite <- (PyStrFacts.chars_length (lower (strip s))).
  intros H. apply andb_prop in H. destruct H as [H Hhi]. apply andb_prop in H.
  destruct H as [Hall Hlo]. apply Nat.leb_le in Hlo, Hhi. split; [lia|].
  rewrite lower_as_map in *. now apply lowered_names.
Qed.

Lemma names_match (u : string) :
  (3 <= String.length u <= 20)%nat ->
  forallb is_username_char (list_ascii_of_string u) = true ->
  username_matches u = true.
Proof.
  intros Hlen Hall. unfold username_matches, match_class.
  rewrite before_end_fixed.
  - rewrite PyStrFacts.chars_length.
    replace (3 <=? String.length u)%nat with true by (symmetry; apply Nat.leb_le; lia).
    replace (String.length u <=? 20)%nat with true by (symmetry; apply Nat.leb_le; lia).
    rewrite !andb_true_r. rewrite forallb_forall in *. intros c Hc.
    now apply name_char_is_fixed, Hall.
  - assert (Hr : forallb is_username_char (rev (list_ascii_of_string u)) = true).
    { rewrite forallb_forall in *. intros c Hc. apply Hall. now apply in_rev. }
    destruct (rev (list_ascii_of_string u)) as [|c r]; [exact I|].
    simpl in Hr. apply andb_prop in Hr. now apply name_char_is_fixed.
Qed.

(** X4: a user name that the registration accepts is 3 to 20 characters
    long and made of lower-case letters, digits, underscores and hyphens,
    whatever case and surrounding blanks were submitted; submitted again it
    is accepted as it is.  A raw value that is no string is refused, with
    an AttributeError when it is truthy. *)
Theorem accepted_username_is_normalized (value : json) (u : string) :
  _normalize_and_validate_username value = Returns u ->
  (3 <= String.length u <= 20)%nat
  /\ forallb is_username_char (list_ascii_of_string u) = true
  /\ (exists s, value = JStr s /\ u = lower (strip s))
  /\ _normalize_and_validate_username (JStr u) = Returns u.
Proof.
  intros H.
  assert (Hs : exists s, value = JStr s /\ u = lower (strip s)
                         /\ username_matches (lower (strip s)) = true).
  { unfold _normalize_and_validate_username in H.
    destruct value as [| b | n | r | s | l | d];
      try (match type of H with context [truthy ?v] => destruct (truthy v) end;
           vm_compute in H; discriminate).
    exists s. destruct (username_matches (lower (strip s))) eqn:E; simpl in H; [|discriminate].
    inversion H. auto. }
  destruct Hs as (s & -> & -> & Hm).
  destruct (accepted_username s Hm) as [Hlen Hall].
  split; [exact Hlen|]. split; [exact Hall|]. split; [now exists s|].
  simpl. rewrite (string_of_names _ Hall), Hm. reflexivity.
Qed.

Lemma accepted_username_witness :
  _normalize_and_validate_username (JStr "ada_l-9") = Returns "ada_l-9"
  /\ _normalize_and_validate_username (JInt 7) = Raises AttributeError.
Proof.
  split; [|reflexivity].
  apply (accepted_username_is_normalized (JStr "  Ada_L-9 ") "ada_l-9"). reflexivity.
Defined.

(** *** The password *)










(** *** The credit card and the amount *)







End RequestFacts.

(** ** A validated purchase *)

Module PurchaseFacts.
Import User UserRepository Vocabulary PurchaseVocabulary.
Import TokenCreditRepository TokenCreditService.

Lemma update_where (c c' : User.t -> bool) (f : User.t -> User.t) (t : list User.t) :
  (forall r, c r = c' r) -> Sql.update c f t = Sql.update c' f t.
Proof. intros H. unfold Sql.update. apply map_ext. intros r. now rewrite H. Qed.

(** the credit of an active user whose balance is 0 *)
Lemma add_tokens_zero (t : list User.t) (u : User.t) (amount : Z) :
  NoDup (map id t) -> In u t -> tokens u = 0 -> is_active u = true ->
  0 <= amount <= 1000 ->
  add_tokens (id u) amount t = (Ok (Some amount), set_balance (id u) amount t).
Proof.
  intros Hnd Hin Hz Ha Hb. unfold add_tokens, Sql.update_checked, Sql.returning.
  assert (Hc : forall r, (id r =? id u) && (tokens r =? 0) && is_active r
                         = (id r =? id u) && ((tokens r =? 0) && is_active r))
    by (intros r; now rewrite andb_assoc).
  rewrite (filter_ext _ _ Hc).
  rewrite (SqlFacts.filter_key id Z.eqb (fun r => (tokens r =? 0) && is_active r) t u
                               UserRepositoryFacts.Zeqb_iff Hnd Hin).
  rewrite Hz, Ha. simpl. unfold ck_users_tokens_0_1000. simpl. rewrite Hz. simpl.
  replace (0 <=? amount) with true by (symmetry; apply Z.leb_le; lia).
  replace (amount <=? 1000) with true by (symmetry; apply Z.leb_le; lia).
  simpl. f_equal. unfold set_balance.
  rewrite (update_where _ _ _ t Hc).
  apply (UserRepositoryFacts.update_one (fun r => (tokens r =? 0) && is_active r) _ _ t u
                                        Hnd Hin).
  - now rewrite Hz, Ha.
  - now rewrite Hz.
Qed.

(** X7: a purchase whose amount the request model has accepted, made
    with a fresh key by an active user whose balance is 0 and who has no
    purchase pending, succeeds: the amount is between 1 and 100, so neither
    CHECK constraint refuses it; the user holds the amount afterwards, the
    ledger row is applied with it, and the response reports it. *)
Theorem validated_purchase_succeeds
        (d : DB) (user u : User.t) (value : option Z) (amount : Z) (key : string) :
  BuyTokensRequest._validate_amount value = Returns amount ->
  NoDup (map User.id (users d)) -> In u (users d) -> User.id user = User.id u ->
  User.is_active u = true -> User.tokens u = 0 ->
  existsb (same_key (User.id u) key) (token_credits d) = false ->
  existsb (fun r => (TokenCredit.user_id r =? User.id u)
                    && RowStatus_eqb (TokenCredit.status r) pending)
          (token_credits d) = false ->
  1 <= amount <= 100
  /\ exists d',
       buy_tokens user amount key d = (Ok (response amount), d')
       /\ users d' = set_balance (User.id u) amount (users d)
       /\ ledger_row user key d' = Some (applied, Some amount).
Proof.
  intros Hv Hnd Hin Hid Ha Hz Hfresh Hnp.
  assert (Hamount : 1 <= amount <= 100).
  { unfold BuyTokensRequest._validate_amount in Hv. destruct value as [v|]; [|discriminate].
    unfold config.MAX_TOKENS_PER_PURCHASE in Hv.
    destruct (v <=? 0) eqn:E1; [discriminate|]. destruct (100 <? v) eqn:E2; [discriminate|].
    simpl in Hv. inversion Hv. subst v. apply Z.leb_gt in E1. apply Z.ltb_ge in E2. lia. }
  split; [exact Hamount|].
  pose proof (add_tokens_zero (users d) u amount Hnd Hin Hz Ha ltac:(lia)) as Hadd.
  unfold buy_tokens, bind, on_token_credits, on_users, try_insert_pending, ledger_row.
  rewrite Hid, Hfresh, Hnp. simpl. rewrite Hadd. simpl.
  rewrite (TokenCreditFacts.mark_applied_new _ _ _ Hfresh).
  replace (1 <=? amount) with true by (symmetry; apply Z.leb_le; lia).
  replace (amount <=? 100) with true by (symmetry; apply Z.leb_le; lia).
  simpl. eexists. split; [reflexivity|]. simpl. split; [reflexivity|].
  apply (TokenCreditFacts.lookup_new _ _ _ Hfresh).
Qed.

Import Samples PurchaseSamples.

Lemma validated_purchase_witness :
  exists d',
    buy_tokens bob 40 "k9" shop = (Ok (response 40), d')
    /\ users d' = set_balance 2 40 (users shop)
    /\ ledger_row bob "k9" d' = Some (applied, Some 40).
Proof.
  apply (validated_purchase_succeeds shop bob bob (Some 40) 40 "k9"); try reflexivity.
  - exact UserRepositoryFacts.some_users_distinct.
  - right; left; reflexivity.
Defined.

End PurchaseFacts.

(** ** The rate limiter *)

Module RateLimitFacts.
Import Redis RateLimit RateLimitVocabulary.

Lemma spaced_back_suffix (n : nat) (w : Z) (p q : list Z) :
  spaced_back n w (p ++ q) -> spaced_back n w q.
Proof. induction p as [|x p IH]; simpl; [auto|]. intros [_ H]. now apply IH. Qed.

Lemma spaced_back_forth (n : nat) (w : Z) (l : list Z) :
  spaced_back n w l -> spaced n w (rev l).
Proof.
  intros H pre x mid y post E Hmid.
  assert (El : l = rev post ++ y :: rev mid ++ x :: rev pre).
  { rewrite <- (rev_involutive l), E. rewrite rev_app_distr. simpl.
    rewrite rev_app_distr. simpl. rewrite <- !app_assoc. reflexivity. }
  rewrite El in H. apply spaced_back_suffix in H. destruct H as [H _]. apply H.
  rewrite nth_error_app2; rewrite length_rev, Hmid; [|lia].
  now rewrite Nat.sub_diag.
Qed.

Lemma sorted_ge_in (x : Z) (l : list Z) (y : Z) :
  StronglySorted Z.ge (x :: l) -> In y (x :: l) -> y <= x.
Proof.
  intros H [->|Hin]; [lia|]. apply StronglySorted_inv in H. destruct H as [_ H].
  rewrite Forall_forall in H. specialize (H y Hin). lia.
Qed.

Lemma sorted_ge_suffix (p q : list Z) :
  StronglySorted Z.ge (p ++ q) -> StronglySorted Z.ge q.
Proof.
  induction p as [|x p IH]; simpl; [auto|]. intros H.
  apply StronglySorted_inv in H. now apply IH.
Qed.

Lemma quot_mono (a b : Z) : a <= b -> Z.quot a 1000 <= Z.quot b 1000.
Proof. intros H. apply Z.quot_le_mono; lia. Qed.

Lemma quot_later (a w : Z) : 0 <= a -> 0 <= w -> Z.quot (a + 1000 * w) 1000 = Z.quot a 1000 + w.
Proof.
  intros Ha Hw. rewrite !Z.quot_div_nonneg by lia.
  rewrite (Z.mul_comm 1000 w). apply Z.div_add. lia.
Qed.

Lemma live_cases (now : Z) (k : key) :
  (live now (Some k) = Some k
   /\ forall e, expires k = Some e -> now < e)
  \/ (live now (Some k) = None /\ exists e, expires k = Some e /\ e <= now).
Proof.
  unfold live. destruct (expires k) as [e|]; [|left; split; [reflexivity|discriminate]].
  destruct (e <=? now) eqn:E.
  - right. split; [reflexivity|]. exists e. split; [reflexivity|now apply Z.leb_le].
  - left. split; [reflexivity|]. intros e' H. inversion H. subst. now apply Z.leb_gt.
Qed.

(** what a request that is let through leaves in the key *)
Lemma pushed_on_nothing (at_ms now max_requests window : Z) (redis : t) :
  live at_ms redis = None -> 1 <= max_requests -> 1 <= window ->
  expire at_ms window (ltrim at_ms (max_requests - 1) (lpush at_ms now redis))
  = Some (mkKey [now] (Some (at_ms + 1000 * window))).
Proof.
  intros Hl Hm Hw. unfold lpush. rewrite Hl. unfold ltrim, live. simpl.
  replace (max_requests - 1 <? 0) with false by (symmetry; apply Z.ltb_ge; lia).
  replace (Z.to_nat (max_requests - 1 + 1)) with (S (Z.to_nat (max_requests - 1))) by lia.
  simpl. rewrite firstn_nil. unfold expire, live. simpl.
  replace (window <=? 0) with false by (symmetry; apply Z.leb_gt; lia).
  reflexivity.
Qed.

Lemma pushed_on_key (at_ms now max_requests window : Z) (k : key) :
  live at_ms (Some k) = Some k -> 1 <= max_requests -> 1 <= window ->
  expire at_ms window (ltrim at_ms (max_requests - 1) (lpush at_ms now (Some k)))
  = Some (mkKey (now :: firstn (Z.to_nat (max_requests - 1)) (elements k))
                (Some (at_ms + 1000 * window))).
Proof.
  intros Hl Hm Hw. unfold lpush. rewrite Hl.
  assert (Hl' : forall x, live at_ms (Some (mkKey x (expires k))) = Some (mkKey x (expires k))).
  { intros x. unfold live in *. simpl in *. destruct (expires k) as [e|]; [|reflexivity].
    destruct (e <=? at_ms); [discriminate|reflexivity]. }
  unfold ltrim. rewrite Hl'. simpl elements.
  replace (max_requests - 1 <? 0) with false by (symmetry; apply Z.ltb_ge; lia).
  replace (Z.to_nat (max_requests - 1 + 1)) with (S (Z.to_nat (max_requests - 1))) by lia.
  simpl firstn. cbv iota. simpl expires. unfold expire. rewrite Hl'. simpl.
  replace (window <=? 0) with false by (symmetry; apply Z.leb_gt; lia).
  reflexivity.
Qed.

Lemma last_of_rev (l : list Z) (x : Z) (r : list Z) :
  rev l = x :: r -> l = rev r ++ [x] /\ last l 0 = x.
Proof.
  intros H. assert (E : l = rev r ++ [x]) by (rewrite <- (rev_involutive l), H; reflexivity).
  split; [exact E|]. rewrite E. apply last_last.
Qed.

Lemma last_cons (x : Z) (l : list Z) : l <> [] -> last (x :: l) 0 = last l 0.
Proof. destruct l; [congruence|reflexivity]. Qed.

Lemma last_in (l : list Z) : l <> [] -> In (last l 0) l.
Proof.
  induction l as [|a l IH]; [congruence|]. intros _. destruct l as [|b l]; [now left|].
  right. apply IH. discriminate.
Qed.

(** one request keeps the state consistent *)
Lemma check_keeps_consistent (n : nat) (w : Z) (redis : t) (seen : list Z)
      (last_ms at_ms : Z) :
  (1 <= n)%nat -> 1 <= w -> consistent n w redis seen last_ms -> last_ms <= at_ms ->
  consistent n w (snd (check_rate_limit at_ms (Z.of_nat n) w redis))
             (if passed (fst (check_rate_limit at_ms (Z.of_nat n) w redis))
              then Z.quot at_ms 1000 :: seen else seen)
             at_ms.
Proof.
  intros Hn Hw (Hsp & Hso & Hbd & H0 & Hst) Hle.
  assert (Hbd' : forall x, In x seen -> x <= Z.quot at_ms 1000).
  { intros x Hx. specialize (Hbd x Hx). pose proof (quot_mono _ _ Hle). lia. }
  assert (Hso' : StronglySorted Z.ge (Z.quot at_ms 1000 :: seen)).
  { constructor; [exact Hso|]. apply Forall_forall. intros x Hx. specialize (Hbd' x Hx). lia. }
  assert (Hmax : 1 <= Z.of_nat n) by lia.
  assert (Hfresh : forall r,
             live at_ms r = None ->
             (forall y, nth_error seen (n - 1) = Some y -> w <= Z.quot at_ms 1000 - y) ->
             (forall y, hd_error seen = Some y -> w <= Z.quot at_ms 1000 - y) ->
             consistent n w (snd (check_rate_limit at_ms (Z.of_nat n) w r))
                        (if passed (fst (check_rate_limit at_ms (Z.of_nat n) w r))
                         then Z.quot at_ms 1000 :: seen else seen) at_ms).
  { intros r Hl Hgap Hhd. unfold check_rate_limit, lrange_all. rewrite Hl. simpl length.
    replace (Z.of_nat 0 <? Z.of_nat n) with true by (symmetry; apply Z.ltb_lt; lia).
    rewrite (pushed_on_nothing _ _ _ _ _ Hl Hmax Hw). simpl.
    split; [split; assumption|]. split; [exact Hso'|].
    split; [intros x [<-|Hx]; [lia|now apply Hbd']|]. split; [lia|].
    exists seen, at_ms. simpl. split; [reflexivity|]. split; [lia|].
    split; [reflexivity|]. split; [lia|]. split; [reflexivity|].
    intros _ y Hy. now apply Hhd. }
  destruct redis as [k|].
  - destruct Hst as (rest & pushed_ms & Eseen & Hlen & Hexp & Hpm & Hhd & Hgap).
    destruct (live_cases at_ms k) as [[Hl Hnot]|[Hl (e & He & Hpast)]].
    + (* the key is there *)
      unfold check_rate_limit, lrange_all. rewrite Hl.
      destruct (Z.of_nat (length (elements k)) <? Z.of_nat n) eqn:Hroom.
      * apply Z.ltb_lt in Hroom.
        rewrite (pushed_on_key _ _ _ _ _ Hl Hmax Hw). simpl.
        rewrite firstn_all2 by lia.
        split.
        { split; [|exact Hsp]. intros y Hy. rewrite Eseen in Hy.
          rewrite nth_error_app2 in Hy by lia.
          destruct rest as [|y0 rest']; [now destruct (n - 1 - length (elements k))%nat|].
          assert (Hy0 : y <= y0).
          { apply (sorted_ge_in y0 rest').
            - rewrite Eseen in Hso. now apply sorted_ge_suffix in Hso.
            - eapply nth_error_In. exact Hy. }
          specialize (Hgap ltac:(lia) y0 eq_refl).
          assert (Hlast : last (elements k) 0 <= Z.quot at_ms 1000).
          { apply Hbd'. rewrite Eseen. apply in_or_app. left. apply last_in.
            destruct (elements k); simpl in *; [lia|congruence]. }
          lia. }
        split; [exact Hso'|].
        split; [intros x [<-|Hx]; [lia|now apply Hbd']|]. split; [lia|].
        exists rest, at_ms. simpl. split; [now rewrite Eseen|]. split; [lia|].
        split; [reflexivity|]. split; [lia|]. split; [reflexivity|].
        intros Hlt y Hy.
        change (w <= last (Z.quot at_ms 1000 :: elements k) 0 - y).
        rewrite last_cons by (destruct (elements k); simpl in *; [lia|congruence]).
        apply Hgap; [lia|exact Hy].
      * apply Z.ltb_ge in Hroom.
        assert (Hfull : length (elements k) = n) by lia.
        destruct (rev (elements k)) as [|oldest front] eqn:Hrev.
        { apply (f_equal (@length Z)) in Hrev. rewrite length_rev in Hrev. simpl in Hrev. lia. }
        apply last_of_rev in Hrev. destruct Hrev as [Eitems Hlast].
        destruct (Z.quot at_ms 1000 - oldest <? w) eqn:Hel.
        -- (* refused *)
           simpl. split; [exact Hsp|]. split; [exact Hso|]. split; [exact Hbd'|].
           split; [lia|]. exists rest, pushed_ms. repeat split; try assumption; lia.
        -- apply Z.ltb_ge in Hel.
           rewrite (pushed_on_key _ _ _ _ _ Hl Hmax Hw). simpl.
           assert (Hfront : length (rev front) = (n - 1)%nat).
           { apply (f_equal (@length Z)) in Eitems. rewrite length_app in Eitems.
             simpl in Eitems. lia. }
           assert (Hkeep : firstn (Z.to_nat (Z.of_nat n - 1)) (elements k) = rev front).
           { rewrite Eitems. replace (Z.to_nat (Z.of_nat n - 1)) with (length (rev front)) by lia.
             rewrite firstn_app, Nat.sub_diag, firstn_all. simpl. apply app_nil_r. }
           rewrite Hkeep.
           split.
           { split; [|exact Hsp]. intros y Hy. rewrite Eseen, Eitems in Hy.
             rewrite <- app_assoc in Hy. rewrite nth_error_app2 in Hy by lia.
             rewrite Hfront, Nat.sub_diag in Hy. simpl in Hy. inversion Hy. subst y. lia. }
           split; [exact Hso'|].
           split; [intros x [<-|Hx]; [lia|now apply Hbd']|]. split; [lia|].
           exists (oldest :: rest), at_ms. simpl. split.
           { rewrite Eseen, Eitems, <- app_assoc. reflexivity. }
           split; [lia|]. split; [reflexivity|]. split; [lia|]. split; [reflexivity|].
           intros Hlt. lia.
    + (* the key has expired *)
      rewrite Hexp in He. inversion He. subst e.
      assert (Hnow : Z.quot pushed_ms 1000 + w <= Z.quot at_ms 1000).
      { rewrite <- quot_later by lia. now apply quot_mono. }
      assert (Hall : forall y, In y seen -> w <= Z.quot at_ms 1000 - y).
      { intros y Hy. destruct seen as [|x seen']; [destruct Hy|].
        simpl in Hhd. inversion Hhd. subst x.
        pose proof (sorted_ge_in _ _ y Hso Hy). lia. }
      apply Hfresh; [exact Hl| |].
      * intros y Hy. apply Hall. eapply nth_error_In. exact Hy.
      * intros y Hy. apply Hall. destruct seen; [discriminate|]. inversion Hy. now left.
  - subst seen. apply Hfresh; [reflexivity| |].
    + intros y Hy. now destruct (n - 1)%nat.
    + intros y Hy. discriminate.
Qed.

Lemma serve_keeps_consistent (n : nat) (w : Z) (times : list Z) :
  (1 <= n)%nat -> 1 <= w ->
  forall redis seen last_ms,
    consistent n w redis seen last_ms -> Sorted Z.le (last_ms :: times) ->
    spaced_back n w (rev (passed_at (serve (Z.of_nat n) w times redis)) ++ seen).
Proof.
  intros Hn Hw. induction times as [|at_ms times IH]; intros redis seen last_ms Hc Hs.
  - simpl. apply Hc.
  - apply Sorted_inv in Hs. destruct Hs as [Hs Hhd]. apply HdRel_inv in Hhd.
    pose proof (check_keeps_consistent n w redis seen last_ms at_ms Hn Hw Hc Hhd) as Hstep.
    simpl. destruct (check_rate_limit at_ms (Z.of_nat n) w redis) as [out redis'].
    simpl in Hstep. specialize (IH redis' _ at_ms Hstep Hs).
    unfold passed_at in *. simpl. destruct (passed out); simpl.
    + rewrite <- app_assoc. exact IH.
    + exact IH.
Qed.

(** X8: the rate limiter is a sliding window.  Of the requests on one
    key that it lets through, any [max_requests] + 1 successive ones span
    at least [window] seconds: no more than [max_requests] requests pass
    within any stretch shorter than the window, also across the expiry of
    the key.  The requests come at instants that do not decrease. *)
Theorem limiter_is_a_sliding_window (max_requests window : Z) (times : list Z) :
  1 <= max_requests -> 1 <= window -> Sorted Z.le (0 :: times) ->
  spaced (Z.to_nat max_requests) window
         (passed_at (serve max_requests window times None)).
Proof.
  intros Hm Hw Hs.
  assert (Hc : consistent (Z.to_nat max_requests) window None [] 0).
  { split; [exact I|]. split; [constructor|]. split; [intros x []|]. split; [lia|reflexivity]. }
  pose proof (serve_keeps_consistent (Z.to_nat max_requests) window times
                                      ltac:(lia) Hw None [] 0 Hc Hs) as H.
  rewrite Z2Nat.id in H by lia. rewrite app_nil_r in H.
  apply spaced_back_forth in H. now rewrite rev_involutive in H.
Qed.

Lemma limiter_witness :
  passed_at (serve 2 60 [1000; 2000; 3000; 61000; 61500; 62000] None) = [1; 2; 61; 62]
  /\ 60 <= 61 - 1 /\ 60 <= 62 - 2.
Proof.
  assert (Hs : Sorted Z.le [0; 1000; 2000; 3000; 61000; 61500; 62000])
    by (repeat constructor; lia).
  pose proof (limiter_is_a_sliding_window 2 60 [1000; 2000; 3000; 61000; 61500; 62000]
                                          ltac:(lia) ltac:(lia) Hs) as H.
  assert (E : passed_at (serve 2 60 [1000; 2000; 3000; 61000; 61500; 62000] None)
              = [1; 2; 61; 62]) by reflexivity.
  rewrite E in H. split; [exact E|]. split.
  - apply (H [] 1 [2] 61 [62]); reflexivity.
  - apply (H [1] 2 [61] 62 []); reflexivity.
Defined.

(** X9: a refusal changes nothing in Redis and announces a wait of at
    least one second, and the wait is enough: the same key, asked again
    that many seconds later or more, lets the request through. *)
Theorem retry_after_is_enough (at_ms max_requests window retry_after : Z)
        (redis redis' : Redis.t) :
  1 <= max_requests ->
  check_rate_limit at_ms max_requests window redis
  = (RateLimitException retry_after, redis') ->
  redis' = redis /\ 1 <= retry_after
  /\ forall later_ms,
       at_ms <= later_ms ->
       Z.quot at_ms 1000 + retry_after <= Z.quot later_ms 1000 ->
       fst (check_rate_limit later_ms max_requests window redis) = Passed.
Proof.
  intros Hm. unfold check_rate_limit at 1.
  destruct (Z.of_nat (length (lrange_all at_ms redis)) <? max_requests) eqn:Hroom;
    [discriminate|].
  destruct (rev (lrange_all at_ms redis)) as [|oldest front] eqn:Hrev; [discriminate|].
  destruct (Z.quot at_ms 1000 - oldest <? window) eqn:Hel; [|discriminate].
  intros H. inversion H. subst redis' retry_after. clear H.
  apply Z.ltb_lt in Hel. split; [reflexivity|]. split; [lia|].
  intros later_ms Hlater Hwait.
  assert (Hcases : lrange_all later_ms redis = lrange_all at_ms redis
                   \/ lrange_all later_ms redis = []).
  { unfold lrange_all, live. destruct redis as [k|]; [|now left].
    destruct (expires k) as [e|]; [|now left].
    destruct (e <=? later_ms) eqn:E1; [now right|].
    destruct (e <=? at_ms) eqn:E2; [|now left].
    apply Z.leb_le in E2. apply Z.leb_gt in E1. lia. }
  unfold check_rate_limit. destruct Hcases as [E|E]; rewrite E.
  - rewrite Hroom, Hrev.
    replace (Z.quot later_ms 1000 - oldest <? window) with false
      by (symmetry; apply Z.ltb_ge; lia).
    reflexivity.
  - simpl. replace (0 <? max_requests) with true by (symmetry; apply Z.ltb_lt; lia).
    reflexivity.
Qed.

Lemma retry_after_witness :
  check_rate_limit 30500 1 60 (Some (mkKey [10] (Some 70000)))
  = (RateLimitException 40, Some (mkKey [10] (Some 70000)))
  /\ fst (check_rate_limit 70000 1 60 (Some (mkKey [10] (Some 70000)))) = Passed.
Proof.
  assert (H : check_rate_limit 30500 1 60 (Some (mkKey [10] (Some 70000)))
              = (RateLimitException 40, Some (mkKey [10] (Some 70000)))) by reflexivity.
  split; [exact H|].
  destruct (retry_after_is_enough 30500 1 60 40 _ _ ltac:(lia) H) as (_ & _ & Hlater).
  apply Hlater; [lia|]. vm_compute. discriminate.
Defined.

End RateLimitFacts.

(** ** The database guard *)

Module HealthFacts.
Import Health HealthVocabulary.

Lemma db_guard_from_run (threshold : Z) (pings : list bool) :
  forall f : nat,
    (f < Z.to_nat threshold)%nat ->
    let run m :=
      (Z.to_nat threshold <= f + m)%nat /\ (m <= length pings)%nat
      /\ forall i, (i < m)%nat -> (m <= i + Z.to_nat threshold)%nat ->
                   nth i pings true = false in
    match db_guard_from threshold (Z.of_nat f) pings with
    | Some n => run n /\ forall m, run m -> (n <= m)%nat
    | None => forall m, ~ run m
    end.
Proof.
  induction pings as [|ok rest IH]; intros f Hf; simpl.
  - intros m (H1 & H2 & _). lia.
  - destruct ok.
    + specialize (IH 0%nat ltac:(lia)). simpl in IH.
      assert (Hdown : forall m,
                 (Z.to_nat threshold <= f + m)%nat /\ (m <= S (length rest))%nat
                 /\ (forall i, (i < m)%nat -> (m <= i + Z.to_nat threshold)%nat ->
                               nth i (true :: rest) true = false) ->
                 exists m', m = S m'
                   /\ (Z.to_nat threshold <= m')%nat /\ (m' <= length rest)%nat
                   /\ forall i, (i < m')%nat -> (m' <= i + Z.to_nat threshold)%nat ->
                                nth i rest true = false).
      { intros m (H1 & H2 & H3). destruct m as [|m']; [lia|]. exists m'.
        split; [reflexivity|].
        assert (Hm : (Z.to_nat threshold <= m')%nat).
        { destruct (Nat.le_gt_cases (Z.to_nat threshold) m') as [H|H]; [exact H|].
          specialize (H3 0%nat ltac:(lia) ltac:(lia)). discriminate. }
        split; [exact Hm|]. split; [lia|]. intros i Hi Hi'.
        apply (H3 (S i)); lia. }
      destruct (db_guard_from threshold 0 rest) as [n|]; simpl.
      * destruct IH as ((H1 & H2 & H3) & Hmin). split.
        -- split; [lia|]. split; [lia|]. intros [|i] Hi Hi'; [lia|]. simpl. apply H3; lia.
        -- intros m Hm. destruct (Hdown m Hm) as (m' & -> & Hm').
           specialize (Hmin m' Hm'). lia.
      * intros m Hm. destruct (Hdown m Hm) as (m' & -> & Hm'). exact (IH m' Hm').
    + destruct (threshold <=? Z.of_nat f + 1) eqn:Hth.
      * apply Z.leb_le in Hth. split.
        -- split; [lia|]. split; [simpl; lia|]. intros [|i] Hi Hi'; [reflexivity|lia].
        -- intros m (H1 & _). lia.
      * apply Z.leb_gt in Hth. specialize (IH (S f) ltac:(lia)). cbv zeta in IH.
        replace (Z.of_nat f + 1) with (Z.of_nat (S f)) by lia.
        assert (Hdown : forall m,
                   (Z.to_nat threshold <= f + m)%nat /\ (m <= S (length rest))%nat
                   /\ (forall i, (i < m)%nat -> (m <= i + Z.to_nat threshold)%nat ->
                                 nth i (false :: rest) true = false) ->
                   exists m', m = S m'
                     /\ (Z.to_nat threshold <= S (f + m'))%nat /\ (m' <= length rest)%nat
                     /\ forall i, (i < m')%nat -> (m' <= i + Z.to_nat threshold)%nat ->
                                  nth i rest true = false).
        { intros m (H1 & H2 & H3). destruct m as [|m']; [lia|]. exists m'.
          split; [reflexivity|]. split; [lia|]. split; [lia|]. intros i Hi Hi'.
          apply (H3 (S i)); lia. }
        destruct (db_guard_from threshold (Z.of_nat (S f)) rest) as [n|]; simpl.
        -- destruct IH as ((H1 & H2 & H3) & Hmin). split.
           ++ split; [lia|]. split; [lia|]. intros [|i] Hi Hi'; [reflexivity|].
              simpl. apply H3; lia.
           ++ intros m Hm. destruct (Hdown m Hm) as (m' & -> & Hm').
              specialize (Hmin m' Hm'). lia.
        -- intros m Hm. destruct (Hdown m Hm) as (m' & -> & Hm'). exact (IH m' Hm').
Qed.

(** X10: the database guard ends the process at the first turn that
    completes [failure_threshold] failed pings in a row, and only there:
    when it stops at turn [n], the [failure_threshold] pings before [n]
    all failed and no earlier turn completes such a run; when it is still
    looping, the pings hold no such run.  A successful ping starts the
    count again. *)
Theorem db_guard_stops_at_first_failed_run (failure_threshold : Z) (pings : list bool) :
  1 <= failure_threshold ->
  match db_guard failure_threshold pings with
  | Some n =>
      failed_run (Z.to_nat failure_threshold) pings n
      /\ forall m, failed_run (Z.to_nat failure_threshold) pings m -> (n <= m)%nat
  | None => forall m, ~ failed_run (Z.to_nat failure_threshold) pings m
  end.
Proof.
  intros Hth. pose proof (db_guard_from_run failure_threshold pings 0%nat ltac:(lia)) as H.
  simpl in H. unfold db_guard.
  assert (Hrun : forall m,
             failed_run (Z.to_nat failure_threshold) pings m ->
             (Z.to_nat failure_threshold <= m)%nat /\ (m <= length pings)%nat
             /\ forall i, (i < m)%nat -> (m <= i + Z.to_nat failure_threshold)%nat ->
                          nth i pings true = false).
  { intros m ([H1 H2] & H3). split; [exact H1|]. split; [exact H2|].
    intros i Hi Hi'. apply H3. lia. }
  destruct (db_guard_from failure_threshold 0 pings) as [n|].
  - destruct H as ((H1 & H2 & H3) & Hmin). split.
    + split; [lia|]. intros i Hi. apply H3; lia.
    + intros m Hm. apply Hmin. now apply Hrun.
  - intros m Hm. exact (H m (Hrun m Hm)).
Qed.

Lemma db_guard_witness :
  db_guard 3 [false; false; true; false; false; false; false] = Some 6%nat
  /\ failed_run 3 [false; false; true; false; false; false; false] 6.
Proof.
  pose proof (db_guard_stops_at_first_failed_run
                3 [false; false; true; false; false; false; false] ltac:(lia)) as H.
  assert (E : db_guard 3 [false; false; true; false; false; false; false] = Some 6%nat)
    by reflexivity.
  rewrite E in H. split; [exact E|]. exact (proj1 H).
Defined.

End HealthFacts.

(** ** The usage dashboard *)

Module UsageFacts.
Import UserUsageRepository UsageVocabulary.

Lemma total_cons (p : string -> bool) (k : string) (n : Z) (r : list (string * Z)) :
  total p ((k, n) :: r) = if p k then n + total p r else total p r.
Proof. reflexivity. Qed.

Lemma total_count_in (p : string -> bool) (k : string) (groups : list (string * Z)) :
  total p (count_in k groups) = total p groups + (if p k then 1 else 0).
Proof.
  induction groups as [|[k' n] r IH]; simpl.
  - destruct (p k); lia.
  - destruct (String.eqb k' k) eqn:E; simpl.
    + apply String.eqb_eq in E. subst k'. destruct (p k); lia.
    + rewrite IH. destruct (p k'), (p k); lia.
Qed.

Lemma total_group_count (p : string -> bool) (keys : list string) :
  forall groups,
    total p (fold_left (fun groups k => count_in k groups) keys groups)
    = total p groups + Z.of_nat (length (filter p keys)).
Proof.
  induction keys as [|k keys IH]; intros groups; simpl; [lia|].
  rewrite IH, total_count_in. destruct (p k); simpl length; lia.
Qed.

Lemma split_totals (groups : list (string * Z)) :
  forall a b,
    fold_left
      (fun split row =>
         let '(model_type, count) := row in
         if existsb (String.eqb model_type) regression_types
         then (fst split + count, snd split)
         else (fst split, snd split + count))
      groups (a, b)
    = (a + total (fun k => existsb (String.eqb k) regression_types) groups,
       b + total (fun k => negb (existsb (String.eqb k) regression_types)) groups).
Proof.
  induction groups as [|[k n] r IH]; intros a b.
  - simpl. f_equal; lia.
  - cbn [fold_left]. rewrite !total_cons.
    destruct (existsb (String.eqb k) regression_types); cbn [negb fst snd];
      rewrite IH; f_equal; lia.
Qed.

Lemma filter_map_length {A B} (p : B -> bool) (f : A -> B) (l : list A) :
  length (filter p (map f l)) = length (filter (fun x => p (f x)) l).
Proof.
  induction l as [|x l IH]; [reflexivity|]. simpl. destruct (p (f x)); simpl; now rewrite IH.
Qed.

(** X11: the regression and classification split counts every trained
    model row of an active user exactly once, whatever the status of the
    row: under Regression the rows whose model type is one of linear,
    ridge, lasso, random_forest and svr, under Classification all the
    others. *)
Theorem split_counts_every_row_once (d : DB) :
  get_regression_vs_classification_split d
  = [("Regression", Z.of_nat (length (filter is_regression (counted_rows d))));
     ("Classification",
      Z.of_nat (length (filter (fun r => negb (is_regression r)) (counted_rows d))))].
Proof.
  unfold get_regression_vs_classification_split, model_type_counts, group_count.
  rewrite split_totals. rewrite !total_group_count. simpl fst. simpl snd.
  rewrite !filter_map_length. reflexivity.
Qed.

End UsageFacts.

(** ** Sessions: rotation, logout and the deleted account *)

Module SessionFacts.
Import AuthSession AuthRepository AuthService AuthVocabulary SessionVocabulary.

Lemma key_identifies_row {R K} (key : R -> K) (t : list R) (a b : R) :
  NoDup (map key t) -> In a t -> In b t -> key a = key b -> a = b.
Proof.
  induction t as [|x t IH]; intros Hnd Ha Hb E; [destruct Ha|].
  simpl in Hnd. inversion Hnd as [|? ? Hx Hnd']; subst.
  destruct Ha as [->|Ha], Hb as [->|Hb]; [reflexivity| | |now apply IH].
  - exfalso. apply Hx. rewrite E. now apply in_map.
  - exfalso. apply Hx. rewrite <- E. now apply in_map.
Qed.

Lemma first_in {R} (p : R -> bool) (t : list R) (r : R) :
  Sql.first (Sql.select p (fun r => r) t) = Some r -> In r t /\ p r = true.
Proof.
  unfold Sql.first, Sql.select. rewrite map_id. intros H.
  assert (Hin : In r (filter p t)) by (destruct (filter p t); inversion H; now left).
  now apply filter_In in Hin.
Qed.

(** an UPDATE that leaves the searched column alone rewrites the row the
    search finds first *)
Lemma first_after_update {R} (p c : R -> bool) (f : R -> R) (t : list R) :
  (forall r, p (f r) = p r) ->
  Sql.first (Sql.select p (fun r => r) (Sql.update c f t))
  = option_map (fun r => if c r then f r else r) (Sql.first (Sql.select p (fun r => r) t)).
Proof.
  intros Hp. unfold Sql.first, Sql.select, Sql.update. rewrite !map_id.
  induction t as [|x t IH]; [reflexivity|]. simpl.
  assert (E : p (if c x then f x else x) = p x) by (destruct (c x); [apply Hp|reflexivity]).
  rewrite E. destruct (p x); [reflexivity|exact IH].
Qed.

Lemma distinct_NoDup (l : list string) : distinct l = true <-> NoDup l.
Proof.
  induction l as [|x l IH]; simpl.
  - split; [constructor|reflexivity].
  - rewrite andb_true_iff, negb_true_iff, IH. split.
    + intros [Hx Hl]. constructor; [|exact Hl]. intros Hin.
      assert (existsb (String.eqb x) l = true); [|congruence].
      apply existsb_exists. exists x. split; [exact Hin|apply String.eqb_refl].
    + intros H. inversion H as [|? ? Hx Hl]; subst. split; [|exact Hl].
      destruct (existsb (String.eqb x) l) eqn:E; [|reflexivity].
      apply existsb_exists in E. destruct E as (y & Hy & E).
      apply String.eqb_eq in E. subst y. contradiction.
Qed.

Lemma rotation_keeps_hashes_distinct (t : list AuthSession.t) (row : AuthSession.t)
      (new_hash : string) (last : option string) (expiry : Z) :
  NoDup (map session_id t) -> NoDup (map refresh_token_hash t) -> In row t ->
  ~ In new_hash (map refresh_token_hash t) ->
  NoDup (map refresh_token_hash
             (Sql.update (fun r => String.eqb (session_id r) (session_id row))
                         (fun r => with_rotation r new_hash last expiry) t)).
Proof.
  unfold Sql.update. induction t as [|x t IH]; intros Hsid Hh Hin Hnew; [constructor|].
  simpl in Hsid, Hh. inversion Hsid as [|? ? Hxs Hsid']; subst.
  inversion Hh as [|? ? Hxh Hh']; subst. simpl.
  assert (Hrest : forall h,
             In h (map refresh_token_hash
                       (map (fun r => if String.eqb (session_id r) (session_id row)
                                      then with_rotation r new_hash last expiry else r) t)) ->
             h = new_hash \/ In h (map refresh_token_hash t)).
  { intros h Hi. apply in_map_iff in Hi. destruct Hi as (r' & <- & Hr').
    apply in_map_iff in Hr'. destruct Hr' as (r & <- & Hr).
    destruct (String.eqb (session_id r) (session_id row)); [now left|].
    right. now apply in_map. }
  destruct (String.eqb (session_id x) (session_id row)) eqn:E.
  - apply String.eqb_eq in E.
    assert (Hnone : map (fun r => if String.eqb (session_id r) (session_id row)
                                  then with_rotation r new_hash last expiry else r) t = t).
    { apply (SqlFacts.update_none (fun r => String.eqb (session_id r) (session_id row))).
      intros r Hr. apply String.eqb_neq. intros E'. apply Hxs. rewrite E, <- E'.
      now apply in_map. }
    rewrite Hnone. simpl. constructor; [|exact Hh'].
    intros Hi. apply Hnew. now right.
  - apply String.eqb_neq in E. constructor.
    + intros Hi. destruct (Hrest _ Hi) as [Hi'|Hi']; [|contradiction].
      apply Hnew. left. exact Hi'.
    + apply IH; [exact Hsid'|exact Hh'| |].
      * destruct Hin as [->|Hin]; [congruence|exact Hin].
      * intros Hi. apply Hnew. now right.
Qed.

(** the first turn of the generation loop of a rotation, when the new
    hash is free *)
Lemma rotation_first_turn (turns : nat) (draws : nat -> Draw) (uid : Z) (ip ua : string)
      (row : AuthSession.t) (last : option string) (d : DB) :
  NoDup (map session_id (auth_sessions d)) ->
  NoDup (map refresh_token_hash (auth_sessions d)) ->
  In row (auth_sessions d) ->
  ~ In (SecurityUtils.hash_token (raw_refresh (draws 0%nat)))
       (map refresh_token_hash (auth_sessions d)) ->
  generate_loop (S turns) 0 draws uid ip ua (Some (session_id row)) true last d
  = (Ok (raw_refresh (draws 0%nat)),
     set_auth_sessions d
       (Sql.update (fun r => String.eqb (session_id r) (session_id row))
                   (fun r => with_rotation r (SecurityUtils.hash_token (raw_refresh (draws 0%nat)))
                                           last (now_expiry (draws 0%nat) + hours 1))
                   (auth_sessions d))).
Proof.
  intros Hsid Hh Hin Hnew.
  pose proof (rotation_keeps_hashes_distinct
                _ row _ last (now_expiry (draws 0%nat) + hours 1) Hsid Hh Hin Hnew) as Hnd.
  apply distinct_NoDup in Hnd.
  cbn [generate_loop]. unfold try_except, bind, on_auth_sessions, ARepo.rotate_refresh_token, ret.
  rewrite Hnd. reflexivity.
Qed.

(** X12: a rotation replaces the token.  For the current token of a live
    session of an active user, with a new token whose hash is free, the
    request answers with the new token; afterwards the new token finds the
    session, whose row keeps its absolute expiry and has the sliding expiry
    one hour after the draw, the old token finds no session, and the rows
    of the other sessions are as before. *)
Theorem rotation_replaces_the_token (clock : Clock) (draws : nat -> Draw) (tok : string)
        (d : DB) (row : AuthSession.t) (row_user : User.t) :
  NoDup (map session_id (auth_sessions d)) ->
  NoDup (map refresh_token_hash (auth_sessions d)) ->
  get_refresh_token (SecurityUtils.hash_token tok) (auth_sessions d) = Some row ->
  user_of row d = Some row_user -> User.is_active row_user = true ->
  revoked row = false ->
  now_soft clock <= AuthSession.expires_at row ->
  now_hard clock <= absolute_expires_at row ->
  last_token_hash row <> Some (SecurityUtils.hash_token tok) ->
  ~ In (SecurityUtils.hash_token (raw_refresh (draws 0%nat)))
       (map refresh_token_hash (auth_sessions d)) ->
  exists resp d',
    rotate_refresh_token clock draws tok d = (Ok resp, d')
    /\ refresh_token resp = raw_refresh (draws 0%nat)
    /\ get_refresh_token (SecurityUtils.hash_token (raw_refresh (draws 0%nat)))
                         (auth_sessions d')
       = Some (rotated row tok (draws 0%nat))
    /\ absolute_expires_at (rotated row tok (draws 0%nat)) = absolute_expires_at row
    /\ get_refresh_token (SecurityUtils.hash_token tok) (auth_sessions d') = None
    /\ (forall r, In r (auth_sessions d) -> session_id r <> session_id row ->
                  In r (auth_sessions d'))
    /\ users d' = users d.
Proof.
  intros Hsid Hh Hrow Huser Hactive Hrev Hsoft Hhard Hlast Hnew.
  destruct (first_in _ _ _ Hrow) as [Hin Hhash]. apply String.eqb_eq in Hhash.
  pose proof (rotation_first_turn 2 draws (User.id row_user) (ip_address row) (user_agent row)
                                  row (Some (SecurityUtils.hash_token tok)) d
                                  Hsid Hh Hin Hnew) as Hturn.
  pose proof (rotation_keeps_hashes_distinct
                _ row _ (Some (SecurityUtils.hash_token tok))
                (now_expiry (draws 0%nat) + hours 1) Hsid Hh Hin Hnew) as Hnd.
  set (t' := Sql.update (fun r => String.eqb (session_id r) (session_id row))
                        (fun r => with_rotation r
                                    (SecurityUtils.hash_token (raw_refresh (draws 0%nat)))
                                    (Some (SecurityUtils.hash_token tok))
                                    (now_expiry (draws 0%nat) + hours 1))
                        (auth_sessions d)) in *.
  assert (Hin' : In (rotated row tok (draws 0%nat)) t').
  { unfold t', Sql.update. apply in_map_iff. exists row. split; [|exact Hin].
    now rewrite String.eqb_refl. }
  eexists. exists (set_auth_sessions d t').
  split.
  { unfold rotate_refresh_token, bind, get. rewrite Hrow.
    unfold user_of in Huser. rewrite Huser, Hactive, Hrev. cbn [negb].
    replace (AuthSession.expires_at row <? now_soft clock) with false
      by (symmetry; apply Z.ltb_ge; lia).
    replace (absolute_expires_at row <? now_hard clock) with false
      by (symmetry; apply Z.ltb_ge; lia).
    assert (Hl : match last_token_hash row with
                 | Some h => String.eqb h (SecurityUtils.hash_token tok)
                 | None => false
                 end = false).
    { destruct (last_token_hash row) as [h|]; [|reflexivity].
      apply String.eqb_neq. congruence. }
    rewrite Hl. unfold _try_generate_unique_refresh_token_with_retries.
    change config.MAX_TOKEN_GENERATION_RETRIES with 3%nat.
    rewrite Hturn. reflexivity. }
  split; [reflexivity|].
  split.
  { unfold get_refresh_token, Sql.first, Sql.select. rewrite map_id.
    destruct d as [us tc ss tm ps]. cbn [auth_sessions set_auth_sessions].
    erewrite filter_ext;
      [rewrite (SqlFacts.filter_key refresh_token_hash String.eqb (fun _ => true) t'
                                    (rotated row tok (draws 0%nat)) String.eqb_eq Hnd Hin');
       reflexivity|].
    intros r. cbv beta. rewrite andb_true_r. reflexivity. }
  split; [reflexivity|].
  split.
  { unfold get_refresh_token, Sql.first, Sql.select. rewrite map_id.
    destruct d as [us tc ss tm ps]. cbn [auth_sessions set_auth_sessions] in *.
    rewrite SqlFacts.filter_none; [reflexivity|].
    intros r' Hr'. apply String.eqb_neq. intros E.
    unfold t', Sql.update in Hr'. apply in_map_iff in Hr'. destruct Hr' as (r & <- & Hr).
    destruct (String.eqb (session_id r) (session_id row)) eqn:Es.
    - simpl in E. apply Hnew. rewrite E, <- Hhash. now apply in_map.
    - assert (r = row); [|subst r; now rewrite String.eqb_refl in Es].
      apply (key_identifies_row refresh_token_hash ss); try assumption. congruence. }
  split; [|destruct d; reflexivity].
  intros r Hr Hne. destruct d as [us tc ss tm ps]. cbn [auth_sessions set_auth_sessions] in *.
  unfold t', Sql.update. apply in_map_iff. exists r. split; [|exact Hr].
  apply String.eqb_neq in Hne. now rewrite Hne.
Qed.

Lemma rotation_witness :
  exists resp d',
    rotate_refresh_token AuthSamples.at_10_minutes AuthSamples.draws "T1" AuthSamples.db0
    = (Ok resp, d')
    /\ refresh_token resp = "T2"
    /\ get_refresh_token (SecurityUtils.hash_token "T1") (auth_sessions d') = None.
Proof.
  assert (Hrow : get_refresh_token (SecurityUtils.hash_token "T1")
                                   (auth_sessions AuthSamples.db0)
                 = Some AuthSamples.session0) by (vm_compute; reflexivity).
  assert (Hnew : ~ In (SecurityUtils.hash_token (raw_refresh (AuthSamples.draws 0%nat)))
                      (map refresh_token_hash (auth_sessions AuthSamples.db0))).
  { vm_compute. intros [H|[]]. discriminate H. }
  assert (Hsid : NoDup (map session_id (auth_sessions AuthSamples.db0))).
  { simpl. constructor; [intros []|constructor]. }
  assert (Hh : NoDup (map refresh_token_hash (auth_sessions AuthSamples.db0))).
  { simpl. constructor; [intros []|constructor]. }
  destruct (rotation_replaces_the_token
              AuthSamples.at_10_minutes AuthSamples.draws "T1" AuthSamples.db0
              AuthSamples.session0 Samples.bob Hsid Hh Hrow eq_refl eq_refl eq_refl
              ltac:(vm_compute; discriminate) ltac:(vm_compute; discriminate)
              ltac:(discriminate) Hnew)
    as (resp & d' & H1 & H2 & _ & _ & H3 & _).
  exists resp, d'. split; [exact H1|]. split; [exact H2|exact H3].
Defined.

(** X13: a logout ends the session.  When the presented token is the
    current token of a session of an active user, the logout marks every
    row of that session revoked, whoever the authenticated caller is, and
    a later rotation request with the token is refused as a reuse and
    writes nothing. *)
Theorem logout_ends_the_session (caller : User.t) (clock : Clock) (draws : nat -> Draw)
        (tok : string) (d : DB) (row : AuthSession.t) (row_user : User.t) :
  get_refresh_token (SecurityUtils.hash_token tok) (auth_sessions d) = Some row ->
  user_of row d = Some row_user -> User.is_active row_user = true ->
  revoke_refresh_token caller tok d
  = (Ok "Logout successful.", revoke_session (session_id row) d)
  /\ rotate_refresh_token clock draws tok (revoke_session (session_id row) d)
     = (Raise ReusedTokenException, revoke_session (session_id row) d).
Proof.
  intros Hrow Huser Hactive. split.
  - unfold revoke_refresh_token, bind, get. rewrite Hrow. reflexivity.
  - assert (Hrow' : get_refresh_token (SecurityUtils.hash_token tok)
                                      (auth_sessions (revoke_session (session_id row) d))
                    = Some (with_revoked row true)).
    { unfold revoke_session. destruct d as [us tc ss tm ps].
      cbn [auth_sessions set_auth_sessions] in *. unfold get_refresh_token in *.
      rewrite first_after_update by reflexivity. rewrite Hrow. simpl.
      now rewrite String.eqb_refl. }
    unfold rotate_refresh_token, bind, get. rewrite Hrow'.
    assert (Huser' : Sql.first
                       (Sql.select
                          (fun u => User.id u =? user_id (with_revoked row true))
                          (fun u => u) (users (revoke_session (session_id row) d)))
                     = Some row_user).
    { destruct d; exact Huser. }
    rewrite Huser', Hactive. reflexivity.
Qed.

Lemma logout_witness :
  revoke_refresh_token Samples.ann "T1" AuthSamples.db0
  = (Ok "Logout successful.", revoke_session "S" AuthSamples.db0)
  /\ rotate_refresh_token AuthSamples.at_10_minutes AuthSamples.draws "T1"
                          (revoke_session "S" AuthSamples.db0)
     = (Raise ReusedTokenException, revoke_session "S" AuthSamples.db0).
Proof.
  assert (Hrow : get_refresh_token (SecurityUtils.hash_token "T1")
                                   (auth_sessions AuthSamples.db0)
                 = Some AuthSamples.session0) by (vm_compute; reflexivity).
  exact (logout_ends_the_session Samples.ann AuthSamples.at_10_minutes AuthSamples.draws
                                 "T1" AuthSamples.db0 AuthSamples.session0 Samples.bob
                                 Hrow eq_refl eq_refl).
Defined.

End SessionFacts.

(** ** The account: deletion and the listing of balances *)

Module AccountFacts.
Import User UserService Vocabulary.

Lemma filter_key_short {R} (key : R -> Z) (p : R -> bool) (k : Z) (t : list R) :
  NoDup (map key t) ->
  (length (filter (fun r => (key r =? k)%Z && p r) t) <= 1)%nat.
Proof.
  induction t as [|x t IH]; intros Hnd; simpl; [lia|].
  simpl in Hnd. inversion Hnd as [|? ? Hx Hnd']; subst.
  destruct (key x =? k) eqn:E; simpl; [|now apply IH].
  apply Z.eqb_eq in E. destruct (p x); [|now apply IH]. simpl.
  rewrite SqlFacts.filter_none; [simpl; lia|].
  intros r Hr. destruct (key r =? k) eqn:E'; [|reflexivity].
  apply Z.eqb_eq in E'. exfalso. apply Hx. rewrite E, <- E'. now apply in_map.
Qed.

Lemma filter_empty {R} (c : R -> bool) (t : list R) :
  filter c t = [] -> forall r, In r t -> c r = false.
Proof.
  intros H r Hr. destruct (c r) eqn:E; [|reflexivity].
  assert (Hin : In r (filter c t)) by (apply filter_In; now split).
  rewrite H in Hin. destruct Hin.
Qed.

(** after the soft delete no row with the id is active *)
Lemma deleted_rows_inactive (uid : Z) (t : list User.t) (r : User.t) :
  In r (snd (UserRepo.delete_user uid t)) -> id r = uid -> is_active r = false.
Proof.
  unfold UserRepo.delete_user, Sql.update. cbn [snd]. intros Hin E.
  apply in_map_iff in Hin. destruct Hin as (x & Hx & _).
  destruct ((id x =? uid) && is_active x) eqn:C; subst r; [reflexivity|].
  apply Z.eqb_eq in E. rewrite E in C. exact C.
Qed.

(** X14: a deleted account is closed.  When an active user confirms the
    deletion with their own user name and password (and, with tokens
    left, with the balance confirmation), the request succeeds, and
    afterwards the user is not found by id, an access token that carries
    the id is refused, every session row of the user is revoked, a
    rotation request with the token of one of their sessions is refused
    and writes nothing, and the rows of the other users are as before. *)
Theorem deleted_account_is_closed (user : User.t) (confirm_delete_with_balance : bool)
        (d : DB) :
  NoDup (map id (users d)) -> In user (users d) -> is_active user = true ->
  (0 < tokens user -> confirm_delete_with_balance = true) ->
  exists d',
    delete_user true user (username user) confirm_delete_with_balance d
    = (Returns "User deleted successfully", d')
    /\ get_user_by_id (id user) (users d') = Ok None
    /\ AuthService.validate_user_check (AuthService.Payload (Some (id user))) d'
       = (Raise InvalidTokenException, d')
    /\ (forall r, In r (auth_sessions d') -> AuthSession.user_id r = id user ->
                  AuthSession.revoked r = true)
    /\ (forall clock draws tok row,
          AuthRepository.get_refresh_token (SecurityUtils.hash_token tok) (auth_sessions d')
          = Some row ->
          AuthSession.user_id row = id user ->
          AuthService.rotate_refresh_token clock draws tok d'
          = (Raise InvalidTokenException, d'))
    /\ (forall u, In u (users d) -> id u <> id user -> In u (users d')).
Proof.
  intros Hnd Hin Hactive Hflag.
  set (us := snd (UserRepo.delete_user (id user) (users d))).
  set (ss := Sql.update (fun r => AuthSession.user_id r =? id user)
                        (fun r => AuthSession.with_revoked r true) (auth_sessions d)).
  exists (set_auth_sessions (set_users d us) ss).
  assert (Hnone : filter (fun u => (id u =? id user) && is_active u) us = []).
  { apply SqlFacts.filter_none. intros r Hr.
    destruct (id r =? id user) eqn:E; [|reflexivity].
    apply Z.eqb_eq in E. simpl. exact (deleted_rows_inactive _ _ _ Hr E). }
  assert (Hget : get_user_by_id (id user) us = Ok None).
  { unfold get_user_by_id, UserRepo.get_user_by_id, Sql.select. rewrite Hnone. reflexivity. }
  split.
  { unfold delete_user. rewrite String.eqb_refl. cbn [negb orb].
    assert (Hbal : (0 <? tokens user) && negb confirm_delete_with_balance = false).
    { destruct (0 <? tokens user) eqn:E; [|reflexivity].
      apply Z.ltb_lt in E. now rewrite (Hflag E). }
    rewrite Hbal. unfold UserRepo.delete_user, Sql.rowcount.
    rewrite (SqlFacts.filter_key id Z.eqb is_active (users d) user
                                 UserRepositoryFacts.Zeqb_iff Hnd Hin).
    rewrite Hactive. destruct d; reflexivity. }
  split; [destruct d; exact Hget|].
  split.
  { unfold AuthService.validate_user_check.
    destruct (id user =? 0); [reflexivity|].
    unfold bind, get, of_result.
    replace (users (set_auth_sessions (set_users d us) ss)) with us by (destruct d; reflexivity).
    rewrite Hget. reflexivity. }
  split.
  { intros r Hr E.
    replace (auth_sessions (set_auth_sessions (set_users d us) ss)) with ss in Hr
      by (destruct d; reflexivity).
    unfold ss, Sql.update in Hr. apply in_map_iff in Hr. destruct Hr as (x & Hx & _).
    destruct (AuthSession.user_id x =? id user) eqn:C; subst r; [reflexivity|].
    apply Z.eqb_neq in C. contradiction. }
  split.
  { intros clock draws tok row Hrow E.
    unfold AuthService.rotate_refresh_token, bind, get. rewrite Hrow.
    replace (users (set_auth_sessions (set_users d us) ss)) with us by (destruct d; reflexivity).
    rewrite E.
    destruct (Sql.first (Sql.select (fun u => id u =? id user) (fun u => u) us))
      as [row_user|] eqn:Hu; [|reflexivity].
    apply SessionFacts.first_in in Hu. destruct Hu as [Hu Hid]. apply Z.eqb_eq in Hid.
    rewrite (deleted_rows_inactive _ _ _ Hu Hid). reflexivity. }
  intros u Hu Hne.
  replace (users (set_auth_sessions (set_users d us) ss)) with us by (destruct d; reflexivity).
  unfold us, UserRepo.delete_user, Sql.update. cbn [snd]. apply in_map_iff.
  exists u. split; [|exact Hu]. apply Z.eqb_neq in Hne. now rewrite Hne.
Qed.

Lemma deleted_account_witness :
  exists d',
    delete_user true Samples.ann "ann" true AuthSamples.db0
    = (Returns "User deleted successfully", d')
    /\ get_user_by_id 1 (users d') = Ok None.
Proof.
  assert (Hnd : NoDup (map id (users AuthSamples.db0))).
  { simpl. repeat constructor; simpl; intuition discriminate. }
  destruct (deleted_account_is_closed Samples.ann true AuthSamples.db0 Hnd
                                      (or_introl eq_refl) eq_refl (fun _ => eq_refl))
    as (d' & H1 & H2 & _).
  exists d'. split; [exact H1|exact H2].
Defined.

(** X15: a refused deletion writes nothing.  Whatever the reason of the
    refusal (the confirmation does not match, tokens are left and the
    balance confirmation is missing, the user is already inactive), the
    database is as it was. *)
Theorem refused_deletion_writes_nothing (password_verifies : bool) (user : User.t)
        (confirm_username : string) (confirm_delete_with_balance : bool)
        (d d' : DB) (e : Error) :
  NoDup (map id (users d)) ->
  delete_user password_verifies user confirm_username confirm_delete_with_balance d
  = (Raises e, d') ->
  d' = d.
Proof.
  intros Hnd. unfold delete_user.
  destruct (negb (String.eqb (username user) confirm_username) || negb password_verifies);
    [intros H; now inversion H|].
  destruct ((0 <? tokens user) && negb confirm_delete_with_balance);
    [intros H; now inversion H|].
  unfold UserRepo.delete_user, Sql.rowcount.
  pose proof (filter_key_short id is_active (id user) (users d) Hnd) as Hshort.
  destruct (filter (fun u => (id u =? id user) && is_active u) (users d)) as [|x [|y l]] eqn:F.
  - simpl. intros H. inversion H. subst d'.
    rewrite SqlFacts.update_none by (apply filter_empty; exact F).
    apply TokenCreditFacts.set_users_same.
  - simpl. intros H. discriminate H.
  - simpl in Hshort. lia.
Qed.

Lemma refused_deletion_witness :
  snd (delete_user true Samples.ann "ann" false AuthSamples.db0) = AuthSamples.db0
  /\ snd (delete_user true Samples.cat "cat" false AuthSamples.db0) = AuthSamples.db0.
Proof.
  assert (Hnd : NoDup (map id (users AuthSamples.db0))).
  { simpl. repeat constructor; simpl; intuition discriminate. }
  split.
  - exact (refused_deletion_writes_nothing
             true Samples.ann "ann" false AuthSamples.db0 _ _ Hnd eq_refl).
  - exact (refused_deletion_writes_nothing
             true Samples.cat "cat" false AuthSamples.db0 _ _ Hnd eq_refl).
Defined.

(** X16: the listing of all balances is read before the charge.  For an
    active caller who can pay, the answer is charged, its [balance] is the
    balance after the debit, while the entry of the caller in its [data]
    still shows the balance before it; the debit is in the table.  A
    caller who cannot pay gets [NotEnoughTokensException] and nothing is
    written. *)
Theorem listing_is_read_before_the_charge (user : User.t) (action : ActionType) (d : DB) :
  NoDup (map id (users d)) -> In user (users d) -> is_active user = true ->
  0 <= tokens user <= 1000 ->
  (cost action <= tokens user ->
   exists resp,
     get_all_users_tokens user action d
     = (Ok resp, set_users d (set_balance (id user) (tokens user - cost action) (users d)))
     /\ charged resp = true
     /\ balance resp = tokens user - cost action
     /\ In (username user, tokens user) (data resp))
  /\ (tokens user < cost action ->
      get_all_users_tokens user action d = (Raise NotEnoughTokensException, d)).
Proof.
  intros Hnd Hin Hactive Hb.
  assert (Hdata : In (username user, tokens user) (UserRepo.get_all_users_tokens (users d))).
  { unfold UserRepo.get_all_users_tokens, Sql.select.
    apply in_map_iff. exists user. split; [reflexivity|]. apply filter_In. now split. }
  assert (Hcost : 0 <= cost action) by (destruct action; simpl; lia).
  unfold get_all_users_tokens, bind, get.
  destruct (UserRepo.get_all_users_tokens (users d)) as [|x l] eqn:E; [destruct Hdata|].
  unfold on_users. split.
  - intros Hle.
    rewrite (UserRepositoryFacts.update_tokens_enough (users d) user (cost action)
                                                      Hnd Hin Hb Hcost Hle).
    eexists. split; [reflexivity|]. simpl. repeat split. exact Hdata.
  - intros Hlt.
    rewrite (UserRepositoryFacts.update_tokens_short (users d) user (cost action)
                                                     Hnd Hin Hlt).
    unfold ret. now rewrite TokenCreditFacts.set_users_same.
Qed.

Lemma listing_witness :
  exists resp,
    fst (get_all_users_tokens Samples.ann METADATA AuthSamples.db0) = Ok resp
    /\ balance resp = 6 /\ In ("ann", 7) (data resp).
Proof.
  assert (Hnd : NoDup (map id (users AuthSamples.db0))).
  { simpl. repeat constructor; simpl; intuition discriminate. }
  destruct (listing_is_read_before_the_charge Samples.ann METADATA AuthSamples.db0 Hnd
                                              (or_introl eq_refl) eq_refl ltac:(simpl; lia))
    as [H _].
  destruct (H ltac:(simpl; lia)) as (resp & H1 & _ & H2 & H3).
  exists resp. rewrite H1. split; [reflexivity|]. split; [exact H2|exact H3].
Defined.

End AccountFacts.

(** ** Training requests *)

Module TrainingFacts.
Import TrainModelService TrainingVocabulary Vocabulary.
Module TMRepo := TrainModelRepository.
Module URepo := UserRepository.

Lemma next_id_above (ids : list Z) (x : Z) : In x ids -> x < Sql.next_id ids.
Proof.
  unfold Sql.next_id. induction ids as [|y ids IH]; intros H; [destruct H|].
  cbn [fold_right]. destruct H as [->|H]; [lia|]. specialize (IH H). lia.
Qed.

(** the row that took the next id is the only row of that id *)
Section NewRow.
Context {R : Type} (id : R -> Z) (t : list R) (row : R).
Hypothesis new_id : id row = Sql.next_id (map id t).

Lemma new_id_fresh (r : R) : In r t -> (id r =? id row) = false.
Proof.
  intros Hr. apply Z.eqb_neq. rewrite new_id.
  pose proof (next_id_above (map id t) (id r) (in_map id t r Hr)). lia.
Qed.

Lemma filter_new (p : R -> bool) :
  filter (fun r => (id r =? id row) && p r) (t ++ [row]) = if p row then [row] else [].
Proof.
  rewrite filter_app, SqlFacts.filter_none
    by (intros r Hr; now rewrite (new_id_fresh r Hr)).
  simpl. rewrite Z.eqb_refl. simpl. destruct (p row); reflexivity.
Qed.

Lemma update_new_pending (p : R -> bool) (f : R -> R) :
  p row = true ->
  Sql.update (fun r => (id r =? id row) && p r) f (t ++ [row]) = t ++ [f row].
Proof.
  intros Hp. unfold Sql.update. rewrite map_app. f_equal.
  - rewrite <- (map_id t) at 2. apply map_ext_in. intros r Hr.
    now rewrite (new_id_fresh r Hr).
  - simpl. now rewrite Z.eqb_refl, Hp.
Qed.

Lemma filter_new_id : filter (fun r => id r =? id row) (t ++ [row]) = [row].
Proof.
  rewrite filter_app, SqlFacts.filter_none by exact new_id_fresh.
  simpl. now rewrite Z.eqb_refl.
Qed.

Lemma update_new_id (f : R -> R) :
  Sql.update (fun r => id r =? id row) f (t ++ [row]) = t ++ [f row].
Proof.
  unfold Sql.update. rewrite map_app. f_equal.
  - rewrite <- (map_id t) at 2. apply map_ext_in. intros r Hr.
    now rewrite (new_id_fresh r Hr).
  - simpl. now rewrite Z.eqb_refl.
Qed.
End NewRow.

Import ProofSteps.

Lemma tm_mark_applied_new (t : list TrainedModel.t) (row : TrainedModel.t) (m : json) :
  TrainedModel.id row = Sql.next_id (map TrainedModel.id t) ->
  TrainedModel.status row = pending ->
  TMRepo.mark_applied (TrainedModel.id row) m (t ++ [row])
  = (Ok (Some (TrainedModel.with_status_metrics row applied m)),
     t ++ [TrainedModel.with_status_metrics row applied m]).
Proof.
  intros Hid Hst. unfold TMRepo.mark_applied, Sql.returning.
  rewrite (filter_new TrainedModel.id t row Hid), Hst. cbn [RowStatus_eqb map Sql.scalar_one_or_none].
  rewrite (update_new_pending TrainedModel.id t row Hid) by (now rewrite Hst).
  unfold Sql.first, Sql.select. rewrite map_id.
  change (TrainedModel.id (TrainedModel.with_status_metrics row applied m))
    with (TrainedModel.id row).
  pose proof (filter_new_id TrainedModel.id t (TrainedModel.with_status_metrics row applied m) Hid)
    as Hf.
  cbn [TrainedModel.id TrainedModel.with_status_metrics] in Hf.
  rewrite Hf. reflexivity.
Qed.

Lemma tm_lookup_new (uid : Z) (fp : string) (t : list TrainedModel.t) (row : TrainedModel.t) :
  existsb (TMRepo.owned uid fp) t = false -> TMRepo.owned uid fp row = true ->
  TMRepo.get_by_user_fingerprint uid fp (t ++ [row]) = Ok (Some row).
Proof.
  intros Hnew Hown. unfold TMRepo.get_by_user_fingerprint, Sql.select.
  rewrite map_id, filter_app, SqlFacts.filter_none
    by (apply TokenCreditFacts.existsb_false; exact Hnew).
  simpl. now rewrite Hown.
Qed.





Lemma append_length (a b : string) :
  String.length (a ++ b) = (String.length a + String.length b)%nat.
Proof. induction a as [|c a IH]; simpl; [reflexivity|now rewrite IH]. Qed.





Lemma lookup_written (p : string) (content : list Byte.byte) (o : Os.t) :
  Os.lookup p (Os.write p content o) = Some content.
Proof. unfold Os.lookup, Os.write. simpl. now rewrite String.eqb_refl. Qed.

(** X18: a first training submission that succeeds.  With no ledger row
    of the fingerprint, a worker that exits with code 0, metrics and an
    artifact, a balance that covers the cost and a final path that can be
    written, the request answers charged, with the balance after the
    debit and the row, now applied with the metrics of the worker; the row
    is the row of the fingerprint in the ledger, the debit is in the users
    table, the artifact is at the final path and the worker ran once. *)
Theorem first_training_is_applied_and_charged
        (user : User.t) (file mt_c : string) (feats_c : list string) (label_c : string)
        (params_n params_fp schema metrics : json) (action : ActionType) (w : World)
        (fp err : string) (content : list Byte.byte) :
  FingerprintHashing.compute_training_fingerprint
    file (Json.sorted_strs feats_c) label_c mt_c params_fp "requirements.txt" (os w) = Ok fp ->
  existsb (TMRepo.owned (User.id user) fp) (trained_models (database w)) = false ->
  NoDup (map User.id (users (database w))) -> In user (users (database w)) ->
  0 <= User.tokens user <= 1000 -> cost action <= User.tokens user ->
  existsb (String.eqb (Files.unique_model_path user fp)) (Os.replace_denied (os w)) = false ->
  exists w',
    train_model (WorkerExit 0 (Some metrics) err (Some content)) user file mt_c feats_c label_c
                params_n params_fp schema action w
    = (Ok (mkResponse
             (submitted_row user mt_c feats_c params_n label_c schema fp
                            (trained_models (database w)) applied metrics)
             true (User.tokens user - cost action)), w')
    /\ TMRepo.get_by_user_fingerprint (User.id user) fp (trained_models (database w'))
       = Ok (Some (submitted_row user mt_c feats_c params_n label_c schema fp
                                 (trained_models (database w)) applied metrics))
    /\ users (database w')
       = set_balance (User.id user) (User.tokens user - cost action) (users (database w))
    /\ Os.lookup (Files.unique_model_path user fp) (os w') = Some content
    /\ compute_runs w' = S (compute_runs w).
Proof.
  intros Hfp Hnew Hnd Hin Hb Hle Hdenied.
  assert (Hcost : 0 <= cost action) by (destruct action; simpl; lia).
  set (t := trained_models (database w)) in *.
  set (row := submitted_row user mt_c feats_c params_n label_c schema fp t pending (JDict [])).
  assert (Hid : TrainedModel.id row = Sql.next_id (map TrainedModel.id t)) by reflexivity.
  eexists.
  split.
  { unfold train_model, bind, get, of_result. rewrite Hfp.
    unfold on_db at 1. unfold on_trained_models at 1. unfold TMRepo.try_insert_pending.
    fold t. rewrite Hnew. cbn [fst snd].
    unfold run_and_publish, launch_compute, modify, bind, try_except, on_os, on_db,
      on_trained_models, on_users, raise, ret.
    cbn [fst snd database os compute_runs wrote_of Z.eqb negb users trained_models
         set_trained_models set_users].
    rewrite (UserRepositoryFacts.update_tokens_enough _ user (cost action) Hnd Hin Hb Hcost Hle).
    cbn [fst snd database os compute_runs users trained_models set_trained_models set_users].
    pose proof (tm_mark_applied_new t row metrics Hid eq_refl) as Hmark.
    unfold row, submitted_row in Hmark. tm_fields_in Hmark. rewrite Hmark.
    cbn [fst snd database os compute_runs users trained_models set_trained_models set_users].
    unfold Files.move_temp_to_final, Os.replace. rewrite lookup_written.
    change (Os.replace_denied (Os.write _ content (os w))) with (Os.replace_denied (os w)).
    rewrite Hdenied. reflexivity. }
  cbn [database os compute_runs users trained_models set_trained_models set_users].
  split.
  { apply tm_lookup_new; [exact Hnew|]. unfold TMRepo.owned. simpl.
    now rewrite Z.eqb_refl, String.eqb_refl. }
  split; [reflexivity|].
  split; [|reflexivity].
  unfold Os.lookup. simpl. now rewrite String.eqb_refl.
Qed.

Lemma first_training_witness :
  exists w',
    ServiceSamples.train ServiceSamples.worker_ok ServiceSamples.world0
    = (Ok (mkResponse ServiceSamples.trained_row true 10), w')
    /\ Os.lookup ServiceSamples.final0 (os w') = Some [Byte.x01].
Proof.
  assert (Hfp : FingerprintHashing.compute_training_fingerprint
                  "upload.csv" (Json.sorted_strs ["x"]) "y" "linear" ServiceSamples.params0
                  "requirements.txt" (os ServiceSamples.world0) = Ok ServiceSamples.fp0)
    by (vm_compute; reflexivity).
  assert (Hnd : NoDup (map User.id (users (database ServiceSamples.world0)))).
  { simpl. constructor; [intros []|constructor]. }
  destruct (first_training_is_applied_and_charged
              ServiceSamples.rich "upload.csv" "linear" ["x"] "y" ServiceSamples.params0
              ServiceSamples.params0 ServiceSamples.schema0 ServiceSamples.metrics0 TRAINING
              ServiceSamples.world0 ServiceSamples.fp0 EmptyString [Byte.x01]
              Hfp eq_refl Hnd (or_introl eq_refl) ltac:(simpl; lia) ltac:(simpl; lia) eq_refl)
    as (w' & H1 & _ & _ & H2 & _).
  exists w'. split; [exact H1|exact H2].
Defined.



End TrainingFacts.

(** ** Prediction requests *)

Module PredictionFacts.
Import PredictionService PredictionVocabulary Vocabulary.
Module PRepo := PredictionRepository.
Module URepo := UserRepository.

Import ProofSteps.

Lemma p_mark_applied_new (t : list Prediction.t) (row : Prediction.t) (res : string) :
  Prediction.id row = Sql.next_id (map Prediction.id t) ->
  Prediction.status row = pending ->
  PRepo.mark_applied (Prediction.id row) res (t ++ [row])
  = (Ok (Some (Prediction.with_status_result row applied res)),
     t ++ [Prediction.with_status_result row applied res]).
Proof.
  intros Hid Hst. unfold PRepo.mark_applied, Sql.returning.
  rewrite (TrainingFacts.filter_new Prediction.id t row Hid), Hst.
  cbn [RowStatus_eqb map Sql.scalar_one_or_none].
  rewrite (TrainingFacts.update_new_pending Prediction.id t row Hid) by (now rewrite Hst).
  unfold Sql.first, Sql.select. rewrite map_id.
  change (Prediction.id (Prediction.with_status_result row applied res))
    with (Prediction.id row).
  pose proof (TrainingFacts.filter_new_id
                Prediction.id t (Prediction.with_status_result row applied res) Hid) as Hf.
  cbn [Prediction.id Prediction.with_status_result] in Hf.
  rewrite Hf. reflexivity.
Qed.

Lemma p_lookup_new (uid : Z) (fp : string) (t : list Prediction.t) (row : Prediction.t) :
  existsb (PRepo.owned uid fp) t = false -> PRepo.owned uid fp row = true ->
  PRepo.get_by_user_fingerprint uid fp (t ++ [row]) = Ok (Some row).
Proof.
  intros Hnew Hown. unfold PRepo.get_by_user_fingerprint, Sql.select.
  rewrite map_id, filter_app, SqlFacts.filter_none
    by (apply TokenCreditFacts.existsb_false; exact Hnew).
  simpl. now rewrite Hown.
Qed.

(** the request up to the insert of the pending row, when the guard
    passes and the ledger has no row of the fingerprint *)
Lemma predict_first (load : load_outcome) (run : predict_outcome) (user : User.t)
      (request : PredictionRequest) (action : ActionType) (w : World)
      (tm_row : TrainedModel.t) :
  fst (_load_model_row_for_user load (User.id user) (model_id request) w) = Ok tm_row ->
  existsb (PRepo.owned (User.id user)
                       (FingerprintHashing.compute_prediction_fingerprint
                          (TrainedModel.id tm_row) (feature_values request)))
          (predictions (database w)) = false ->
  predict load run user request action w
  = run_and_apply run user action tm_row request
                  (Sql.next_id (map Prediction.id (predictions (database w))))
                  (mkWorld (set_predictions
                              (database w)
                              (predictions (database w)
                               ++ [requested_row user tm_row request (predictions (database w))
                                                 pending EmptyString]))
                           (os w) (compute_runs w)).
Proof.
  intros Hload Hnew.
  pose proof (ServiceFacts.load_guard_same_world load (User.id user) (model_id request) w) as Hw.
  unfold predict, bind at 1.
  destruct (_load_model_row_for_user _ _ _ w) as [r w0]. simpl in Hload, Hw. subst r w0.
  unfold bind, on_db, on_predictions, PRepo.try_insert_pending. rewrite Hnew. reflexivity.
Qed.

(** X20: a first prediction request that succeeds.  When the guard
    passes, the ledger has no row of the fingerprint, the submitted keys
    are the features of the model, the model answers and the balance
    covers the cost, the request answers charged, with the balance after
    the debit and the row, now applied with the result; the row is the row
    of the fingerprint in the ledger, the debit is in the users table, the
    model ran once and the disk is as before. *)
Theorem first_prediction_is_applied_and_charged
        (load : load_outcome) (user : User.t) (request : PredictionRequest)
        (action : ActionType) (w : World) (tm_row : TrainedModel.t) (y : string) :
  fst (_load_model_row_for_user load (User.id user) (model_id request) w) = Ok tm_row ->
  existsb (PRepo.owned (User.id user)
                       (FingerprintHashing.compute_prediction_fingerprint
                          (TrainedModel.id tm_row) (feature_values request)))
          (predictions (database w)) = false ->
  _ensure_feature_keys_match (TrainedModel.features tm_row) (feature_values request) = true ->
  NoDup (map User.id (users (database w))) -> In user (users (database w)) ->
  0 <= User.tokens user <= 1000 -> cost action <= User.tokens user ->
  exists w',
    predict load (Predicted y) user request action w
    = (Ok (mkResponse (requested_row user tm_row request (predictions (database w)) applied y)
                      true (User.tokens user - cost action)), w')
    /\ PRepo.get_by_user_fingerprint
         (User.id user)
         (FingerprintHashing.compute_prediction_fingerprint
            (TrainedModel.id tm_row) (feature_values request))
         (predictions (database w'))
       = Ok (Some (requested_row user tm_row request (predictions (database w)) applied y))
    /\ users (database w')
       = set_balance (User.id user) (User.tokens user - cost action) (users (database w))
    /\ compute_runs w' = S (compute_runs w)
    /\ os w' = os w.
Proof.
  intros Hload Hnew Hkeys Hnd Hin Hb Hle.
  assert (Hcost : 0 <= cost action) by (destruct action; simpl; lia).
  set (t := predictions (database w)) in *.
  set (row := requested_row user tm_row request t pending EmptyString).
  assert (Hid : Prediction.id row = Sql.next_id (map Prediction.id t)) by reflexivity.
  eexists. split.
  { rewrite (predict_first load (Predicted y) user request action w tm_row Hload Hnew).
    fold t. unfold run_and_apply, launch_compute, modify, bind, try_except, on_db,
      on_predictions, on_users, raise, ret.
    rewrite Hkeys.
    cbn [negb fst snd database os compute_runs users predictions set_predictions set_users].
    rewrite (UserRepositoryFacts.update_tokens_enough _ user (cost action) Hnd Hin Hb Hcost Hle).
    cbn [fst snd database os compute_runs users predictions set_predictions set_users].
    pose proof (p_mark_applied_new t row y Hid eq_refl) as Hmark.
    unfold row, requested_row in Hmark. p_fields_in Hmark. unfold requested_row.
    rewrite Hmark. reflexivity. }
  cbn [database os compute_runs users predictions set_predictions set_users].
  split.
  { apply p_lookup_new; [exact Hnew|]. unfold PRepo.owned, requested_row.
    cbn [Prediction.user_id Prediction.fingerprint].
    now rewrite Z.eqb_refl, String.eqb_refl. }
  split; [reflexivity|]. split; reflexivity.
Qed.

Lemma first_prediction_witness :
  exists w',
    predict Loaded (Predicted "cat") ServiceSamples.rich ServiceSamples.request0 PREDICTION
            (mkWorld (mkDB [ServiceSamples.rich] [] [] [ServiceSamples.trained_row] [])
                     (Os.mk [(ServiceSamples.final0, [Byte.x01])] [] None) 0)
    = (Ok (mkResponse ServiceSamples.predicted_row true 15), w')
    /\ compute_runs w' = 1%nat.
Proof.
  assert (Hnd : NoDup (map User.id [ServiceSamples.rich])).
  { simpl. constructor; [intros []|constructor]. }
  destruct (first_prediction_is_applied_and_charged
              Loaded ServiceSamples.rich ServiceSamples.request0 PREDICTION
              (mkWorld (mkDB [ServiceSamples.rich] [] [] [ServiceSamples.trained_row] [])
                       (Os.mk [(ServiceSamples.final0, [Byte.x01])] [] None) 0)
              ServiceSamples.trained_row "cat"
              ltac:(vm_compute; reflexivity) eq_refl eq_refl Hnd (or_introl eq_refl)
              ltac:(simpl; lia) ltac:(simpl; lia))
    as (w' & H1 & _ & _ & H2 & _).
  exists w'. split; [exact H1|exact H2].
Defined.

(** X21: a prediction request whose keys are not the features of the
    model.  When the guard passes and the ledger has no row of the
    fingerprint, the request ends in [PredictionFailedException] whatever
    the model would answer: the model is not run, nothing is charged, the
    disk is as before, and the ledger row of the fingerprint is left
    failed. *)
Theorem mismatched_keys_fail_the_prediction
        (load : load_outcome) (run : predict_outcome) (user : User.t)
        (request : PredictionRequest) (action : ActionType) (w : World)
        (tm_row : TrainedModel.t) :
  fst (_load_model_row_for_user load (User.id user) (model_id request) w) = Ok tm_row ->
  existsb (PRepo.owned (User.id user)
                       (FingerprintHashing.compute_prediction_fingerprint
                          (TrainedModel.id tm_row) (feature_values request)))
          (predictions (database w)) = false ->
  _ensure_feature_keys_match (TrainedModel.features tm_row) (feature_values request) = false ->
  exists w',
    predict load run user request action w = (Raise PredictionFailedException, w')
    /\ compute_runs w' = compute_runs w
    /\ users (database w') = users (database w)
    /\ os w' = os w
    /\ PRepo.get_by_user_fingerprint
         (User.id user)
         (FingerprintHashing.compute_prediction_fingerprint
            (TrainedModel.id tm_row) (feature_values request))
         (predictions (database w'))
       = Ok (Some (requested_row user tm_row request (predictions (database w))
                                 failed EmptyString)).
Proof.
  intros Hload Hnew Hkeys.
  set (t := predictions (database w)) in *.
  set (row := requested_row user tm_row request t pending EmptyString).
  assert (Hid : Prediction.id row = Sql.next_id (map Prediction.id t)) by reflexivity.
  eexists. split.
  { rewrite (predict_first load run user request action w tm_row Hload Hnew).
    fold t. unfold run_and_apply, _fail_prediction_safely, bind, try_except, on_db,
      on_predictions, raise, ret, PRepo.mark_failed.
    rewrite Hkeys.
    cbn [negb fst snd database os compute_runs users predictions set_predictions set_users].
    pose proof (TrainingFacts.update_new_id Prediction.id t row Hid
                                            (fun r => Prediction.with_status r failed)) as Hmark.
    unfold row, requested_row in Hmark. p_fields_in Hmark. unfold requested_row.
    rewrite Hmark. reflexivity. }
  cbn [database os compute_runs users predictions set_predictions set_users].
  split; [reflexivity|]. split; [destruct (database w); reflexivity|].
  split; [reflexivity|].
  apply p_lookup_new; [exact Hnew|]. unfold PRepo.owned, requested_row.
  cbn [Prediction.user_id Prediction.fingerprint].
  now rewrite Z.eqb_refl, String.eqb_refl.
Qed.

Lemma mismatched_keys_witness :
  exists w',
    predict Loaded (Predicted "cat") ServiceSamples.rich (mkRequest 1 [("z", JInt 1)])
            PREDICTION
            (mkWorld (mkDB [ServiceSamples.rich] [] [] [ServiceSamples.trained_row] [])
                     (Os.mk [(ServiceSamples.final0, [Byte.x01])] [] None) 0)
    = (Raise PredictionFailedException, w')
    /\ compute_runs w' = 0%nat.
Proof.
  destruct (mismatched_keys_fail_the_prediction
              Loaded (Predicted "cat") ServiceSamples.rich (mkRequest 1 [("z", JInt 1)])
              PREDICTION
              (mkWorld (mkDB [ServiceSamples.rich] [] [] [ServiceSamples.trained_row] [])
                       (Os.mk [(ServiceSamples.final0, [Byte.x01])] [] None) 0)
              ServiceSamples.trained_row
              ltac:(vm_compute; reflexivity) eq_refl eq_refl)
    as (w' & H1 & H2 & _).
  exists w'. split; [exact H1|exact H2].
Defined.

End PredictionFacts.

(** ** What a request commits *)

Module RequestLevelFacts.
Import Database.
Module TMS := TrainModelService.
Module PS := PredictionService.
Module TMRepo := TrainModelRepository.
Module PRepo := PredictionRepository.
Module URepo := UserRepository.

Lemma returning_one {R} (c : R -> bool) (f : R -> R) (id : R -> Z) (t : list R) (i : Z) :
  (forall r, id (f r) = id r) ->
  Sql.scalar_one_or_none (Sql.returning c f id t) = Ok (Some i) ->
  forall r, In r t -> c r = true -> id r = i.
Proof.
  intros Hid H r Hr Hc. apply ServiceFacts.one_or_none_some in H.
  unfold Sql.returning in H.
  assert (Hin : In (id (f r)) (map (fun r => id (f r)) (filter c t))).
  { apply in_map_iff. exists r. split; [reflexivity|]. apply filter_In. now split. }
  rewrite H in Hin. destruct Hin as [E|[]]. rewrite <- (Hid r). now symmetry.
Qed.

(** the rows after a transition to applied that found its row *)
Lemma tm_applied_rows (i : Z) (m : json) (t t' : list TrainedModel.t) (x : TrainedModel.t) :
  TMRepo.mark_applied i m t = (Ok (Some x), t') ->
  forall r', In r' t' ->
    TrainedModel.status r' = applied
    \/ (In r' t /\ ((TrainedModel.id r' =? i)
                    && RowStatus_eqb (TrainedModel.status r') pending = false)).
Proof.
  unfold TMRepo.mark_applied.
  destruct (Sql.scalar_one_or_none _) as [[u|]|e]; intros H; inversion H; subst t'.
  intros r' Hr'. unfold Sql.update in Hr'. apply in_map_iff in Hr'.
  destruct Hr' as (r & <- & Hr).
  destruct ((TrainedModel.id r =? i) && RowStatus_eqb (TrainedModel.status r) pending) eqn:C.
  - now left.
  - right. split; assumption.
Qed.

Lemma run_and_publish_ok (worker : TMS.worker_outcome) (user : User.t) (action : ActionType)
      (row_id : Z) (tmp final : string) (w w' : World) (resp : TMS.TrainResponse) :
  TMS.run_and_publish worker user action row_id tmp final w = (Ok resp, w') ->
  exists m x b,
    URepo.update_tokens (User.id user) (cost action) (users (database w))
    = (Ok b, users (database w'))
    /\ TMRepo.mark_applied row_id m (trained_models (database w))
       = (Ok (Some x), trained_models (database w'))
    /\ TMS.charged resp = true /\ TMS.balance resp = b
    /\ token_credits (database w') = token_credits (database w)
    /\ auth_sessions (database w') = auth_sessions (database w)
    /\ predictions (database w') = predictions (database w).
Proof.
  unfold TMS.run_and_publish, launch_compute, modify, TMS._fail_and_cleanup, bind, try_except,
    on_os, on_db, on_trained_models, on_users, raise, ret.
  cbn [fst snd database os compute_runs].
  destruct worker as [wrote|rc out err wrote]; [discriminate|].
  destruct (negb (rc =? 0)); [discriminate|].
  destruct out as [metrics|]; [|discriminate].
  cbn [TMS.wrote_of database os compute_runs].
  destruct (URepo.update_tokens _ _ _) as [[b|e] us] eqn:Hdebit;
    cbn [database os compute_runs fst snd]; [|discriminate].
  replace (trained_models (set_users (database w) us)) with (trained_models (database w))
    by (destruct (database w); reflexivity).
  destruct (TMRepo.mark_applied _ _ _) as [[[row|]|e] tm] eqn:Hmark;
    cbn [database os compute_runs fst snd]; [|discriminate|discriminate].
  destruct (Files.move_temp_to_final tmp final _) as [[[]|e] o'];
    cbn [database os compute_runs fst snd]; [|discriminate].
  intros H. inversion H. subst resp w'. exists metrics, row, b.
  cbn [database TMS.charged TMS.balance]. rewrite ?Hdebit, ?Hmark.
  destruct (database w); cbn. repeat split; reflexivity.
Qed.

(** X22: what a training request commits.  Run under the transaction
    of [get_db], a request that raises leaves the database as it was,
    whatever it wrote before; a request that answers either is a replay,
    uncharged and with the database as it was, or is charged, its debit
    was accepted by the users table and gave the balance it reports, every
    ledger row is a row from before the request or is applied, and the
    other tables are as before.  No request commits a pending or a failed
    row. *)
Theorem training_request_commits_all_or_nothing
        (worker : TMS.worker_outcome) (user : User.t) (file mt_c : string)
        (feats_c : list string) (label_c : string) (params_n params_fp schema : json)
        (action : ActionType) (w : World) :
  match get_db (TMS.train_model worker user file mt_c feats_c label_c params_n params_fp
                                schema action) w with
  | (Raise _, w') => database w' = database w
  | (Ok resp, w') =>
      (TMS.charged resp = false /\ database w' = database w)
      \/ (TMS.charged resp = true
          /\ URepo.update_tokens (User.id user) (cost action) (users (database w))
             = (Ok (TMS.balance resp), users (database w'))
          /\ (forall r, In r (trained_models (database w')) ->
                        In r (trained_models (database w))
                        \/ TrainedModel.status r = applied)
          /\ token_credits (database w') = token_credits (database w)
          /\ auth_sessions (database w') = auth_sessions (database w)
          /\ predictions (database w') = predictions (database w))
  end.
Proof.
  unfold get_db.
  destruct (TMS.train_model _ _ _ _ _ _ _ _ _ _ w) as [[resp|e] w'] eqn:H; [|reflexivity].
  unfold TMS.train_model, bind, get, of_result in H.
  destruct (FingerprintHashing.compute_training_fingerprint _ _ _ _ _ _ _) as [fp|e];
    [|discriminate].
  unfold on_db at 1 in H. unfold on_trained_models at 1 in H.
  unfold TMRepo.try_insert_pending in H.
  destruct (existsb _ _) eqn:Hex.
  - rewrite ServiceFacts.set_trained_models_same, ServiceFacts.world_same in H.
    destruct (TMRepo.get_by_user_fingerprint _ _ _) as [[existing|]|e] eqn:Hget;
      try discriminate.
    destruct (TrainedModel.status existing) eqn:Hst; try discriminate.
    + destruct (URepo.get_tokens_by_id _ _) as [b|e]; [|discriminate].
      inversion H. subst resp w'. left. split; reflexivity.
    + unfold on_db, on_trained_models, TMRepo.restart_existing_row in H.
      destruct (Sql.scalar_one_or_none _) as [[row_id|]|e] eqn:Hret; try discriminate.
      apply run_and_publish_ok in H.
      destruct H as (m & x & b & Hdebit & Hmark & Hch & Hbal & Htc & Hss & Hps).
      cbn [database] in Hdebit, Hmark, Htc, Hss, Hps.
      right. split; [exact Hch|]. split.
      { rewrite Hbal, <- Hdebit. destruct (database w); reflexivity. }
      split.
      { intros r' Hr'.
        destruct (tm_applied_rows _ _ _ _ _ Hmark r' Hr') as [Ha|[Hin Hc]]; [now right|].
        replace (trained_models (set_trained_models (database w) _))
          with (Sql.update
                  (fun r => TMRepo.owned (User.id user) fp r
                            && RowStatus_eqb (TrainedModel.status r) failed)
                  (fun r => TrainedModel.with_status_metrics r pending JNull)
                  (trained_models (database w))) in Hin
          by (destruct (database w); reflexivity).
        unfold Sql.update in Hin. apply in_map_iff in Hin. destruct Hin as (r & Er & Hr).
        destruct (TMRepo.owned (User.id user) fp r
                  && RowStatus_eqb (TrainedModel.status r) failed) eqn:C.
        - exfalso.
          pose proof (returning_one _ _ TrainedModel.id _ row_id (fun _ => eq_refl) Hret r Hr C)
            as Hid.
          subst r'. cbn in Hc. rewrite Hid, Z.eqb_refl in Hc. discriminate.
        - subst r'. now left. }
      destruct (database w); cbn in *. repeat split; assumption.
  - apply run_and_publish_ok in H.
    destruct H as (m & x & b & Hdebit & Hmark & Hch & Hbal & Htc & Hss & Hps).
    cbn [database fst snd] in Hdebit, Hmark, Htc, Hss, Hps.
    right. split; [exact Hch|]. split.
    { rewrite Hbal, <- Hdebit. destruct (database w); reflexivity. }
    split.
    { intros r' Hr'.
      destruct (tm_applied_rows _ _ _ _ _ Hmark r' Hr') as [Ha|[Hin Hc]]; [now right|].
      replace (trained_models (set_trained_models (database w) _))
        with (trained_models (database w)
              ++ [TrainingVocabulary.submitted_row
                    user mt_c feats_c params_n label_c schema fp
                    (trained_models (database w)) pending (JDict [])]) in Hin
        by (destruct (database w); reflexivity).
      apply in_app_or in Hin. destruct Hin as [Hin|[<-|[]]]; [now left|].
      exfalso. cbn in Hc. rewrite Z.eqb_refl in Hc. discriminate. }
    destruct (database w); cbn in *. repeat split; assumption.
Qed.

Lemma p_applied_rows (i : Z) (res : string) (t t' : list Prediction.t) (x : Prediction.t) :
  PRepo.mark_applied i res t = (Ok (Some x), t') ->
  forall r', In r' t' ->
    Prediction.status r' = applied
    \/ (In r' t /\ ((Prediction.id r' =? i)
                    && RowStatus_eqb (Prediction.status r') pending = false)).
Proof.
  unfold PRepo.mark_applied.
  destruct (Sql.scalar_one_or_none _) as [[u|]|e]; intros H; inversion H; subst t'.
  intros r' Hr'. unfold Sql.update in Hr'. apply in_map_iff in Hr'.
  destruct Hr' as (r & <- & Hr).
  destruct ((Prediction.id r =? i) && RowStatus_eqb (Prediction.status r) pending) eqn:C.
  - now left.
  - right. split; assumption.
Qed.

Lemma run_and_apply_ok (run : PS.predict_outcome) (user : User.t) (action : ActionType)
      (tm_row : TrainedModel.t) (request : PS.PredictionRequest) (row_id : Z)
      (w w' : World) (resp : PS.PredictResponse) :
  PS.run_and_apply run user action tm_row request row_id w = (Ok resp, w') ->
  exists y x b,
    URepo.update_tokens (User.id user) (cost action) (users (database w))
    = (Ok b, users (database w'))
    /\ PRepo.mark_applied row_id y (predictions (database w))
       = (Ok (Some x), predictions (database w'))
    /\ PS.charged resp = true /\ PS.balance resp = b
    /\ token_credits (database w') = token_credits (database w)
    /\ auth_sessions (database w') = auth_sessions (database w)
    /\ trained_models (database w') = trained_models (database w).
Proof.
  unfold PS.run_and_apply, launch_compute, modify, PS._fail_prediction_safely, bind,
    try_except, on_db, on_predictions, on_users, raise, ret.
  destruct (negb (PS._ensure_feature_keys_match _ _)); [discriminate|].
  cbn [fst snd database os compute_runs].
  destruct run as [y| | |]; try discriminate.
  cbn [fst snd database os compute_runs].
  destruct (URepo.update_tokens _ _ _) as [[b|e] us] eqn:Hdebit;
    cbn [database os compute_runs fst snd]; [|destruct e; discriminate].
  replace (predictions (set_users (database w) us)) with (predictions (database w))
    by (destruct (database w); reflexivity).
  destruct (PRepo.mark_applied _ _ _) as [[[row|]|e] ps] eqn:Hmark;
    cbn [database os compute_runs fst snd]; [|discriminate|destruct e; discriminate].
  intros H. inversion H. subst resp w'. exists y, row, b.
  cbn [database PS.charged PS.balance]. rewrite ?Hdebit, ?Hmark.
  destruct (database w); cbn. repeat split; reflexivity.
Qed.

(** X23: what a prediction request commits.  Run under the transaction
    of [get_db], a request that raises leaves the database as it was; a
    request that answers either is a replay, uncharged and with the
    database as it was, or is charged, its debit was accepted by the users
    table and gave the balance it reports, every ledger row is a row from
    before the request or is applied, and the other tables are as before.
    No request commits a pending or a failed row. *)
Theorem prediction_request_commits_all_or_nothing
        (load : PS.load_outcome) (run : PS.predict_outcome) (user : User.t)
        (request : PS.PredictionRequest) (action : ActionType) (w : World) :
  match get_db (PS.predict load run user request action) w with
  | (Raise _, w') => database w' = database w
  | (Ok resp, w') =>
      (PS.charged resp = false /\ database w' = database w)
      \/ (PS.charged resp = true
          /\ URepo.update_tokens (User.id user) (cost action) (users (database w))
             = (Ok (PS.balance resp), users (database w'))
          /\ (forall r, In r (predictions (database w')) ->
                        In r (predictions (database w)) \/ Prediction.status r = applied)
          /\ token_credits (database w') = token_credits (database w)
          /\ auth_sessions (database w') = auth_sessions (database w)
          /\ trained_models (database w') = trained_models (database w))
  end.
Proof.
  unfold get_db.
  destruct (PS.predict _ _ _ _ _ w) as [[resp|e] w'] eqn:H; [|reflexivity].
  pose proof (ServiceFacts.load_guard_same_world load (User.id user) (PS.model_id request) w)
    as Hw.
  unfold PS.predict in H. unfold bind at 1 in H.
  destruct (PS._load_model_row_for_user _ _ _ w) as [[tm_row|e] w0]; [|discriminate].
  cbn [snd] in Hw. subst w0.
  unfold bind at 1 in H. unfold on_db at 1 in H. unfold on_predictions at 1 in H.
  unfold PRepo.try_insert_pending in H.
  destruct (existsb _ _) eqn:Hex.
  - rewrite ServiceFacts.set_predictions_same, ServiceFacts.world_same in H.
    unfold bind, get, of_result in H.
    destruct (PRepo.get_by_user_fingerprint _ _ _) as [[existing|]|e] eqn:Hget;
      try discriminate.
    destruct (Prediction.status existing) eqn:Hst; try discriminate.
    + destruct (URepo.get_tokens_by_id _ _) as [b|e]; [|discriminate].
      inversion H. subst resp w'. left. split; reflexivity.
    + unfold on_db, on_predictions, PRepo.restart_existing_row in H.
      destruct (Sql.scalar_one_or_none _) as [[row_id|]|e] eqn:Hret; try discriminate.
      apply run_and_apply_ok in H.
      destruct H as (y & x & b & Hdebit & Hmark & Hch & Hbal & Htc & Hss & Htm).
      cbn [database] in Hdebit, Hmark, Htc, Hss, Htm.
      right. split; [exact Hch|]. split.
      { rewrite Hbal, <- Hdebit. destruct (database w); reflexivity. }
      split.
      { intros r' Hr'.
        destruct (p_applied_rows _ _ _ _ _ Hmark r' Hr') as [Ha|[Hin Hc]]; [now right|].
        replace (predictions (set_predictions (database w) _))
          with (Sql.update
                  (fun r => PRepo.owned
                              (User.id user)
                              (FingerprintHashing.compute_prediction_fingerprint
                                 (TrainedModel.id tm_row) (PS.feature_values request)) r
                            && RowStatus_eqb (Prediction.status r) failed)
                  (fun r => Prediction.with_status r pending)
                  (predictions (database w))) in Hin
          by (destruct (database w); reflexivity).
        unfold Sql.update in Hin. apply in_map_iff in Hin. destruct Hin as (r & Er & Hr).
        destruct (PRepo.owned _ _ r && RowStatus_eqb (Prediction.status r) failed) eqn:C.
        - exfalso.
          pose proof (returning_one _ _ Prediction.id _ row_id (fun _ => eq_refl) Hret r Hr C)
            as Hid.
          subst r'. cbn [Prediction.id Prediction.status Prediction.with_status
                         Prediction.with_status_result RowStatus_eqb] in Hc.
          rewrite Hid, Z.eqb_refl in Hc. discriminate.
        - subst r'. now left. }
      cbn [token_credits auth_sessions trained_models set_predictions] in Htc, Hss, Htm.
      split; [exact Htc|]. split; [exact Hss|exact Htm].
  - cbn [fst snd] in H. apply run_and_apply_ok in H.
    destruct H as (y & x & b & Hdebit & Hmark & Hch & Hbal & Htc & Hss & Htm).
    cbn [database fst snd] in Hdebit, Hmark, Htc, Hss, Htm.
    right. split; [exact Hch|]. split.
    { rewrite Hbal, <- Hdebit. destruct (database w); reflexivity. }
    split.
    { intros r' Hr'.
      destruct (p_applied_rows _ _ _ _ _ Hmark r' Hr') as [Ha|[Hin Hc]]; [now right|].
      replace (predictions (set_predictions (database w) _))
        with (predictions (database w)
              ++ [PredictionVocabulary.requested_row
                    user tm_row request (predictions (database w)) pending EmptyString]) in Hin
        by (destruct (database w); reflexivity).
      apply in_app_or in Hin. destruct Hin as [Hin|[<-|[]]]; [now left|].
      exfalso. unfold PredictionVocabulary.requested_row in Hc.
      cbn [Prediction.id Prediction.status RowStatus_eqb] in Hc.
      rewrite Z.eqb_refl in Hc. discriminate. }
    cbn [token_credits auth_sessions trained_models set_predictions] in Htc, Hss, Htm.
    split; [exact Htc|]. split; [exact Hss|exact Htm].
Qed.

(** X24: what a purchase request commits.  Run under the transaction of
    [get_db], a request that raises leaves the database as it was; a
    request that answers either leaves the database as it was (the replay
    of an applied key) or has credited the balance it reports through the
    conditional credit of the users table, and every ledger row is a row
    from before the request or is applied, the other tables being as
    before.  No request commits a pending or a failed ledger row. *)
Theorem purchase_request_commits_all_or_nothing
        (user : User.t) (amount : Z) (key : string) (w : World) :
  match get_db (on_db (TokenCreditService.buy_tokens user amount key)) w with
  | (Raise _, w') => database w' = database w
  | (Ok resp, w') =>
      database w' = database w
      \/ (URepo.add_tokens (User.id user) amount (users (database w))
          = (Ok (Some (TokenCreditService.balance resp)), users (database w'))
          /\ (forall r, In r (token_credits (database w')) ->
                        In r (token_credits (database w))
                        \/ TokenCredit.status r = applied)
          /\ auth_sessions (database w') = auth_sessions (database w)
          /\ trained_models (database w') = trained_models (database w)
          /\ predictions (database w') = predictions (database w))
  end.
Proof.
  unfold get_db, on_db.
  destruct (TokenCreditService.buy_tokens user amount key (database w)) as [[resp|e] d'] eqn:H;
    [|reflexivity].
  cbn [database].
  destruct (existsb (TokenCreditRepository.same_key (User.id user) key)
                    (token_credits (database w))) eqn:Hex.
  - rewrite (TokenCreditFacts.buy_tokens_duplicate user amount key _ Hex) in H.
    destruct (PurchaseVocabulary.ledger_row user key (database w)) as [[[] [b|]]|];
      try discriminate; inversion H; now left.
  - unfold TokenCreditService.buy_tokens, bind, on_token_credits, on_users, get, raise, ret,
      TokenCreditRepository.try_insert_pending in H.
    rewrite Hex in H.
    destruct (existsb _ _); [discriminate|]. cbn [fst snd] in H.
    replace (users (set_token_credits (database w) _)) with (users (database w)) in H
      by (destruct (database w); reflexivity).
    destruct (URepo.add_tokens _ _ _) as [[[nb|]|e] us] eqn:Hadd; cbn [fst snd] in H.
    + unfold TokenCreditRepository.mark_applied, Sql.update_checked in H.
      destruct (forallb _ _); [|discriminate]. inversion H. subst resp d'. right.
      split; [destruct (database w); reflexivity|]. split.
      { intros r' Hr'.
        replace (token_credits (set_token_credits _ _))
          with (Sql.update
                  (TokenCreditRepository.same_key (User.id user) key)
                  (fun r => TokenCredit.with_status r applied (Some nb))
                  (token_credits (database w)
                   ++ [TokenCredit.mk (Sql.next_id (map TokenCredit.id
                                                        (token_credits (database w))))
                                      (User.id user) key None pending])) in Hr'
          by (destruct (database w); reflexivity).
        unfold Sql.update in Hr'. apply in_map_iff in Hr'. destruct Hr' as (r & <- & Hr).
        destruct (TokenCreditRepository.same_key (User.id user) key r) eqn:C; [now right|].
        apply in_app_or in Hr. destruct Hr as [Hr|[<-|[]]]; [now left|].
        exfalso. unfold TokenCreditRepository.same_key in C. cbn in C.
        now rewrite Z.eqb_refl, String.eqb_refl in C. }
      destruct (database w); repeat split; reflexivity.
    + destruct (TokenCreditRepository.mark_failed _ _ _) as [[[]|e'] t']; discriminate.
    + discriminate.
Qed.

End RequestLevelFacts.

(** ** Startup: what the reconcilers do to the disk *)

Module StartupFacts.
Import Reconciler ReconcilerVocabulary StartupVocabulary.



















End StartupFacts.

(** ** Artifact paths *)

Module PathFacts.
Import PathVocabulary FingerprintVocabulary.

Lemma digit_value (m : Z) :
  0 <= m < 10 ->
  Z.of_N (N_of_ascii (Hashlib.hex_digit m)) - 48 = m
  /\ is_minus (Hashlib.hex_digit m) = false.
Proof.
  intros H.
  assert (C : m = 0 \/ m = 1 \/ m = 2 \/ m = 3 \/ m = 4 \/ m = 5 \/ m = 6 \/ m = 7
              \/ m = 8 \/ m = 9) by lia.
  repeat (destruct C as [->|C]; [split; reflexivity|]). subst m. split; reflexivity.
Qed.

Lemma digits_value_digits (fuel : nat) :
  forall n acc, 0 <= n < 2 ^ Z.of_nat fuel ->
                digits_value (Json.digits fuel n acc) 0 = digits_value acc n.
Proof.
  induction fuel as [|f IH]; intros n acc Hn.
  - simpl in *. now replace n with 0 by lia.
  - cbn [Json.digits].
    assert (Hmod : 0 <= n mod 10 < 10) by (apply Z.mod_pos_bound; lia).
    destruct (digit_value _ Hmod) as [Hd _].
    destruct (n <? 10) eqn:E.
    + apply Z.ltb_lt in E. cbn [digits_value]. rewrite Hd.
      rewrite Z.mod_small by lia. reflexivity.
    + apply Z.ltb_ge in E. rewrite IH.
      * cbn [digits_value]. rewrite Hd. f_equal.
        pose proof (Z.div_mod n 10 ltac:(lia)). lia.
      * rewrite Nat2Z.inj_succ, Z.pow_succ_r in Hn by lia.
        split; [apply Z.div_pos; lia|].
        apply Z.div_lt_upper_bound; lia.
Qed.

Lemma digits_head (fuel : nat) :
  forall n acc, 0 <= n ->
                exists c r, Json.digits (S fuel) n acc = String c r /\ is_minus c = false.
Proof.
  induction fuel as [|f IH]; intros n acc Hn.
  - assert (Hmod : 0 <= n mod 10 < 10) by (apply Z.mod_pos_bound; lia).
    destruct (digit_value _ Hmod) as [_ Hm].
    cbn [Json.digits]. destruct (n <? 10); eexists; eexists; split; try reflexivity; exact Hm.
  - assert (Hmod : 0 <= n mod 10 < 10) by (apply Z.mod_pos_bound; lia).
    destruct (digit_value _ Hmod) as [_ Hm].
    change (Json.digits (S (S f)) n acc)
      with (if n <? 10 then String (Hashlib.hex_digit (n mod 10)) acc
            else Json.digits (S f) (n / 10) (String (Hashlib.hex_digit (n mod 10)) acc)).
    destruct (n <? 10) eqn:E.
    + eexists; eexists; split; [reflexivity|exact Hm].
    + apply IH. apply Z.div_pos; lia.
Qed.

Lemma fuel_is_enough (n : Z) : 0 <= n -> 0 <= n < 2 ^ Z.of_nat (S (Z.to_nat (Z.log2 n))).
Proof.
  intros Hn. split; [exact Hn|].
  rewrite Nat2Z.inj_succ, Z2Nat.id by apply Z.log2_nonneg.
  destruct (Z.eq_dec n 0) as [->|Hz]; [reflexivity|].
  apply Z.log2_spec. lia.
Qed.

(** reading back what [str] wrote gives the number *)
Lemma int_of_dec (n : Z) : int_of (Json.dec n) = n.
Proof.
  unfold Json.dec. destruct (n <? 0) eqn:E.
  - apply Z.ltb_lt in E. unfold int_of.
    change (is_minus "-"%char) with true. cbv iota.
    rewrite digits_value_digits by (apply fuel_is_enough; lia). simpl. lia.
  - apply Z.ltb_ge in E.
    destruct (digits_head (Z.to_nat (Z.log2 n)) n EmptyString E) as (c & r & Hd & Hm).
    unfold int_of. rewrite Hd, Hm, <- Hd.
    rewrite digits_value_digits by (apply fuel_is_enough; lia). reflexivity.
Qed.

Lemma append_same_length (a b c d : string) :
  String.length a = String.length b -> (a ++ c)%string = (b ++ d)%string -> a = b /\ c = d.
Proof.
  revert b. induction a as [|x a IH]; intros [|y b] Hl H; simpl in *; try discriminate.
  - now split.
  - inversion H. subst y. destruct (IH b ltac:(lia) H2) as [-> ->]. now split.
Qed.

Lemma chars_append (a b : string) :
  list_ascii_of_string (a ++ b) = list_ascii_of_string a ++ list_ascii_of_string b.
Proof. induction a as [|c a IH]; simpl; [reflexivity|now rewrite IH]. Qed.

(** X26: artifact paths tell the owner and the fingerprint.  For
    fingerprints that are digests, two artifact paths are equal only for
    the same user id and the same fingerprint, and the temp path of an
    artifact is the final path of none. *)
Theorem artifact_paths_are_distinct (u1 u2 : User.t) (fp1 fp2 : string) :
  is_digest fp1 -> is_digest fp2 ->
  (Files.unique_model_path u1 fp1 = Files.unique_model_path u2 fp2 ->
   User.id u1 = User.id u2 /\ fp1 = fp2)
  /\ Files.temp_path_for (Files.unique_model_path u1 fp1) <> Files.unique_model_path u2 fp2.
Proof.
  intros [L1 _] [L2 _]. unfold Files.temp_path_for, Files.unique_model_path. split.
  - intros H.
    assert (Hlen := f_equal String.length H).
    cbn [append] in H.
    repeat match type of H with String ?c _ = String ?c _ => inversion H as [H']; clear H;
                                                           rename H' into H end.
    repeat rewrite TrainingFacts.append_length in Hlen. cbn [String.length] in Hlen.
    rewrite L1, L2 in Hlen.
    apply append_same_length in H; [|lia]. destruct H as [Hdec H].
    inversion H as [H']. apply append_same_length in H'; [|congruence].
    split; [|exact (proj1 H')].
    rewrite <- (int_of_dec (User.id u1)), <- (int_of_dec (User.id u2)). now rewrite Hdec.
  - intros H. apply (f_equal (fun s => rev (list_ascii_of_string s))) in H.
    rewrite !chars_append in H. rewrite !rev_app_distr in H.
    cbn [list_ascii_of_string rev app] in H. discriminate H.
Qed.

Lemma artifact_paths_witness :
  Files.temp_path_for (Files.unique_model_path ServiceSamples.rich ServiceSamples.fp0)
  <> Files.unique_model_path ServiceSamples.rich ServiceSamples.fp0.
Proof.
  assert (Hd : is_digest ServiceSamples.fp0) by (split; reflexivity).
  exact (proj2 (artifact_paths_are_distinct ServiceSamples.rich ServiceSamples.rich
                                            ServiceSamples.fp0 ServiceSamples.fp0 Hd Hd)).
Defined.

End PathFacts.
